(** * JusticeGraph: the hearing scheduling engine

    A shallow embedding of [optimization/scheduler.py],
    [optimization/constraint_builder.py] and
    [optimization/optimization_utils.py], and the properties of the
    scheduling core proved (or refuted) on it.

    Conventions of the embedding.
    - A Python [int] is a [Z]; a finite Python [float] is the rational it
      denotes ([Q]), and a float division rounds its exact quotient to the
      nearest double; a [datetime.date] is its proleptic ordinal
      ([date.toordinal()], a [Z]), so that [d + timedelta(days=i)] is
      [d + i] and [d.weekday()] is [(d + 6) mod 7].
    - A [dict] is a [gmap]; reading a missing key raises [KeyError].
    - A pandas frame is a list of typed rows.  [priority_score] is optional
      in [cases_df], as the code tests for it.  The schedule frame is
      modelled with its column list, because [pd.DataFrame([])] has no
      columns at all and reading a column of it raises [KeyError].
    - The schedulers are embedded twice.  The first embedding takes
      [judges_df] as the list of its rows and dates as unbounded ordinals:
      it describes the runs in which [judges_df] has the columns the
      scheduler reads and the horizon stays inside the calendar.  Module
      [Strict] embeds the same lines with [judges_df] as a frame with its
      column list and with the [OverflowError] of [date + timedelta]; it is
      proved equal to the first embedding on those runs.
    - Exceptions are values of [exn] in the [result] monad.
    - The library calls whose algorithm is not part of the repository
      ([DataFrame.sort_values] with the default sort kind, the CP-SAT solver,
      floating-point statistics) are parameters with their documented
      contract. *)

From Stdlib Require Import QArith Qround Qabs Qpower.
From stdpp Require Import gmap strings list sorting.

Open Scope Z_scope.

(** ** Exceptions *)

Inductive exn :=
| KeyError (key : string)
| IndexError
| ZeroDivisionError
| OverflowError.

Inductive result (A : Type) :=
| Ok (a : A)
| Raise (e : exn).
Arguments Ok {A} a.
Arguments Raise {A} e.

Definition bind {A B} (m : result A) (k : A → result B) : result B :=
  match m with
  | Ok a => k a
  | Raise e => Raise e
  end.

Notation "'let!' x ':=' m 'in' k" := (bind m (fun x => k))
  (at level 10, x name, m at level 100, k at level 200,
   format "'[v' 'let!'  x  ':='  m  'in' '/' k ']'").

(** A [for] loop whose body may raise. *)
Fixpoint for_each {A S} (body : S → A → result S) (xs : list A) (s : S)
  : result S :=
  match xs with
  | [] => Ok s
  | x :: xs' => let! s' := body s x in for_each body xs' s'
  end.

(** [d[k]] on a dict. *)
Definition dict_get `{Countable K} {V} (what : string) (d : gmap K V) (k : K)
  : result V :=
  match d !! k with
  | Some v => Ok v
  | None => Raise (KeyError what)
  end.

(** [d[k] += 1]. *)
Definition dict_incr `{Countable K} (what : string) (d : gmap K Z) (k : K)
  : result (gmap K Z) :=
  let! v := dict_get what d k in Ok (<[k := v + 1]> d).

(** ** Dates *)

(** [date.weekday()]: Monday is 0, Sunday is 6. *)
Definition weekday (d : Z) : Z := (d + 6) mod 7.

(** [range(n)]. *)
Definition range (n : Z) : list Z := seqZ 0 n.

(** ** Frames *)

(** A row of [cases_df]. *)
Record Case := {
  case_id : Z;
  case_number : string;
  priority_score : Q
}.

(** [cases_df]: [has_priority_score] is ['priority_score' in cases_df.columns];
    without the column the field [priority_score] of the rows is not read. *)
Record CasesDF := {
  has_priority_score : bool;
  case_rows : list Case
}.

(** [case_row.get('priority_score', 50)]. *)
Definition get_priority_score (cases_df : CasesDF) (case_row : Case) : Q :=
  if has_priority_score cases_df then priority_score case_row else 50%Q.

(** A row of [judges_df]. *)
Record Judge := {
  judge_id : Z;
  judge_name : string
}.

(** A row of the schedule, the dict appended to [schedule]. *)
Record Hearing := {
  h_case_id : Z;
  h_case_number : string;
  h_judge_id : Z;
  h_judge_name : string;
  hearing_date : Z;
  h_priority_score : Q;
  estimated_duration_hours : Q
}.

(** The schedule frame with its columns. *)
Record ScheduleDF := {
  columns : list string;
  rows : list Hearing
}.

Definition schedule_columns : list string :=
  ["case_id"; "case_number"; "judge_id"; "judge_name"; "hearing_date";
   "priority_score"; "estimated_duration_hours"]%string.

(** [pd.DataFrame(schedule)] on a list of dicts: the columns are the keys of
    the dicts, so the empty list gives a frame with no column. *)
Definition DataFrame (schedule : list Hearing) : ScheduleDF :=
  match schedule with
  | [] => {| columns := []; rows := [] |}
  | _ => {| columns := schedule_columns; rows := schedule |}
  end.

(** ** scheduler.py *)

Record HearingScheduler := {
  max_hearings_per_day : Z;
  max_hearings_per_judge : Z;
  working_hours_per_day : Z;
  avg_hearing_duration : Q
}.

(** [HearingScheduler.__init__]: the arguments are stored as they are given;
    nothing is checked. *)
Definition HearingScheduler_init (max_hearings_per_day max_hearings_per_judge
    working_hours_per_day : Z) (avg_hearing_duration_hours : Q)
  : result HearingScheduler :=
  Ok {| max_hearings_per_day := max_hearings_per_day;
        max_hearings_per_judge := max_hearings_per_judge;
        working_hours_per_day := working_hours_per_day;
        avg_hearing_duration := avg_hearing_duration_hours |}.

(** The defaults of [__init__]. *)
Definition HearingScheduler_default : result HearingScheduler :=
  HearingScheduler_init 20 15 6 (1 # 2)%Q.

(** The state of the heuristic's loop: the [schedule] list, the two counter
    dicts, and the [logger.warning] lines emitted for unscheduled cases. *)
Record LoopState := {
  schedule : list Hearing;
  daily_hearings : gmap Z Z;
  judge_daily_hearings : gmap (Z * Z) Z;
  warnings : list string
}.

(** [{current_date + timedelta(days=i): 0 for i in range(num_days)}] *)
Definition init_daily_hearings (start_date num_days : Z) : gmap Z Z :=
  list_to_map ((λ i, (start_date + i, 0)) <$> range num_days).

(** [{(judge_id, current_date + timedelta(days=i)): 0
      for judge_id in judges_df['judge_id'] for i in range(num_days)}] *)
Definition init_judge_daily_hearings (judges_df : list Judge)
    (start_date num_days : Z) : gmap (Z * Z) Z :=
  list_to_map
    ((judge_id <$> judges_df) ≫=
       (λ jid, (λ i, ((jid, start_date + i), 0)) <$> range num_days)).

Section Heuristic.

(** [cases_df.sort_values('priority_score', ascending=False)], with the
    default sort kind. *)
Variable sort_values : list Case → list Case.

Variable self : HearingScheduler.

(** The inner loop [for _, judge_row in judges_df.iterrows()]: the first
    judge below capacity on [hearing_date], if any. *)
Fixpoint try_judges (hearing_date : Z) (jdh : gmap (Z * Z) Z)
    (judges : list Judge) : result (option Judge) :=
  match judges with
  | [] => Ok None
  | judge_row :: rest =>
      let judge_key := (judge_id judge_row, hearing_date) in
      let! n := dict_get "judge_daily_hearings" jdh judge_key in
      if bool_decide (n < max_hearings_per_judge self)
      then Ok (Some judge_row)
      else try_judges hearing_date jdh rest
  end.

(** The loop [for day_offset in range(num_days)] for one case: [Some] of the
    updated state when the case was scheduled, [None] when the loop ran
    out of days. *)
Fixpoint try_days (cases_df : CasesDF) (judges_df : list Judge)
    (start_date : Z) (case_row : Case) (st : LoopState)
    (offsets : list Z) : result (option LoopState) :=
  match offsets with
  | [] => Ok None
  | day_offset :: rest =>
      let hearing_date := start_date + day_offset in
      if bool_decide (5 ≤ weekday hearing_date)
      then try_days cases_df judges_df start_date case_row st rest
      else
        let! n := dict_get "daily_hearings" (daily_hearings st) hearing_date in
        if bool_decide (max_hearings_per_day self ≤ n)
        then try_days cases_df judges_df start_date case_row st rest
        else
          let! r := try_judges hearing_date (judge_daily_hearings st) judges_df in
          match r with
          | Some judge_row =>
              let judge_key := (judge_id judge_row, hearing_date) in
              let h := {| h_case_id := case_id case_row;
                          h_case_number := case_number case_row;
                          h_judge_id := judge_id judge_row;
                          h_judge_name := judge_name judge_row;
                          hearing_date := hearing_date;
                          h_priority_score :=
                            get_priority_score cases_df case_row;
                          estimated_duration_hours :=
                            avg_hearing_duration self |} in
              let! dh := dict_incr "daily_hearings" (daily_hearings st)
                      hearing_date in
              let! jdh := dict_incr "judge_daily_hearings"
                       (judge_daily_hearings st) judge_key in
              Ok (Some {| schedule := schedule st ++ [h];
                          daily_hearings := dh;
                          judge_daily_hearings := jdh;
                          warnings := warnings st |})
          | None =>
              try_days cases_df judges_df start_date case_row st rest
          end
  end.

(** The body of [for idx, case_row in cases_df.iterrows()]. *)
Definition schedule_case (cases_df : CasesDF) (judges_df : list Judge)
    (start_date num_days : Z) (st : LoopState) (case_row : Case)
  : result LoopState :=
  let! r := try_days cases_df judges_df start_date case_row st (range num_days) in
  match r with
  | Some st' => Ok st'
  | None =>
      Ok {| schedule := schedule st;
            daily_hearings := daily_hearings st;
            judge_daily_hearings := judge_daily_hearings st;
            warnings := warnings st ++ [case_number case_row] |}
  end.

(** The order in which the cases are processed. *)
Definition processing_order (cases_df : CasesDF) : list Case :=
  if has_priority_score cases_df
  then sort_values (case_rows cases_df)
  else case_rows cases_df.

(** [schedule_hearings_heuristic] up to the end of its loop. *)
Definition heuristic_loop (cases_df : CasesDF) (judges_df : list Judge)
    (start_date num_days : Z) : result LoopState :=
  let cases := processing_order cases_df in
  let st := {| schedule := [];
               daily_hearings := init_daily_hearings start_date num_days;
               judge_daily_hearings :=
                 init_judge_daily_hearings judges_df start_date num_days;
               warnings := [] |} in
  for_each (schedule_case cases_df judges_df start_date num_days) cases st.

(** [schedule_hearings_heuristic]: the frame it returns. *)
Definition schedule_hearings_heuristic (cases_df : CasesDF)
    (judges_df : list Judge) (start_date num_days : Z)
  : result ScheduleDF :=
  let! st := heuristic_loop cases_df judges_df start_date num_days in
  Ok (DataFrame (schedule st)).

(** The ["Could not schedule case ..."] warnings of the same run. *)
Definition heuristic_warnings (cases_df : CasesDF)
    (judges_df : list Judge) (start_date num_days : Z)
  : result (list string) :=
  let! st := heuristic_loop cases_df judges_df start_date num_days in
  Ok (warnings st).

End Heuristic.

(** A stable descending sort, one admissible [sort_values]. *)
Fixpoint insert_desc (c : Case) (l : list Case) : list Case :=
  match l with
  | [] => [c]
  | x :: l' =>
      if Qle_bool (priority_score x) (priority_score c)
      then c :: x :: l'
      else x :: insert_desc c l'
  end.

Definition stable_sort_values (l : list Case) : list Case :=
  foldr insert_desc [] l.

(** ** The schedule as a function of the hearings booked so far

    Reference definitions for the proofs: what the loops compute, read off
    the [schedule] list instead of the counter dicts. *)

Definition count_date (d : Z) (sched : list Hearing) : Z :=
  Z.of_nat (length (filter (λ h, hearing_date h = d) sched)).

Definition count_judge_date (j d : Z) (sched : list Hearing) : Z :=
  Z.of_nat
    (length (filter (λ h, h_judge_id h = j ∧ hearing_date h = d) sched)).

Definition count_case (i : Z) (sched : list Hearing) : nat :=
  length (filter (λ h, h_case_id h = i) sched).

Section Reference.

Variable self : HearingScheduler.

Fixpoint free_judge (sched : list Hearing) (d : Z) (judges : list Judge)
  : option Judge :=
  match judges with
  | [] => None
  | j :: rest =>
      if bool_decide
           (count_judge_date (judge_id j) d sched < max_hearings_per_judge self)
      then Some j
      else free_judge sched d rest
  end.

Fixpoint free_slot (sched : list Hearing) (judges : list Judge)
    (start_date : Z) (offsets : list Z) : option (Z * Judge) :=
  match offsets with
  | [] => None
  | o :: rest =>
      let d := start_date + o in
      if bool_decide (5 ≤ weekday d)
      then free_slot sched judges start_date rest
      else if bool_decide (max_hearings_per_day self ≤ count_date d sched)
      then free_slot sched judges start_date rest
      else match free_judge sched d judges with
           | Some j => Some (d, j)
           | None => free_slot sched judges start_date rest
           end
  end.

Definition booking (cases_df : CasesDF) (c : Case) (d : Z) (j : Judge)
  : Hearing :=
  {| h_case_id := case_id c;
     h_case_number := case_number c;
     h_judge_id := judge_id j;
     h_judge_name := judge_name j;
     hearing_date := d;
     h_priority_score := get_priority_score cases_df c;
     estimated_duration_hours := avg_hearing_duration self |}.

(** The state after booking [c] on [(d, j)]. *)
Definition book (cases_df : CasesDF) (c : Case) (d : Z) (j : Judge)
    (st : LoopState) : LoopState :=
  {| schedule := schedule st ++ [booking cases_df c d j];
     daily_hearings :=
       <[d := count_date d (schedule st) + 1]> (daily_hearings st);
     judge_daily_hearings :=
       <[(judge_id j, d) :=
           count_judge_date (judge_id j) d (schedule st) + 1]>
         (judge_daily_hearings st);
     warnings := warnings st |}.

Definition warn (c : Case) (st : LoopState) : LoopState :=
  {| schedule := schedule st;
     daily_hearings := daily_hearings st;
     judge_daily_hearings := judge_daily_hearings st;
     warnings := warnings st ++ [case_number c] |}.

(** One case, then the whole list. *)
Definition place (cases_df : CasesDF) (judges : list Judge)
    (start_date num_days : Z) (st : LoopState) (c : Case) : LoopState :=
  match free_slot (schedule st) judges start_date (range num_days) with
  | Some (d, j) => book cases_df c d j st
  | None => warn c st
  end.

Definition place_all (cases_df : CasesDF) (judges : list Judge)
    (start_date num_days : Z) (cases : list Case) (st : LoopState)
  : LoopState :=
  foldl (place cases_df judges start_date num_days) st cases.

End Reference.

(** The counter dicts agree with the schedule on every key of the horizon. *)
Definition counters_ok (judges : list Judge) (start_date num_days : Z)
    (st : LoopState) : Prop :=
  (∀ i, i ∈ range num_days →
     daily_hearings st !! (start_date + i)
     = Some (count_date (start_date + i) (schedule st)))
  ∧ (∀ j i, j ∈ judges → i ∈ range num_days →
       judge_daily_hearings st !! (judge_id j, start_date + i)
       = Some (count_judge_date (judge_id j) (start_date + i) (schedule st))).

Definition initial_state (judges_df : list Judge) (start_date num_days : Z)
  : LoopState :=
  {| schedule := [];
     daily_hearings := init_daily_hearings start_date num_days;
     judge_daily_hearings :=
       init_judge_daily_hearings judges_df start_date num_days;
     warnings := [] |}.

(** ** The optimized scheduler *)

(** [cases_df.iloc[c]] for [c >= 0]. *)
Definition iloc {A} (l : list A) (c : Z) : result A :=
  match l !! Z.to_nat c with
  | Some x => Ok x
  | None => Raise IndexError
  end.

(** [len(df)]. *)
Definition len {A} (l : list A) : Z := Z.of_nat (length l).

(** The statuses [solver.Solve] returns. *)
Inductive CpSolverStatus :=
| UNKNOWN | MODEL_INVALID | FEASIBLE | INFEASIBLE | OPTIMAL.

Global Instance CpSolverStatus_eq_dec : EqDecision CpSolverStatus.
Proof. solve_decision. Defined.

(** The Boolean variable [case_assignments[(c, j, d)]], named by its key. *)
Definition BoolVar : Type := Z * Z * Z.

(** The constraints [model.Add] receives: [sum(vars) == rhs] and
    [sum(vars) <= rhs]. *)
Inductive LinearConstraint :=
| SumEq (vars : list BoolVar) (rhs : Z)
| SumLe (vars : list BoolVar) (rhs : Z).

Record CpModel := {
  variables : list BoolVar;
  constraints : list LinearConstraint;
  objective : list (Z * BoolVar)
}.

Definition sum_values (value : BoolVar → Z) (vars : list BoolVar) : Z :=
  foldr (λ v acc, value v + acc) 0 vars.

Definition holds (value : BoolVar → Z) (ct : LinearConstraint) : Prop :=
  match ct with
  | SumEq vars rhs => sum_values value vars = rhs
  | SumLe vars rhs => sum_values value vars ≤ rhs
  end.

Global Instance holds_dec value ct : Decision (holds value ct).
Proof. destruct ct; simpl; apply _. Defined.

(** [value] is a solution of [model]: every variable is 0 or 1 and every
    constraint holds. *)
Definition satisfies (value : BoolVar → Z) (model : CpModel) : Prop :=
  Forall (λ v, value v = 0 ∨ value v = 1) (variables model)
  ∧ Forall (holds value) (constraints model).

Global Instance satisfies_dec value model : Decision (satisfies value model).
Proof. unfold satisfies. apply _. Defined.

(** [int(x)] on a float: truncation towards zero. *)
Definition int_of_float (x : Q) : Z := Z.quot (Qnum x) (Z.pos (Qden x)).

(** The variables of the pairs [(j, d)] of one case, of one judge-day, of
    one day, in the order of the generator expressions. *)
Definition case_vars (num_judges num_days c : Z) : list BoolVar :=
  range num_judges ≫= (λ j, (λ d, (c, j, d)) <$> range num_days).

Definition judge_day_vars (num_cases j d : Z) : list BoolVar :=
  (λ c, (c, j, d)) <$> range num_cases.

Definition day_vars (num_cases num_judges d : Z) : list BoolVar :=
  range num_cases ≫= (λ c, (λ j, (c, j, d)) <$> range num_judges).

Section Optimized.

Variable sort_values : list Case → list Case.

(** The module flag set by the guarded import of [ortools]. *)
Variable ORTOOLS_AVAILABLE : bool.

(** [solver.Solve(model)] with [solver.Value]. *)
Variable Solve : CpModel → CpSolverStatus * (BoolVar → Z).

Variable self : HearingScheduler.

(** The objective terms of one case. *)
Definition objective_terms (cases_df : CasesDF) (num_judges num_days : Z)
    (c : Z) : result (list (Z * BoolVar)) :=
  let! case_row := iloc (case_rows cases_df) c in
  let priority := get_priority_score cases_df case_row in
  Ok (range num_judges ≫= (λ j,
        (λ d, let time_weight := num_days - d in
              (int_of_float (priority * inject_Z time_weight)%Q, (c, j, d)))
          <$> range num_days)).

(** The CP-SAT model built before the solve. *)
Definition build_model (cases_df : CasesDF) (judges_df : list Judge)
    (num_days : Z) : result CpModel :=
  let num_cases := len (case_rows cases_df) in
  let num_judges := len judges_df in
  let case_assignments :=
    range num_cases ≫= (λ c, case_vars num_judges num_days c) in
  let once :=
    (λ c, SumEq (case_vars num_judges num_days c) 1) <$> range num_cases in
  let judge_capacity :=
    range num_judges ≫= (λ j,
      (λ d, SumLe (judge_day_vars num_cases j d)
              (max_hearings_per_judge self)) <$> range num_days) in
  let court_capacity :=
    (λ d, SumLe (day_vars num_cases num_judges d)
            (max_hearings_per_day self)) <$> range num_days in
  let! terms :=
    for_each (λ acc c,
                let! ts := objective_terms cases_df num_judges num_days c in
                Ok (acc ++ ts))
      (range num_cases) [] in
  Ok {| variables := case_assignments;
        constraints := once ++ judge_capacity ++ court_capacity;
        objective := terms |}.

(** One step of the extraction loops. *)
Definition extract_one (cases_df : CasesDF) (judges_df : list Judge)
    (start_date : Z) (value : BoolVar → Z) (c j : Z)
    (schedule : list Hearing) (d : Z) : result (list Hearing) :=
  if bool_decide (value (c, j, d) = 1)
  then
    let hearing_date := start_date + d in
    let! case_row := iloc (case_rows cases_df) c in
    let! judge_row := iloc judges_df j in
    Ok (schedule ++
          [{| h_case_id := case_id case_row;
              h_case_number := case_number case_row;
              h_judge_id := judge_id judge_row;
              h_judge_name := judge_name judge_row;
              hearing_date := hearing_date;
              h_priority_score := get_priority_score cases_df case_row;
              estimated_duration_hours := avg_hearing_duration self |}])
  else Ok schedule.

(** The three nested loops that read the solution. *)
Definition extract_schedule (cases_df : CasesDF) (judges_df : list Judge)
    (start_date num_days : Z) (value : BoolVar → Z)
  : result (list Hearing) :=
  let num_cases := len (case_rows cases_df) in
  let num_judges := len judges_df in
  for_each (λ schedule c,
    for_each (λ schedule j,
      for_each (extract_one cases_df judges_df start_date value c j)
        (range num_days) schedule)
      (range num_judges) schedule)
    (range num_cases) [].

(** [schedule_hearings_optimized]. *)
Definition schedule_hearings_optimized (cases_df : CasesDF)
    (judges_df : list Judge) (start_date num_days : Z)
  : result ScheduleDF :=
  if negb ORTOOLS_AVAILABLE
  then schedule_hearings_heuristic sort_values self cases_df judges_df
         start_date num_days
  else
    let! model := build_model cases_df judges_df num_days in
    let '(status, value) := Solve model in
    if bool_decide (status ∈ [OPTIMAL; FEASIBLE])
    then
      let! schedule :=
        extract_schedule cases_df judges_df start_date num_days value in
      Ok (DataFrame schedule)
    else
      schedule_hearings_heuristic sort_values self cases_df judges_df
        start_date num_days.

(** The status the solver reports in a run that reaches the solve. *)
Definition solve_status (cases_df : CasesDF) (judges_df : list Judge)
    (num_days : Z) : result CpSolverStatus :=
  let! model := build_model cases_df judges_df num_days in
  Ok (Solve model).1.

End Optimized.

(** A solver for examples: it proposes [candidate] and reports [FEASIBLE]
    when [candidate] solves the model, [INFEASIBLE] otherwise. *)
Definition candidate_solver (candidate : BoolVar → Z) (model : CpModel)
  : CpSolverStatus * (BoolVar → Z) :=
  if bool_decide (satisfies candidate model)
  then (FEASIBLE, candidate)
  else (INFEASIBLE, candidate).

(** ** Reference definitions for the optimized scheduler *)

(** The contract of a descending sort: the rows are permuted and the keys
    never increase. *)
Definition descending (l : list Case) : Prop :=
  Sorted (λ a b, (priority_score b <= priority_score a)%Q) l.

Global Instance Case_inhabited : Inhabited Case :=
  populate {| case_id := 0; case_number := ""; priority_score := 0%Q |}.

Global Instance Judge_inhabited : Inhabited Judge :=
  populate {| judge_id := 0; judge_name := "" |}.

(** What the extraction appends for one variable. *)
Definition picked (self : HearingScheduler) (cases_df : CasesDF)
    (judges_df : list Judge) (start_date : Z) (value : BoolVar → Z)
    (v : BoolVar) : list Hearing :=
  if bool_decide (value v = 1)
  then
    let case_row := case_rows cases_df !!! Z.to_nat v.1.1 in
    let judge_row := judges_df !!! Z.to_nat v.1.2 in
    [{| h_case_id := case_id case_row;
        h_case_number := case_number case_row;
        h_judge_id := judge_id judge_row;
        h_judge_name := judge_name judge_row;
        hearing_date := start_date + v.2;
        h_priority_score := get_priority_score cases_df case_row;
        estimated_duration_hours := avg_hearing_duration self |}]
  else [].

(** The capacity bounds of C1 as a predicate on a list of hearings. *)
Definition within_limits (self : HearingScheduler) (sched : list Hearing)
  : Prop :=
  (∀ j d, count_judge_date j d sched
          ≤ Z.max 0 (max_hearings_per_judge self))
  ∧ (∀ d, count_date d sched ≤ Z.max 0 (max_hearings_per_day self)).

(** ** Inputs for the examples *)

Definition monday : Z := 738886.   (* 2024-01-01 *)

Definition case_of (i : Z) (number : string) (p : Q) : Case :=
  {| case_id := i; case_number := number; priority_score := p |}.

Definition judge_A : Judge := {| judge_id := 1; judge_name := "A" |}.
Definition judge_B : Judge := {| judge_id := 2; judge_name := "B" |}.

(** Two hearings per judge and day, twenty per day. *)
Definition two_per_judge : HearingScheduler :=
  {| max_hearings_per_day := 20; max_hearings_per_judge := 2;
     working_hours_per_day := 6; avg_hearing_duration := (1 # 2)%Q |}.

Definition three_cases : CasesDF :=
  {| has_priority_score := true;
     case_rows := [case_of 1 "C-1" 10; case_of 2 "C-2" 90;
                   case_of 3 "C-3" 50]%Q |}.

(** Two rows that carry the same case id. *)
Definition repeated_case : CasesDF :=
  {| has_priority_score := true;
     case_rows := [case_of 7 "C-7" 60; case_of 7 "C-7" 60]%Q |}.

(** The solution "case [c] before judge 0 on day [c]". *)
Definition one_case_a_day (v : BoolVar) : Z :=
  if bool_decide (v.1.2 = 0 ∧ v.2 = v.1.1) then 1 else 0.

(** No hearing at all: not a solution as soon as there is a case. *)
Definition nothing_booked (v : BoolVar) : Z := 0.

(** ** Reading the schedule frame *)

(** ['name' in schedule_df.columns]. *)
Definition has_column (df : ScheduleDF) (name : string) : bool :=
  bool_decide (name ∈ columns df).

(** [schedule_df['name']]: a missing column raises [KeyError]. *)
Definition column {A} (df : ScheduleDF) (name : string) (field : Hearing → A)
  : result (list A) :=
  if has_column df name then Ok (field <$> rows df)
  else Raise (KeyError name).

(** [row['name']] for a row that [iterrows] yields. *)
Definition row_get {A} (df : ScheduleDF) (name : string)
    (field : Hearing → A) (row : Hearing) : result A :=
  if has_column df name then Ok (field row) else Raise (KeyError name).

(** The order of the group keys: dates, and (judge, date) pairs
    lexicographically. *)
Definition pair_le (a b : Z * Z) : Prop :=
  a.1 < b.1 ∨ (a.1 = b.1 ∧ a.2 ≤ b.2).

Global Instance pair_le_dec a b : Decision (pair_le a b).
Proof. unfold pair_le. apply _. Defined.

(** [groupby(key).size()]: one entry for each distinct key, the keys in
    increasing order, with the number of rows that have the key. *)
Definition groupby_size `{EqDecision K} (le : K → K → Prop)
    `{∀ a b, Decision (le a b)} (keys : list K) : list (K * Z) :=
  (λ k, (k, Z.of_nat (length (filter (λ k', k' = k) keys))))
    <$> merge_sort le (remove_dups keys).

(** [groupby(key)[col].min()]: the least value of each group. *)
Definition groupby_min (keyed : list (Z * Z)) : list (Z * Z) :=
  (λ k, (k, foldr Z.min
              (default 0 (head (snd <$> filter (λ kv, kv.1 = k) keyed)))
              (snd <$> filter (λ kv, kv.1 = k) keyed)))
    <$> merge_sort Z.le (remove_dups (fst <$> keyed)).

(** [Series.nunique()]. *)
Definition nunique `{EqDecision K} (xs : list K) : Z :=
  len (remove_dups xs).

(** ** Floating-point division

    [x / y] on two floats is the IEEE 754 binary64 quotient: the exact
    quotient rounded to the nearest double (53 bits of precision, exponents
    down to the subnormal 2^-1074), ties to the even mantissa, and infinite
    when the rounded magnitude reaches 2^1024.  A float that is not a nan is
    finite (the rational it denotes) or infinite. *)

Inductive float_value :=
| Finite (q : Q)
| Infinite (negative : bool).

(** The nearest integer, ties to the even one. *)
Definition round_half_even (q : Q) : Z :=
  let f := Qfloor q in
  match Qcompare (q - inject_Z f) (1 # 2) with
  | Lt => f
  | Gt => f + 1
  | Eq => if Z.even f then f else f + 1
  end.

(** [floor(log2 q)] of a positive rational. *)
Definition floor_log2 (q : Q) : Z :=
  let e := Z.log2 (Qnum q) - Z.log2 (Z.pos (Qden q)) in
  if Qle_bool (Qpower 2 e) q then e else e - 1.

(** Rounding to the nearest double. *)
Definition round_to_double (q : Q) : float_value :=
  if Qeq_bool q 0 then Finite 0
  else
    let a := Qabs q in
    let e := Z.max (floor_log2 a - 52) (-1074) in
    let m := round_half_even (a / Qpower 2 e) in
    let r := Qred (inject_Z m * Qpower 2 e) in
    if Qle_bool (Qpower 2 1024) r then Infinite (negb (Qle_bool 0 q))
    else Finite (if Qle_bool 0 q then r else - r)%Q.

(** [x / y] on floats: a zero divisor raises [ZeroDivisionError]. *)
Definition float_truediv (x y : Q) : result float_value :=
  if Qeq_bool y 0 then Raise ZeroDivisionError
  else Ok (round_to_double (x / y)).

(** [int(x)] on the result of a float operation: an infinite float raises
    [OverflowError]. *)
Definition int_of_float_value (x : float_value) : result Z :=
  match x with
  | Finite q => Ok (int_of_float q)
  | Infinite _ => Raise OverflowError
  end.

(** ** constraint_builder.py *)

Module ConstraintBuilder.

(** The constraint dicts, by their ['type']: [max_hearings_per_day],
    [max_hearings_per_judge], [priority_deadline], [minimum_gap],
    [working_hours_limit], [judge_specialization], [no_weekends],
    [holiday_exclusion], [balanced_workload].  The ['description'] string is
    a function of the other fields. *)
Inductive Constraint :=
| MaxHearingsPerDay (value : Z)
| MaxHearingsPerJudge (value : Z)
| PriorityDeadline (priority_threshold : Q) (max_days : Z)
| MinimumGap (case_type : string) (min_days : Z)
| WorkingHoursLimit (max_hours avg_duration : Q) (max_hearings_derived : Z)
| JudgeSpecialization (judge : Z) (case_types : list string)
| NoWeekends
| HolidayExclusion (holidays : list Z)
| BalancedWorkload (tolerance : Q).

Record t := { constraints : list Constraint }.

(** [ConstraintBuilder()]. *)
Definition init : t := {| constraints := [] |}.

Definition append (self : t) (constraint : Constraint) : t :=
  {| constraints := constraints self ++ [constraint] |}.

Definition add_max_hearings_per_day (self : t) (max_hearings : Z) : t :=
  append self (MaxHearingsPerDay max_hearings).

Definition add_max_hearings_per_judge (self : t) (max_hearings : Z) : t :=
  append self (MaxHearingsPerJudge max_hearings).

Definition add_priority_deadline (self : t) (priority_threshold : Q)
    (max_days : Z) : t :=
  append self (PriorityDeadline priority_threshold max_days).

Definition add_minimum_gap_between_hearings (self : t) (case_type : string)
    (min_days : Z) : t :=
  append self (MinimumGap case_type min_days).

(** [max_hearings = int(max_hours / avg_hearing_duration)]: the float
    division raises [ZeroDivisionError] on a zero divisor and [int] raises
    [OverflowError] on an infinite quotient; nothing else is checked. *)
Definition add_working_hours_limit (self : t)
    (max_hours avg_hearing_duration : Q) : result t :=
  let! quotient := float_truediv max_hours avg_hearing_duration in
  let! max_hearings := int_of_float_value quotient in
  Ok (append self
        (WorkingHoursLimit max_hours avg_hearing_duration max_hearings)).

Definition add_judge_specialization (self : t) (judge : Z)
    (case_types : list string) : t :=
  append self (JudgeSpecialization judge case_types).

Definition add_no_weekend_scheduling (self : t) : t :=
  append self NoWeekends.

Definition add_holiday_exclusion (self : t) (holidays : list Z) : t :=
  append self (HolidayExclusion holidays).

Definition add_balanced_workload (self : t) (tolerance : Q) : t :=
  append self (BalancedWorkload tolerance).

Definition get_constraints (self : t) : list Constraint := constraints self.

(** The violation messages, one constructor for each f-string, with the
    values the string interpolates. *)
Inductive Violation :=
| DayOverLimit (date count max_allowed : Z)
| JudgeOverLimit (judge date count max_allowed : Z)
| BeyondDeadline (case_number : string) (priority : Q) (max_days : Z)
| OnWeekend (case_number : string) (date : Z)
| OnHoliday (case_number : string) (date : Z).

Definition _validate_max_hearings_per_day (schedule_df : ScheduleDF)
    (max_allowed : Z) : result (list Violation) :=
  let! dates := column schedule_df "hearing_date" hearing_date in
  let daily_counts := groupby_size Z.le dates in
  Ok (daily_counts ≫= (λ '(date, count),
        if bool_decide (max_allowed < count)
        then [DayOverLimit date count max_allowed]
        else [])).

Definition _validate_max_hearings_per_judge (schedule_df : ScheduleDF)
    (max_allowed : Z) : result (list Violation) :=
  let! judges := column schedule_df "judge_id" h_judge_id in
  let! dates := column schedule_df "hearing_date" hearing_date in
  let judge_daily_counts := groupby_size pair_le (zip judges dates) in
  Ok (judge_daily_counts ≫= (λ '((judge, date), count),
        if bool_decide (max_allowed < count)
        then [JudgeOverLimit judge date count max_allowed]
        else [])).

(** [today] is [datetime.now().date()]. *)
Definition _validate_priority_deadline (today : Z) (schedule_df : ScheduleDF)
    (threshold : Q) (max_days : Z) : result (list Violation) :=
  if negb (has_column schedule_df "priority_score")
  then Ok []
  else
    let deadline := today + max_days in
    let high_priority :=
      filter (λ row, Qle_bool threshold (h_priority_score row))
        (rows schedule_df) in
    for_each (λ violations row,
        let! date := row_get schedule_df "hearing_date" hearing_date row in
        if bool_decide (deadline < date)
        then
          let! number :=
            row_get schedule_df "case_number" h_case_number row in
          let! priority :=
            row_get schedule_df "priority_score" h_priority_score row in
          Ok (violations ++ [BeyondDeadline number priority max_days])
        else Ok violations)
      high_priority [].

Definition _validate_no_weekends (schedule_df : ScheduleDF)
  : result (list Violation) :=
  for_each (λ violations row,
      let! date := row_get schedule_df "hearing_date" hearing_date row in
      if bool_decide (5 ≤ weekday date)
      then
        let! number := row_get schedule_df "case_number" h_case_number row in
        Ok (violations ++ [OnWeekend number date])
      else Ok violations)
    (rows schedule_df) [].

Definition _validate_holiday_exclusion (schedule_df : ScheduleDF)
    (holidays : list Z) : result (list Violation) :=
  for_each (λ violations row,
      let! date := row_get schedule_df "hearing_date" hearing_date row in
      if bool_decide (date ∈ holidays)
      then
        let! number := row_get schedule_df "case_number" h_case_number row in
        Ok (violations ++ [OnHoliday number date])
      else Ok violations)
    (rows schedule_df) [].

(** The body of [for constraint in self.constraints]: the [if]/[elif] chain
    has no [else]. *)
Definition validate_constraint (today : Z) (schedule_df : ScheduleDF)
    (violations : list Violation) (constraint : Constraint)
  : result (list Violation) :=
  match constraint with
  | MaxHearingsPerDay value =>
      let! found := _validate_max_hearings_per_day schedule_df value in
      Ok (violations ++ found)
  | MaxHearingsPerJudge value =>
      let! found := _validate_max_hearings_per_judge schedule_df value in
      Ok (violations ++ found)
  | PriorityDeadline threshold max_days =>
      let! found :=
        _validate_priority_deadline today schedule_df threshold max_days in
      Ok (violations ++ found)
  | NoWeekends =>
      let! found := _validate_no_weekends schedule_df in
      Ok (violations ++ found)
  | HolidayExclusion holidays =>
      let! found := _validate_holiday_exclusion schedule_df holidays in
      Ok (violations ++ found)
  | MinimumGap _ _ | WorkingHoursLimit _ _ _ | JudgeSpecialization _ _
  | BalancedWorkload _ => Ok violations
  end.

(** [validate_schedule]: [(is_valid, violations)]. *)
Definition validate_schedule (today : Z) (self : t)
    (schedule_df : ScheduleDF) (judges_df : list Judge)
  : result (bool * list Violation) :=
  let! violations :=
    for_each (validate_constraint today schedule_df) (constraints self) [] in
  let is_valid := bool_decide (len violations = 0) in
  Ok (is_valid, violations).

(** [create_default_constraints]. *)
Definition create_default_constraints : result t :=
  let builder := init in
  let builder := add_max_hearings_per_day builder 20 in
  let builder := add_max_hearings_per_judge builder 15 in
  let! builder := add_working_hours_limit builder 6 (1 # 2) in
  let builder := add_priority_deadline builder 75 7 in
  let builder := add_no_weekend_scheduling builder in
  Ok (add_balanced_workload builder (1 # 4)).

(** The rules [validate_schedule] has no branch for. *)
Definition unchecked (constraint : Constraint) : bool :=
  match constraint with
  | MinimumGap _ _ | WorkingHoursLimit _ _ _ | JudgeSpecialization _ _
  | BalancedWorkload _ => true
  | _ => false
  end.

End ConstraintBuilder.

(** ** optimization_utils.py *)

Module OptimizationUtils.

(** The floating-point operations of [calculate_efficiency], left
    uninterpreted: division of two integers, multiplication by an integer,
    [round(x, 2)], and the pandas and numpy statistics. *)
Record Floats := {
  float : Type;
  truediv : Z → Z → float;
  times : float → Z → float;
  round2 : float → float;
  std : list Z → float;
  mean : list Z → float;
  mean_float : list Q → float
}.

(** A metric is the integer [0] of a guard or a rounded float. *)
Inductive metric (F : Floats) :=
| MInt (z : Z)
| MFloat (x : float F).
Arguments MInt {F} z.
Arguments MFloat {F} x.

Section Efficiency.

Variable F : Floats.

(** [datetime.now().date()]. *)
Variable today : Z.

Definition percentage (a b : Z) : metric F :=
  MFloat (round2 F (times F (truediv F a b) 100)).

(** The part of [calculate_efficiency] under
    [if 'priority_score' in schedule_df.columns]. *)
Definition priority_metrics (schedule_df : ScheduleDF) (cases_df : CasesDF)
    (metrics : gmap string (metric F)) : result (gmap string (metric F)) :=
  if has_column schedule_df "priority_score"
  then
    let! priorities :=
      column schedule_df "priority_score" h_priority_score in
    let metrics :=
      <["avg_priority_scheduled" :=
          MFloat (round2 F (mean_float F priorities))]> metrics in
    let high_priority_scheduled :=
      len (filter (λ p, Qle_bool 70 p) priorities) in
    if has_priority_score cases_df
    then
      let high_priority_total :=
        len (filter (λ c, Qle_bool 70 (priority_score c))
               (case_rows cases_df)) in
      if bool_decide (0 < high_priority_total)
      then Ok (<["high_priority_coverage" :=
                   percentage high_priority_scheduled high_priority_total]>
                 metrics)
      else Ok metrics
    else Ok metrics
  else Ok metrics.

(** The part under [if 'hearing_date' in schedule_df.columns]. *)
Definition lead_time_metrics (schedule_df : ScheduleDF)
    (metrics : gmap string (metric F)) : result (gmap string (metric F)) :=
  if has_column schedule_df "hearing_date"
  then
    let! case_ids := column schedule_df "case_id" h_case_id in
    let! dates := column schedule_df "hearing_date" hearing_date in
    let earliest_hearings := groupby_min (zip case_ids dates) in
    let days_to_hearing := (λ kv, kv.2 - today) <$> earliest_hearings in
    Ok (<["avg_days_to_hearing" :=
            match days_to_hearing with
            | [] => MInt 0
            | _ => MFloat (round2 F (mean F days_to_hearing))
            end]> metrics)
  else Ok metrics.

(** [calculate_efficiency]. *)
Definition calculate_efficiency (schedule_df : ScheduleDF)
    (cases_df : CasesDF) (judges_df : list Judge)
  : result (gmap string (metric F)) :=
  let metrics : gmap string (metric F) := ∅ in
  let total_cases := len (case_rows cases_df) in
  let! case_ids := column schedule_df "case_id" h_case_id in
  let scheduled_cases := nunique case_ids in
  let metrics :=
    <["coverage_rate" :=
        if bool_decide (0 < total_cases)
        then percentage scheduled_cases total_cases
        else MInt 0]> metrics in
  let total_judges := len judges_df in
  let! judge_ids := column schedule_df "judge_id" h_judge_id in
  let judges_assigned := nunique judge_ids in
  let metrics :=
    <["judge_utilization" :=
        if bool_decide (0 < total_judges)
        then percentage judges_assigned total_judges
        else MInt 0]> metrics in
  let! dates := column schedule_df "hearing_date" hearing_date in
  let days_scheduled := nunique dates in
  let metrics :=
    <["avg_hearings_per_day" :=
        if bool_decide (0 < days_scheduled)
        then MFloat (round2 F
               (truediv F (len (rows schedule_df)) days_scheduled))
        else MInt 0]> metrics in
  let hearings_per_judge := snd <$> groupby_size Z.le judge_ids in
  let metrics :=
    <["workload_std_dev" :=
        if bool_decide (0 < len hearings_per_judge)
        then MFloat (round2 F (std F hearings_per_judge))
        else MInt 0]> metrics in
  let metrics :=
    <["avg_hearings_per_judge" :=
        if bool_decide (0 < len hearings_per_judge)
        then MFloat (round2 F (mean F hearings_per_judge))
        else MInt 0]> metrics in
  let! metrics := priority_metrics schedule_df cases_df metrics in
  let! metrics := lead_time_metrics schedule_df metrics in
  if has_column schedule_df "hearing_date" && bool_decide (0 < days_scheduled)
  then
    let capacity_per_day := 20 in
    let total_capacity := days_scheduled * capacity_per_day in
    Ok (<["slot_utilization" :=
            percentage (len (rows schedule_df)) total_capacity]> metrics)
  else Ok metrics.

End Efficiency.

End OptimizationUtils.

(** Two cases of equal priority. *)
Definition two_ties : CasesDF :=
  {| has_priority_score := true;
     case_rows := [case_of 1 "C-1" 50; case_of 2 "C-2" 50]%Q |}.

(** The row [c] with its priority replaced. *)
Definition with_priority (c : Case) (p : Q) : Case :=
  {| case_id := case_id c; case_number := case_number c;
     priority_score := p |}.

(** The hearing of case [i] in a schedule, and its day index. *)
Definition hearing_of_case (i : Z) (schedule_df : ScheduleDF)
  : option Hearing :=
  head (filter (λ h, h_case_id h = i) (rows schedule_df)).

Definition day_index (start_date : Z) (i : Z) (schedule_df : ScheduleDF)
  : option Z :=
  (λ h, hearing_date h - start_date) <$> hearing_of_case i schedule_df.

(** The load of a schedule is what the counters record: the number of
    hearings of each day and of each judge and day. *)
Definition lighter (s s' : list Hearing) : Prop :=
  (∀ d, count_date d s ≤ count_date d s')
  ∧ (∀ j d, count_judge_date j d s ≤ count_judge_date j d s').

Definition same_load (s s' : list Hearing) : Prop :=
  (∀ d, count_date d s = count_date d s')
  ∧ (∀ j d, count_judge_date j d s = count_judge_date j d s').

(** One hearing per judge and day. *)
Definition one_per_judge : HearingScheduler :=
  {| max_hearings_per_day := 20; max_hearings_per_judge := 1;
     working_hours_per_day := 6; avg_hearing_duration := (1 # 2)%Q |}.

(** One hearing per day for the whole court. *)
Definition one_per_day : HearingScheduler :=
  {| max_hearings_per_day := 1; max_hearings_per_judge := 15;
     working_hours_per_day := 6; avg_hearing_duration := (1 # 2)%Q |}.

(** A day on which the heuristic can book nothing more: the court is at
    [max_hearings_per_day], or every judge of [judges] is at
    [max_hearings_per_judge]. *)
Definition day_full (self : HearingScheduler) (judges : list Judge)
    (sched : list Hearing) (d : Z) : Prop :=
  max_hearings_per_day self ≤ count_date d sched
  ∨ ∀ j, j ∈ judges →
         max_hearings_per_judge self
         ≤ count_judge_date (judge_id j) d sched.

(** What one rule contributes to the violations. *)
Definition rule_violations (today : Z) (schedule_df : ScheduleDF)
    (constraint : ConstraintBuilder.Constraint)
  : result (list ConstraintBuilder.Violation) :=
  match constraint with
  | ConstraintBuilder.MaxHearingsPerDay value =>
      ConstraintBuilder._validate_max_hearings_per_day schedule_df value
  | ConstraintBuilder.MaxHearingsPerJudge value =>
      ConstraintBuilder._validate_max_hearings_per_judge schedule_df value
  | ConstraintBuilder.PriorityDeadline threshold max_days =>
      ConstraintBuilder._validate_priority_deadline today schedule_df
        threshold max_days
  | ConstraintBuilder.NoWeekends =>
      ConstraintBuilder._validate_no_weekends schedule_df
  | ConstraintBuilder.HolidayExclusion holidays =>
      ConstraintBuilder._validate_holiday_exclusion schedule_df holidays
  | _ => Ok []
  end.

(** The rows the extraction loops append, in their order. *)
Definition solution_rows (self : HearingScheduler) (cases_df : CasesDF)
    (judges_df : list Judge) (start_date num_days : Z)
    (value : BoolVar → Z) : list Hearing :=
  range (len (case_rows cases_df)) ≫= (λ c,
    range (len judges_df) ≫= (λ j,
      range num_days ≫= (λ d,
        picked self cases_df judges_df start_date value (c, j, d)))).

(** ** optimization_utils.py: the other functions *)

Module Utils.

(** The issue messages of [validate_schedule], one constructor for each
    string, with the values it interpolates.  The set of missing columns is
    kept as a list without duplicates (the order in which Python prints a
    set is not specified). *)
Inductive Issue :=
| ScheduleIsEmpty
| MissingRequiredColumns (missing : list string)
| NullValues (col : string) (null_count : Z)
| DuplicateAssignments (dup_count : Z)
| PastHearings (count : Z)
| BeyondOneYear (max_date : Z).

Definition default_required_columns : list string :=
  ["case_id"; "judge_id"; "hearing_date"; "case_number"; "judge_name"]%string.

(** [schedule_df.empty]: one of the two axes has length 0. *)
Definition empty (df : ScheduleDF) : bool :=
  bool_decide (rows df = []) || bool_decide (columns df = []).

(** [schedule_df[col].isnull().sum()].  The schedule frames of this
    development are built from complete rows ([pd.DataFrame(schedule)] in
    both schedulers): no cell of theirs is null. *)
Definition isnull_sum (df : ScheduleDF) (col : string) : Z := 0.

(** [schedule_df.duplicated(subset=['case_id', 'hearing_date'], keep=False)]:
    the rows whose (case, date) pair occurs more than once. *)
Definition duplicated (df : ScheduleDF) : list Hearing :=
  let keys := (λ h, (h_case_id h, hearing_date h)) <$> rows df in
  filter (λ h, (1 < length (filter (λ k, k = (h_case_id h, hearing_date h))
                              keys))%nat)
    (rows df).

(** [Series.max()] of a column that is not empty. *)
Definition series_max (l : list Z) : Z :=
  foldr Z.max (default 0 (head l)) l.

(** [validate_schedule(schedule_df, required_columns)]; [today] is
    [datetime.now().date()]. *)
Definition validate_schedule (today : Z) (schedule_df : ScheduleDF)
    (required_columns : option (list string)) : bool * list Issue :=
  let required_columns := default default_required_columns required_columns in
  if empty schedule_df
  then (false, [ScheduleIsEmpty])
  else
    let issues : list Issue := [] in
    let missing_cols :=
      filter (λ c, c ∉ columns schedule_df) (remove_dups required_columns) in
    let issues :=
      match missing_cols with
      | [] => issues
      | _ => issues ++ [MissingRequiredColumns missing_cols]
      end in
    let issues :=
      foldl (λ issues col,
               if has_column schedule_df col
               then
                 let null_count := isnull_sum schedule_df col in
                 if bool_decide (0 < null_count)
                 then issues ++ [NullValues col null_count]
                 else issues
               else issues)
        issues ["case_id"; "judge_id"; "hearing_date"]%string in
    let issues :=
      if has_column schedule_df "case_id"
         && has_column schedule_df "hearing_date"
      then
        match duplicated schedule_df with
        | [] => issues
        | duplicates => issues ++ [DuplicateAssignments (len duplicates)]
        end
      else issues in
    let issues :=
      if has_column schedule_df "hearing_date"
      then
        match filter (λ h, hearing_date h < today) (rows schedule_df) with
        | [] => issues
        | past_dates => issues ++ [PastHearings (len past_dates)]
        end
      else issues in
    let issues :=
      if has_column schedule_df "hearing_date"
      then
        let max_date := series_max (hearing_date <$> rows schedule_df) in
        let one_year_out := today + 365 in
        if bool_decide (one_year_out < max_date)
        then issues ++ [BeyondOneYear max_date]
        else issues
      else issues in
    let is_valid := bool_decide (len issues = 0) in
    (is_valid, issues).

(** The floating-point operations on pandas Series, left uninterpreted:
    element-wise division of integers, multiplication by an integer,
    [Series.round(2)], comparison with an integer and the mean of a group
    of floats. *)
Record SeriesFloats := {
  sfloat : Type;
  series_div : Z → Z → sfloat;
  series_times : sfloat → Z → sfloat;
  series_round2 : sfloat → sfloat;
  series_lt : sfloat → Z → bool;
  group_mean : list Q → sfloat
}.

(** A row of the frame [analyze_workload_distribution] returns. *)
Record WorkloadRow (F : SeriesFloats) := {
  w_judge_id : Z;
  w_judge_name : string;
  total_hearings : Z;
  days_scheduled : Z;
  avg_hearings_per_day : sfloat F;
  avg_priority : option (sfloat F)
}.
Arguments w_judge_id {F} _.
Arguments w_judge_name {F} _.
Arguments total_hearings {F} _.
Arguments days_scheduled {F} _.
Arguments avg_hearings_per_day {F} _.
Arguments avg_priority {F} _.

(** The order of the group keys [(judge_id, judge_name)]. *)
Definition judge_key_le (a b : Z * string) : Prop :=
  a.1 < b.1 ∨ (a.1 = b.1 ∧ String.leb a.2 b.2 = true).

Global Instance judge_key_le_dec a b : Decision (judge_key_le a b).
Proof. unfold judge_key_le. apply _. Defined.

Section Workload.

Variable F : SeriesFloats.

(** [workload.sort_values('total_hearings', ascending=False)], with the
    default sort kind. *)
Variable sort_workload : list (WorkloadRow F) → list (WorkloadRow F).

(** The row of one group of [groupby(['judge_id', 'judge_name'])]. *)
Definition workload_row (schedule_df : ScheduleDF) (key : Z * string)
  : WorkloadRow F :=
  let group :=
    filter (λ h, (h_judge_id h, h_judge_name h) = key) (rows schedule_df) in
  let total := len group in
  let days := nunique (hearing_date <$> group) in
  {| w_judge_id := key.1;
     w_judge_name := key.2;
     total_hearings := total;
     days_scheduled := days;
     avg_hearings_per_day := series_round2 F (series_div F total days);
     avg_priority :=
       if has_column schedule_df "priority_score"
       then Some (series_round2 F
                    (group_mean F
                       (h_priority_score
                          <$> filter (λ h, h_judge_id h = key.1)
                                (rows schedule_df))))
       else None |}.

(** [analyze_workload_distribution]; the empty list stands for
    [pd.DataFrame()].  A missing aggregated column raises [KeyError] (pandas
    names every missing column in the message; the first one is kept). *)
Definition analyze_workload_distribution (schedule_df : ScheduleDF)
  : result (list (WorkloadRow F)) :=
  if empty schedule_df || negb (has_column schedule_df "judge_id")
  then Ok []
  else
    let! judge_ids := column schedule_df "judge_id" h_judge_id in
    let! judge_names := column schedule_df "judge_name" h_judge_name in
    let! _case_ids := column schedule_df "case_id" h_case_id in
    let! _dates := column schedule_df "hearing_date" hearing_date in
    let keys :=
      merge_sort judge_key_le (remove_dups (zip judge_ids judge_names)) in
    let workload := workload_row schedule_df <$> keys in
    Ok (sort_workload workload).

End Workload.

(** A row of the frame [identify_scheduling_gaps] returns. *)
Record GapRow (F : SeriesFloats) := {
  g_date : Z;
  hearings_scheduled : Z;
  utilization_pct : sfloat F;
  is_underutilized : bool;
  day_of_week : string
}.
Arguments g_date {F} _.
Arguments hearings_scheduled {F} _.
Arguments utilization_pct {F} _.
Arguments is_underutilized {F} _.
Arguments day_of_week {F} _.

(** [Timestamp.day_name()]. *)
Definition day_name (d : Z) : string :=
  match weekday d with
  | 0 => "Monday" | 1 => "Tuesday" | 2 => "Wednesday" | 3 => "Thursday"
  | 4 => "Friday" | 5 => "Saturday" | _ => "Sunday"
  end.

(** [pd.date_range(start, end, freq='D')] without its weekends. *)
Definition weekdays_between (start_date end_date : Z) : list Z :=
  filter (λ d, weekday d < 5) (seqZ start_date (end_date - start_date + 1)).

(** [daily_counts.get(d, 0)]. *)
Definition daily_count (schedule_df : ScheduleDF) (d : Z) : Z :=
  if negb (empty schedule_df) && has_column schedule_df "hearing_date"
  then
    default 0
      (snd <$> head (filter (λ kv, kv.1 = d)
                       (groupby_size Z.le (hearing_date <$> rows schedule_df))))
  else 0.

(** [identify_scheduling_gaps]. *)
Definition identify_scheduling_gaps (F : SeriesFloats)
    (schedule_df : ScheduleDF) (start_date end_date : Z)
  : list (GapRow F) :=
  (λ d,
     let hearings := daily_count schedule_df d in
     let pct :=
       series_round2 F (series_times F (series_div F hearings 20) 100) in
     {| g_date := d;
        hearings_scheduled := hearings;
        utilization_pct := pct;
        is_underutilized := series_lt F pct 50;
        day_of_week := day_name d |})
    <$> weekdays_between start_date end_date.

End Utils.

(** ** scheduler.py: [generate_optimal_schedule] *)

(** The rows of the two database queries. *)
Record PendingCase := {
  pc_case_id : Z;
  pc_case_number : string;
  pc_case_type : option string;
  pc_priority_score : option Q;
  pc_court_id : Z;
  pc_court_code : string
}.

Record ActiveJudge := {
  aj_judge_id : Z;
  aj_judge_name : string;
  aj_designation : option string;
  aj_court_code : string
}.

(** [c.priority_score or 50]: [None] and [0.0] are falsy. *)
Definition priority_or_50 (p : option Q) : Q :=
  match p with
  | Some q => if Qeq_bool q 0 then 50%Q else q
  | None => 50%Q
  end.

(** The frames built from the query rows; the columns the schedulers do not
    read ([case_type], [court_id], [court_code], [designation]) are left
    out. *)
Definition cases_frame (cases : list PendingCase) : CasesDF :=
  {| has_priority_score := true;
     case_rows :=
       (λ c, {| case_id := pc_case_id c;
                case_number := pc_case_number c;
                priority_score := priority_or_50 (pc_priority_score c) |})
         <$> cases |}.

Definition judges_frame (judges : list ActiveJudge) : list Judge :=
  (λ j, {| judge_id := aj_judge_id j; judge_name := aj_judge_name j |})
    <$> judges.

Section Generate.

Variable sort_values : list Case → list Case.
Variable ORTOOLS_AVAILABLE : bool.
Variable Solve : CpModel → CpSolverStatus * (BoolVar → Z).

(** [generate_optimal_schedule] once the session is open: [cases] and
    [judges] are what the two queries return (pending cases and active
    judges of the court asked for), [tomorrow] is
    [(datetime.now() + timedelta(days=1)).date()]. *)
Definition generate_optimal_schedule (tomorrow : Z)
    (cases : list PendingCase) (judges : list ActiveJudge)
    (start_date : option Z) (num_days : Z) (use_optimization : bool)
  : result ScheduleDF :=
  let start_date := default tomorrow start_date in
  match cases with
  | [] => Ok (DataFrame [])
  | _ =>
      let cases_df := cases_frame cases in
      match judges with
      | [] => Ok (DataFrame [])
      | _ =>
          let judges_df := judges_frame judges in
          let! scheduler := HearingScheduler_default in
          if use_optimization && ORTOOLS_AVAILABLE
          then schedule_hearings_optimized sort_values ORTOOLS_AVAILABLE
                 Solve scheduler cases_df judges_df start_date num_days
          else schedule_hearings_heuristic sort_values scheduler cases_df
                 judges_df start_date num_days
      end
  end.

End Generate.

(** What every row of a schedule carries, whichever scheduler wrote it: a
    case of [cases_df] and a judge of [judges_df] on a day of the horizon. *)
Definition row_of_inputs (self : HearingScheduler) (cases_df : CasesDF)
    (judges_df : list Judge) (start_date num_days : Z) (h : Hearing)
  : Prop :=
  ∃ c j, c ∈ case_rows cases_df ∧ j ∈ judges_df
         ∧ h = booking self cases_df c (hearing_date h) j
         ∧ start_date ≤ hearing_date h < start_date + num_days.

(** Exact rational arithmetic as a model of the Series operations, for the
    examples. *)
Definition exact_series : Utils.SeriesFloats :=
  {| Utils.sfloat := Q;
     Utils.series_div := λ a b, (inject_Z a / inject_Z b)%Q;
     Utils.series_times := λ x n, (x * inject_Z n)%Q;
     Utils.series_round2 := λ x, x;
     Utils.series_lt := λ x n, negb (Qle_bool (inject_Z n) x);
     Utils.group_mean :=
       λ l, (foldr Qplus 0 l / inject_Z (len l))%Q |}.

(** Query rows for the examples: a case without priority, a case with
    priority zero and a case with priority 80, and one active judge. *)
Definition pending_cases : list PendingCase :=
  [ {| pc_case_id := 1; pc_case_number := "P-1"; pc_case_type := None;
       pc_priority_score := None; pc_court_id := 1;
       pc_court_code := "DL" |};
    {| pc_case_id := 2; pc_case_number := "P-2";
       pc_case_type := Some "civil"; pc_priority_score := Some 0%Q;
       pc_court_id := 1; pc_court_code := "DL" |};
    {| pc_case_id := 3; pc_case_number := "P-3";
       pc_case_type := Some "criminal"; pc_priority_score := Some 80%Q;
       pc_court_id := 1; pc_court_code := "DL" |} ]%string.

Definition active_judges : list ActiveJudge :=
  [ {| aj_judge_id := 1; aj_judge_name := "A"; aj_designation := None;
       aj_court_code := "DL" |} ]%string.

(** A schedule frame of two hearings on the same Monday. *)
Definition two_hearings : ScheduleDF :=
  DataFrame
    [booking two_per_judge three_cases (case_of 1 "C-1" 90) monday judge_A;
     booking two_per_judge three_cases (case_of 2 "C-2" 70) monday judge_B].

(** ** The schedulers with the exceptions of the judges frame and of the
    calendar

    The definitions above take [judges_df] as the list of its rows and a
    date as an unbounded ordinal: they describe the runs in which every
    column lookup on [judges_df] and every date addition succeeds.  The
    definitions of this module follow the same lines of the source with
    these two sources of exceptions made explicit: [judges_df] carries its
    column list ([pd.DataFrame([])] has none), and [date + timedelta] raises
    [OverflowError] outside [date.min .. date.max]. *)

Module Strict.

(** [date.max.toordinal()]; [date.min.toordinal()] is 1. *)
Definition MAXORDINAL : Z := 3652059.

(** [timedelta(days=i)]: the magnitude is limited to 999999999 days. *)
Definition timedelta (days : Z) : result Z :=
  if bool_decide (-999999999 ≤ days ≤ 999999999)
  then Ok days
  else Raise OverflowError.

(** [d + timedelta(days=i)]: the sum must be a date of the calendar. *)
Definition date_add (d i : Z) : result Z :=
  let! delta := timedelta i in
  if bool_decide (1 ≤ d + delta ≤ MAXORDINAL)
  then Ok (d + delta)
  else Raise OverflowError.

(** The horizon [start_date, start_date + num_days) lies in the calendar. *)
Definition in_calendar (start_date num_days : Z) : Prop :=
  num_days ≤ 0 ∨ (1 ≤ start_date ∧ start_date + num_days - 1 ≤ MAXORDINAL).

(** [judges_df] with its columns.  A field of a row is meaningful only when
    its column is listed. *)
Record JudgesDF := {
  judge_columns : list string;
  judge_rows : list Judge
}.

(** [pd.DataFrame(judges)] on a list of dicts with the keys [judge_id] and
    [judge_name]: no column for the empty list. *)
Definition judges_DataFrame (judges : list Judge) : JudgesDF :=
  match judges with
  | [] => {| judge_columns := []; judge_rows := [] |}
  | _ => {| judge_columns := ["judge_id"; "judge_name"]%string;
            judge_rows := judges |}
  end.

Definition has_judge_column (judges_df : JudgesDF) (name : string) : bool :=
  bool_decide (name ∈ judge_columns judges_df).

(** [judges_df['name']]. *)
Definition judges_column {A} (judges_df : JudgesDF) (name : string)
    (field : Judge → A) : result (list A) :=
  if has_judge_column judges_df name
  then Ok (field <$> judge_rows judges_df)
  else Raise (KeyError name).

(** [judge_row['name']] for a row of [judges_df]. *)
Definition judge_get {A} (judges_df : JudgesDF) (name : string)
    (field : Judge → A) (judge_row : Judge) : result A :=
  if has_judge_column judges_df name
  then Ok (field judge_row)
  else Raise (KeyError name).

(** [{current_date + timedelta(days=i): 0 for i in range(num_days)}] *)
Definition init_daily_hearings (start_date num_days : Z)
  : result (gmap Z Z) :=
  let! dates :=
    for_each (λ dates i,
                let! date := date_add start_date i in Ok (dates ++ [date]))
      (range num_days) [] in
  Ok (list_to_map ((λ date, (date, 0)) <$> dates)).

(** [{(judge_id, current_date + timedelta(days=i)): 0
      for judge_id in judges_df['judge_id'] for i in range(num_days)}] *)
Definition init_judge_daily_hearings (judges_df : JudgesDF)
    (start_date num_days : Z) : result (gmap (Z * Z) Z) :=
  let! judge_ids := judges_column judges_df "judge_id" judge_id in
  let! keys :=
    for_each (λ keys jid,
                for_each (λ keys i,
                            let! date := date_add start_date i in
                            Ok (keys ++ [(jid, date)]))
                  (range num_days) keys)
      judge_ids [] in
  Ok (list_to_map ((λ key, (key, 0)) <$> keys)).

Section Heuristic.

Variable sort_values : list Case → list Case.
Variable self : HearingScheduler.

(** The inner loop [for _, judge_row in judges_df.iterrows()]. *)
Fixpoint try_judges (judges_df : JudgesDF) (hearing_date : Z)
    (jdh : gmap (Z * Z) Z) (judges : list Judge) : result (option Judge) :=
  match judges with
  | [] => Ok None
  | judge_row :: rest =>
      let! judge_id := judge_get judges_df "judge_id" judge_id judge_row in
      let judge_key := (judge_id, hearing_date) in
      let! n := dict_get "judge_daily_hearings" jdh judge_key in
      if bool_decide (n < max_hearings_per_judge self)
      then Ok (Some judge_row)
      else try_judges judges_df hearing_date jdh rest
  end.

(** The loop [for day_offset in range(num_days)] for one case. *)
Fixpoint try_days (cases_df : CasesDF) (judges_df : JudgesDF)
    (start_date : Z) (case_row : Case) (st : LoopState)
    (offsets : list Z) : result (option LoopState) :=
  match offsets with
  | [] => Ok None
  | day_offset :: rest =>
      let! hearing_date := date_add start_date day_offset in
      if bool_decide (5 ≤ weekday hearing_date)
      then try_days cases_df judges_df start_date case_row st rest
      else
        let! n := dict_get "daily_hearings" (daily_hearings st) hearing_date in
        if bool_decide (max_hearings_per_day self ≤ n)
        then try_days cases_df judges_df start_date case_row st rest
        else
          let! r := try_judges judges_df hearing_date
                      (judge_daily_hearings st) (judge_rows judges_df) in
          match r with
          | Some judge_row =>
              let! judge_id :=
                judge_get judges_df "judge_id" judge_id judge_row in
              let judge_key := (judge_id, hearing_date) in
              let! name :=
                judge_get judges_df "judge_name" judge_name judge_row in
              let h := {| h_case_id := case_id case_row;
                          h_case_number := case_number case_row;
                          h_judge_id := judge_id;
                          h_judge_name := name;
                          hearing_date := hearing_date;
                          h_priority_score :=
                            get_priority_score cases_df case_row;
                          estimated_duration_hours :=
                            avg_hearing_duration self |} in
              let! dh := dict_incr "daily_hearings" (daily_hearings st)
                           hearing_date in
              let! jdh := dict_incr "judge_daily_hearings"
                            (judge_daily_hearings st) judge_key in
              Ok (Some {| schedule := schedule st ++ [h];
                          daily_hearings := dh;
                          judge_daily_hearings := jdh;
                          warnings := warnings st |})
          | None =>
              try_days cases_df judges_df start_date case_row st rest
          end
  end.

(** The body of [for idx, case_row in cases_df.iterrows()]. *)
Definition schedule_case (cases_df : CasesDF) (judges_df : JudgesDF)
    (start_date num_days : Z) (st : LoopState) (case_row : Case)
  : result LoopState :=
  let! r := try_days cases_df judges_df start_date case_row st
              (range num_days) in
  match r with
  | Some st' => Ok st'
  | None =>
      Ok {| schedule := schedule st;
            daily_hearings := daily_hearings st;
            judge_daily_hearings := judge_daily_hearings st;
            warnings := warnings st ++ [case_number case_row] |}
  end.

(** [schedule_hearings_heuristic] up to the end of its loop: the sort, the
    two counter dicts, then the cases. *)
Definition heuristic_loop (cases_df : CasesDF) (judges_df : JudgesDF)
    (start_date num_days : Z) : result LoopState :=
  let cases := processing_order sort_values cases_df in
  let! daily := init_daily_hearings start_date num_days in
  let! judge_daily :=
    init_judge_daily_hearings judges_df start_date num_days in
  let st := {| schedule := [];
               daily_hearings := daily;
               judge_daily_hearings := judge_daily;
               warnings := [] |} in
  for_each (schedule_case cases_df judges_df start_date num_days) cases st.

(** [schedule_hearings_heuristic]: the frame it returns. *)
Definition schedule_hearings_heuristic (cases_df : CasesDF)
    (judges_df : JudgesDF) (start_date num_days : Z) : result ScheduleDF :=
  let! st := heuristic_loop cases_df judges_df start_date num_days in
  Ok (DataFrame (schedule st)).

(** The ["Could not schedule case ..."] warnings of the same run. *)
Definition heuristic_warnings (cases_df : CasesDF) (judges_df : JudgesDF)
    (start_date num_days : Z) : result (list string) :=
  let! st := heuristic_loop cases_df judges_df start_date num_days in
  Ok (warnings st).

End Heuristic.

Section Optimized.

Variable sort_values : list Case → list Case.
Variable ORTOOLS_AVAILABLE : bool.
Variable Solve : CpModel → CpSolverStatus * (BoolVar → Z).
Variable self : HearingScheduler.

(** One step of the extraction loops. *)
Definition extract_one (cases_df : CasesDF) (judges_df : JudgesDF)
    (start_date : Z) (value : BoolVar → Z) (c j : Z)
    (schedule : list Hearing) (d : Z) : result (list Hearing) :=
  if bool_decide (value (c, j, d) = 1)
  then
    let! hearing_date := date_add start_date d in
    let! case_row := iloc (case_rows cases_df) c in
    let! judge_row := iloc (judge_rows judges_df) j in
    let! judge_id := judge_get judges_df "judge_id" judge_id judge_row in
    let! name := judge_get judges_df "judge_name" judge_name judge_row in
    Ok (schedule ++
          [{| h_case_id := case_id case_row;
              h_case_number := case_number case_row;
              h_judge_id := judge_id;
              h_judge_name := name;
              hearing_date := hearing_date;
              h_priority_score := get_priority_score cases_df case_row;
              estimated_duration_hours := avg_hearing_duration self |}])
  else Ok schedule.

(** The three nested loops that read the solution. *)
Definition extract_schedule (cases_df : CasesDF) (judges_df : JudgesDF)
    (start_date num_days : Z) (value : BoolVar → Z)
  : result (list Hearing) :=
  let num_cases := len (case_rows cases_df) in
  let num_judges := len (judge_rows judges_df) in
  for_each (λ schedule c,
    for_each (λ schedule j,
      for_each (extract_one cases_df judges_df start_date value c j)
        (range num_days) schedule)
      (range num_judges) schedule)
    (range num_cases) [].

(** [schedule_hearings_optimized]; the model reads [judges_df] through
    [len(judges_df)] only. *)
Definition schedule_hearings_optimized (cases_df : CasesDF)
    (judges_df : JudgesDF) (start_date num_days : Z) : result ScheduleDF :=
  if negb ORTOOLS_AVAILABLE
  then schedule_hearings_heuristic sort_values self cases_df judges_df
         start_date num_days
  else
    let! model :=
      build_model self cases_df (judge_rows judges_df) num_days in
    let '(status, value) := Solve model in
    if bool_decide (status ∈ [OPTIMAL; FEASIBLE])
    then
      let! schedule :=
        extract_schedule cases_df judges_df start_date num_days value in
      Ok (DataFrame schedule)
    else
      schedule_hearings_heuristic sort_values self cases_df judges_df
        start_date num_days.

End Optimized.

(** [generate_optimal_schedule] once the session is open, on the rows of
    its two queries. *)
Definition generate_optimal_schedule (sort_values : list Case → list Case)
    (ORTOOLS_AVAILABLE : bool)
    (Solve : CpModel → CpSolverStatus * (BoolVar → Z)) (tomorrow : Z)
    (cases : list PendingCase) (judges : list ActiveJudge)
    (start_date : option Z) (num_days : Z) (use_optimization : bool)
  : result ScheduleDF :=
  let start_date := default tomorrow start_date in
  match cases with
  | [] => Ok (DataFrame [])
  | _ =>
      let cases_df := cases_frame cases in
      match judges with
      | [] => Ok (DataFrame [])
      | _ =>
          let judges_df := judges_DataFrame (judges_frame judges) in
          let! scheduler := HearingScheduler_default in
          if use_optimization && ORTOOLS_AVAILABLE
          then schedule_hearings_optimized sort_values ORTOOLS_AVAILABLE
                 Solve scheduler cases_df judges_df start_date num_days
          else schedule_hearings_heuristic sort_values scheduler cases_df
                 judges_df start_date num_days
      end
  end.

(** [_validate_priority_deadline] with the date arithmetic of
    [deadline = today + timedelta(days=max_days)]. *)
Definition _validate_priority_deadline (today : Z) (schedule_df : ScheduleDF)
    (threshold : Q) (max_days : Z)
  : result (list ConstraintBuilder.Violation) :=
  if negb (has_column schedule_df "priority_score")
  then Ok []
  else
    let! deadline := date_add today max_days in
    let high_priority :=
      filter (λ row, Qle_bool threshold (h_priority_score row))
        (rows schedule_df) in
    for_each (λ violations row,
        let! date := row_get schedule_df "hearing_date" hearing_date row in
        if bool_decide (deadline < date)
        then
          let! number :=
            row_get schedule_df "case_number" h_case_number row in
          let! priority :=
            row_get schedule_df "priority_score" h_priority_score row in
          Ok (violations
                ++ [ConstraintBuilder.BeyondDeadline number priority
                      max_days])
        else Ok violations)
      high_priority [].

(** The body of [for constraint in self.constraints]. *)
Definition validate_constraint (today : Z) (schedule_df : ScheduleDF)
    (violations : list ConstraintBuilder.Violation)
    (constraint : ConstraintBuilder.Constraint)
  : result (list ConstraintBuilder.Violation) :=
  match constraint with
  | ConstraintBuilder.MaxHearingsPerDay value =>
      let! found :=
        ConstraintBuilder._validate_max_hearings_per_day schedule_df value in
      Ok (violations ++ found)
  | ConstraintBuilder.MaxHearingsPerJudge value =>
      let! found :=
        ConstraintBuilder._validate_max_hearings_per_judge schedule_df
          value in
      Ok (violations ++ found)
  | ConstraintBuilder.PriorityDeadline threshold max_days =>
      let! found :=
        _validate_priority_deadline today schedule_df threshold max_days in
      Ok (violations ++ found)
  | ConstraintBuilder.NoWeekends =>
      let! found := ConstraintBuilder._validate_no_weekends schedule_df in
      Ok (violations ++ found)
  | ConstraintBuilder.HolidayExclusion holidays =>
      let! found :=
        ConstraintBuilder._validate_holiday_exclusion schedule_df holidays in
      Ok (violations ++ found)
  | ConstraintBuilder.MinimumGap _ _
  | ConstraintBuilder.WorkingHoursLimit _ _ _
  | ConstraintBuilder.JudgeSpecialization _ _
  | ConstraintBuilder.BalancedWorkload _ => Ok violations
  end.

(** [validate_schedule]: [(is_valid, violations)]. *)
Definition validate_schedule (today : Z) (self : ConstraintBuilder.t)
    (schedule_df : ScheduleDF) (judges_df : list Judge)
  : result (bool * list ConstraintBuilder.Violation) :=
  let! violations :=
    for_each (validate_constraint today schedule_df)
      (ConstraintBuilder.constraints self) [] in
  let is_valid := bool_decide (len violations = 0) in
  Ok (is_valid, violations).

End Strict.

(** The five cases of the scenario without judges. *)
Definition five_cases : CasesDF :=
  {| has_priority_score := true;
     case_rows := [case_of 1 "C-1" 10; case_of 2 "C-2" 90; case_of 3 "C-3" 50;
                   case_of 4 "C-4" 70; case_of 5 "C-5" 30]%Q |}.

(** * Properties *)

(** ** The result monad *)

Lemma for_each_app {A S} (body : S → A → result S) (xs ys : list A) (s : S) :
  for_each body (xs ++ ys) s
  = let! s' := for_each body xs s in for_each body ys s'.
Proof.
  revert s. induction xs as [|x xs IH]; intros s; simpl; [done|].
  destruct (body s x); simpl; [apply IH | done].
Qed.

Lemma for_each_total {A S} (body : S → A → result S) (f : S → A → S)
    (P : S → Prop) (xs : list A) (s : S) :
  (∀ s x, P s → body s x = Ok (f s x) ∧ P (f s x)) →
  P s →
  for_each body xs s = Ok (foldl f s xs) ∧ P (foldl f s xs).
Proof.
  intros Hstep. revert s. induction xs as [|x xs IH]; intros s Hs; simpl.
  - done.
  - destruct (Hstep s x Hs) as [-> Hs']. simpl. by apply IH.
Qed.

(** ** Counting *)

Lemma count_date_app d s1 s2 :
  count_date d (s1 ++ s2) = count_date d s1 + count_date d s2.
Proof. unfold count_date. rewrite filter_app, length_app. lia. Qed.

Lemma count_judge_date_app j d s1 s2 :
  count_judge_date j d (s1 ++ s2)
  = count_judge_date j d s1 + count_judge_date j d s2.
Proof. unfold count_judge_date. rewrite filter_app, length_app. lia. Qed.

Lemma count_date_single d h :
  count_date d [h] = if decide (hearing_date h = d) then 1 else 0.
Proof.
  unfold count_date. rewrite filter_cons, filter_nil.
  by destruct (decide (hearing_date h = d)).
Qed.

Lemma count_judge_date_single j d h :
  count_judge_date j d [h]
  = if decide (h_judge_id h = j ∧ hearing_date h = d) then 1 else 0.
Proof.
  unfold count_judge_date. rewrite filter_cons, filter_nil.
  by destruct (decide (h_judge_id h = j ∧ hearing_date h = d)).
Qed.

Lemma count_date_nonneg d s : 0 ≤ count_date d s.
Proof. unfold count_date. lia. Qed.

Lemma count_judge_date_nonneg j d s : 0 ≤ count_judge_date j d s.
Proof. unfold count_judge_date. lia. Qed.

(** ** The initial counters *)

Lemma init_daily_hearings_lookup start_date num_days i :
  i ∈ range num_days →
  init_daily_hearings start_date num_days !! (start_date + i) = Some 0.
Proof.
  intros Hi. unfold init_daily_hearings.
  apply elem_of_list_to_map_1'.
  - intros y Hy. apply list_elem_of_fmap in Hy as (k & Hk & _).
    by inversion Hk.
  - apply list_elem_of_fmap. by exists i.
Qed.

Lemma init_judge_daily_hearings_lookup judges start_date num_days j i :
  j ∈ judges → i ∈ range num_days →
  init_judge_daily_hearings judges start_date num_days
    !! (judge_id j, start_date + i) = Some 0.
Proof.
  intros Hj Hi. unfold init_judge_daily_hearings.
  apply elem_of_list_to_map_1'.
  - intros y Hy. apply list_elem_of_bind in Hy as (jid & Hy & _).
    apply list_elem_of_fmap in Hy as (k & Hk & _). by inversion Hk.
  - apply list_elem_of_bind. exists (judge_id j). split.
    + apply list_elem_of_fmap. by exists i.
    + apply list_elem_of_fmap. by exists j.
Qed.

Lemma counters_ok_initial judges start_date num_days :
  counters_ok judges start_date num_days
    (initial_state judges start_date num_days).
Proof.
  split; simpl.
  - intros i Hi. by apply init_daily_hearings_lookup.
  - intros j i Hj Hi. by apply init_judge_daily_hearings_lookup.
Qed.

(** ** The loops compute the reference functions and never raise *)

Section HeuristicFacts.

Variable sort_values : list Case → list Case.
Variable self : HearingScheduler.

Lemma try_judges_free sched d jdh judges :
  (∀ j, j ∈ judges →
     jdh !! (judge_id j, d) = Some (count_judge_date (judge_id j) d sched)) →
  try_judges self d jdh judges = Ok (free_judge self sched d judges).
Proof.
  induction judges as [|j rest IH]; intros Hjdh; simpl; [done|].
  unfold dict_get. rewrite (Hjdh j) by left. simpl.
  case_bool_decide; [done|].
  apply IH. intros j' Hj'. apply Hjdh. by right.
Qed.

Lemma free_judge_Some sched d judges j :
  free_judge self sched d judges = Some j →
  j ∈ judges
  ∧ count_judge_date (judge_id j) d sched < max_hearings_per_judge self.
Proof.
  induction judges as [|j' rest IH]; simpl; [done|].
  case_bool_decide as Hlt.
  - intros [= <-]. split; [left | done].
  - intros H. destruct (IH H). split; [by right | done].
Qed.

Lemma free_slot_Some sched judges start_date offsets d j :
  free_slot self sched judges start_date offsets = Some (d, j) →
  (∃ o, o ∈ offsets ∧ d = start_date + o)
  ∧ weekday d < 5
  ∧ count_date d sched < max_hearings_per_day self
  ∧ j ∈ judges
  ∧ count_judge_date (judge_id j) d sched < max_hearings_per_judge self.
Proof.
  induction offsets as [|o rest IH]; simpl; [done|].
  assert (Hrest : free_slot self sched judges start_date rest = Some (d, j) →
    (∃ o0, o0 ∈ o :: rest ∧ d = start_date + o0)
    ∧ weekday d < 5
    ∧ count_date d sched < max_hearings_per_day self
    ∧ j ∈ judges
    ∧ count_judge_date (judge_id j) d sched < max_hearings_per_judge self).
  { intros H. destruct (IH H) as ((o0 & Ho0 & ->) & ?).
    split; [|done]. exists o0. split; [by right | done]. }
  case_bool_decide as Hwk; [done|].
  case_bool_decide as Hday; [done|].
  destruct (free_judge self sched (start_date + o) judges) as [j'|] eqn:Hj;
    [|done].
  intros [= <- <-]. apply free_judge_Some in Hj as [? ?].
  split; [exists o; split; [left | done]|].
  repeat split; [lia | lia | done | done].
Qed.

Lemma try_days_free cases_df judges start_date num_days c st offsets :
  counters_ok judges start_date num_days st →
  (∀ o, o ∈ offsets → o ∈ range num_days) →
  try_days self cases_df judges start_date c st offsets
  = Ok (match free_slot self (schedule st) judges start_date offsets with
        | Some (d, j) => Some (book self cases_df c d j st)
        | None => None
        end).
Proof.
  intros [Hday Hjudge].
  induction offsets as [|o rest IH]; intros Hin; simpl; [done|].
  assert (Hrest : ∀ o', o' ∈ rest → o' ∈ range num_days)
    by (intros o' Ho'; apply Hin; by right).
  assert (Ho : o ∈ range num_days) by (apply Hin; left).
  case_bool_decide; [by apply IH|].
  unfold dict_get at 1. rewrite (Hday o Ho). simpl.
  case_bool_decide; [by apply IH|].
  rewrite (try_judges_free (schedule st)).
  2:{ intros j Hj. by apply Hjudge. }
  simpl.
  destruct (free_judge self (schedule st) (start_date + o) judges)
    as [j|] eqn:Hj; [|by apply IH].
  apply free_judge_Some in Hj as [Hj _].
  unfold dict_incr, dict_get.
  rewrite (Hday o Ho), (Hjudge j o Hj Ho). by simpl.
Qed.

Lemma counters_ok_book judges start_date num_days cases_df c d j st :
  counters_ok judges start_date num_days st →
  counters_ok judges start_date num_days (book self cases_df c d j st).
Proof.
  intros [Hday Hjudge]. split; simpl.
  - intros i Hi. rewrite count_date_app, count_date_single. simpl.
    rewrite lookup_insert.
    destruct (decide (d = start_date + i)) as [->|Hd]; [done|].
    rewrite Hday by done. f_equal. lia.
  - intros j' i Hj' Hi.
    rewrite count_judge_date_app, count_judge_date_single. simpl.
    rewrite lookup_insert.
    destruct (decide (judge_id j = judge_id j' ∧ d = start_date + i))
      as [[Hid ->]|Hk].
    + rewrite Hid. by rewrite decide_True.
    + rewrite decide_False.
      * rewrite Hjudge by done. f_equal. lia.
      * intros [= Hid Hd]. by apply Hk.
Qed.

Lemma counters_ok_warn judges start_date num_days c st :
  counters_ok judges start_date num_days st →
  counters_ok judges start_date num_days (warn c st).
Proof. intros [Hday Hjudge]. by split. Qed.

Lemma counters_ok_place judges start_date num_days cases_df c st :
  counters_ok judges start_date num_days st →
  counters_ok judges start_date num_days
    (place self cases_df judges start_date num_days st c).
Proof.
  intros Hok. unfold place.
  destruct (free_slot self (schedule st) judges start_date (range num_days))
    as [[d j]|].
  - by apply counters_ok_book.
  - by apply counters_ok_warn.
Qed.

Lemma schedule_case_place cases_df judges start_date num_days st c :
  counters_ok judges start_date num_days st →
  schedule_case self cases_df judges start_date num_days st c
  = Ok (place self cases_df judges start_date num_days st c).
Proof.
  intros Hok. unfold schedule_case, place.
  rewrite (try_days_free cases_df judges start_date num_days) by done.
  simpl.
  by destruct (free_slot self (schedule st) judges start_date
                 (range num_days)) as [[d j]|].
Qed.

(** The loop of [schedule_hearings_heuristic] raises nothing and ends in
    the state [place_all] computes. *)
Lemma heuristic_loop_place_all cases_df judges start_date num_days :
  heuristic_loop sort_values self cases_df judges start_date num_days
  = Ok (place_all self cases_df judges start_date num_days
          (processing_order sort_values cases_df)
          (initial_state judges start_date num_days)).
Proof.
  unfold heuristic_loop, place_all.
  eapply (for_each_total _ _ (counters_ok judges start_date num_days)).
  - intros s x Hs. split.
    + by apply schedule_case_place.
    + by apply counters_ok_place.
  - apply counters_ok_initial.
Qed.

Lemma schedule_hearings_heuristic_eq cases_df judges start_date num_days :
  schedule_hearings_heuristic sort_values self cases_df judges start_date
    num_days
  = Ok (DataFrame (schedule
          (place_all self cases_df judges start_date num_days
             (processing_order sort_values cases_df)
             (initial_state judges start_date num_days)))).
Proof.
  unfold schedule_hearings_heuristic.
  by rewrite heuristic_loop_place_all.
Qed.

End HeuristicFacts.

Lemma rows_DataFrame sched : rows (DataFrame sched) = sched.
Proof. by destruct sched. Qed.

(** ** Capacity limits *)

Section Capacity.

Variable sort_values : list Case → list Case.
Variable self : HearingScheduler.

Lemma within_limits_nil : within_limits self [].
Proof. split; intros; unfold count_judge_date, count_date; simpl; lia. Qed.

Lemma within_limits_book cases_df judges start_date offsets c d j st :
  free_slot self (schedule st) judges start_date offsets = Some (d, j) →
  within_limits self (schedule st) →
  within_limits self (schedule (book self cases_df c d j st)).
Proof.
  intros Hslot [Hj Hd].
  apply free_slot_Some in Hslot as (_ & _ & Hday & _ & Hjudge).
  split; simpl.
  - intros j' d'. rewrite count_judge_date_app, count_judge_date_single.
    simpl. specialize (Hj j' d').
    destruct (decide (judge_id j = j' ∧ d = d')) as [[<- <-]|_]; lia.
  - intros d'. rewrite count_date_app, count_date_single. simpl.
    specialize (Hd d'). destruct (decide (d = d')) as [<-|_]; lia.
Qed.

Lemma within_limits_place_all cases_df judges start_date num_days cases st :
  within_limits self (schedule st) →
  within_limits self
    (schedule (place_all self cases_df judges start_date num_days cases st)).
Proof.
  revert st. induction cases as [|c cases IH]; intros st Hst; [done|].
  apply IH. unfold place.
  destruct (free_slot self (schedule st) judges start_date (range num_days))
    as [[d j]|] eqn:Hslot; [|done].
  by eapply within_limits_book.
Qed.

End Capacity.

Lemma count_date_elem h sched : h ∈ sched → 0 < count_date (hearing_date h) sched.
Proof.
  intros Hin. unfold count_date.
  assert (Hf : h ∈ filter (λ h', hearing_date h' = hearing_date h) sched)
    by (by apply list_elem_of_filter).
  destruct (filter _ sched); [by apply elem_of_nil in Hf | simpl; lia].
Qed.

Lemma count_judge_date_elem h sched :
  h ∈ sched → 0 < count_judge_date (h_judge_id h) (hearing_date h) sched.
Proof.
  intros Hin. unfold count_judge_date.
  assert (Hf : h ∈ filter (λ h', h_judge_id h' = h_judge_id h
                                 ∧ hearing_date h' = hearing_date h) sched)
    by (by apply list_elem_of_filter).
  destruct (filter _ sched); [by apply elem_of_nil in Hf | simpl; lia].
Qed.

(** C1.  [schedule_hearings_heuristic] returns a schedule in which every
    (judge, date) pair has at most [max_hearings_per_judge] hearings and
    every date at most [max_hearings_per_day] hearings.  The limits are
    Python integers: for a limit that is not negative the bound is the limit
    itself, and a negative limit admits no hearing at all; in every case no
    judge-day and no day of the schedule exceeds its limit. *)
Theorem heuristic_respects_capacity (sort_values : list Case → list Case)
    (self : HearingScheduler) (cases_df : CasesDF) (judges_df : list Judge)
    (start_date num_days : Z) :
  ∃ schedule_df,
    schedule_hearings_heuristic sort_values self cases_df judges_df
      start_date num_days = Ok schedule_df
    ∧ (∀ j d, count_judge_date j d (rows schedule_df)
              ≤ Z.max 0 (max_hearings_per_judge self))
    ∧ (∀ d, count_date d (rows schedule_df)
            ≤ Z.max 0 (max_hearings_per_day self))
    ∧ (∀ h, h ∈ rows schedule_df →
         count_judge_date (h_judge_id h) (hearing_date h) (rows schedule_df)
         ≤ max_hearings_per_judge self
         ∧ count_date (hearing_date h) (rows schedule_df)
           ≤ max_hearings_per_day self).
Proof.
  eexists. split; [apply schedule_hearings_heuristic_eq|].
  rewrite rows_DataFrame.
  destruct (within_limits_place_all self cases_df judges_df start_date
              num_days (processing_order sort_values cases_df)
              (initial_state judges_df start_date num_days)
              (within_limits_nil self)) as [Hj Hd].
  split; [done|]. split; [done|].
  intros h Hin.
  pose proof (count_judge_date_elem h _ Hin).
  pose proof (count_date_elem h _ Hin).
  specialize (Hj (h_judge_id h) (hearing_date h)).
  specialize (Hd (hearing_date h)). lia.
Qed.

Lemma heuristic_respects_capacity_witness :
  ∃ schedule_df h,
    schedule_hearings_heuristic stable_sort_values two_per_judge three_cases
      [judge_A] monday 5 = Ok schedule_df
    ∧ h ∈ rows schedule_df
    ∧ count_judge_date (h_judge_id h) (hearing_date h) (rows schedule_df)
      ≤ max_hearings_per_judge two_per_judge
    ∧ count_date (hearing_date h) (rows schedule_df)
      ≤ max_hearings_per_day two_per_judge.
Proof.
  destruct (heuristic_respects_capacity stable_sort_values two_per_judge
              three_cases [judge_A] monday 5)
    as (df & Hdf & _ & _ & Hgroups).
  assert (Hrows : ∃ h, h ∈ rows df).
  { vm_compute in Hdf. injection Hdf as <-. eexists. left. }
  destruct Hrows as [h Hh].
  exists df, h. split; [done|]. split; [done|]. exact (Hgroups h Hh).
Defined.

(** ** Each case is booked at most once: the heuristic *)

Section HeuristicOnce.

Variable self : HearingScheduler.

Lemma place_all_cons cases_df judges start_date num_days c cases st :
  place_all self cases_df judges start_date num_days (c :: cases) st
  = place_all self cases_df judges start_date num_days cases
      (place self cases_df judges start_date num_days st c).
Proof. done. Qed.

Lemma place_all_case_ids cases_df judges start_date num_days cases st :
  ∃ booked,
    h_case_id <$> schedule
      (place_all self cases_df judges start_date num_days cases st)
    = (h_case_id <$> schedule st) ++ booked
    ∧ booked `sublist_of` (case_id <$> cases).
Proof.
  revert st. induction cases as [|c cases IH]; intros st.
  - exists []. by rewrite app_nil_r.
  - rewrite place_all_cons. unfold place.
    destruct (free_slot self (schedule st) judges start_date (range num_days))
      as [[d j]|].
    + destruct (IH (book self cases_df c d j st)) as (booked & -> & Hsub).
      exists (case_id c :: booked). split.
      * simpl. rewrite fmap_app. simpl. by rewrite <- app_assoc.
      * by constructor.
    + destruct (IH (warn c st)) as (booked & -> & Hsub).
      exists booked. split; [done | by constructor].
Qed.

Lemma place_all_warnings cases_df judges start_date num_days cases st :
  free_slot self (schedule st) judges start_date (range num_days) = None →
  place_all self cases_df judges start_date num_days cases st
  = {| schedule := schedule st;
       daily_hearings := daily_hearings st;
       judge_daily_hearings := judge_daily_hearings st;
       warnings := warnings st ++ (case_number <$> cases) |}.
Proof.
  revert st. induction cases as [|c cases IH]; intros st Hnone.
  - simpl. rewrite app_nil_r. by destruct st.
  - rewrite place_all_cons. unfold place. rewrite Hnone.
    rewrite IH; simpl; [|done].
    by rewrite <- app_assoc.
Qed.

End HeuristicOnce.

(** ** Each case is booked exactly once: the optimized scheduler *)

Lemma iloc_range {A} `{Inhabited A} (l : list A) (c : Z) :
  c ∈ range (len l) → iloc l c = Ok (l !!! Z.to_nat c).
Proof.
  unfold range, len, iloc. rewrite elem_of_seqZ. intros Hc.
  destruct (l !! Z.to_nat c) as [x|] eqn:Hx.
  - by rewrite (list_lookup_total_correct _ _ _ Hx).
  - apply lookup_ge_None in Hx. lia.
Qed.

Lemma fmap_lookup_range {A} `{Inhabited A} (l : list A) :
  (λ c, l !!! Z.to_nat c) <$> range (len l) = l.
Proof.
  apply list_eq. intros i. rewrite list_lookup_fmap.
  unfold range, len.
  destruct (l !! i) as [x|] eqn:Hx.
  - assert (Hi : (i < length l)%nat) by (by eapply lookup_lt_Some).
    rewrite (lookup_seqZ_lt 0 _ i) by lia. simpl.
    rewrite Z.add_0_l, Nat2Z.id.
    by rewrite (list_lookup_total_correct _ _ _ Hx).
  - apply lookup_ge_None in Hx.
    rewrite lookup_seqZ_ge by lia. done.
Qed.

Lemma for_each_collect {A B} (body : list B → A → result (list B))
    (g : A → list B) (xs : list A) (acc : list B) :
  (∀ acc x, x ∈ xs → body acc x = Ok (acc ++ g x)) →
  for_each body xs acc = Ok (acc ++ (xs ≫= g)).
Proof.
  revert acc. induction xs as [|x xs IH]; intros acc Hbody; simpl.
  - by rewrite app_nil_r.
  - rewrite Hbody by left. simpl. rewrite IH.
    + by rewrite <- app_assoc.
    + intros acc' x' Hx'. apply Hbody. by right.
Qed.

Lemma sum_values_filter (value : BoolVar → Z) (vars : list BoolVar) :
  Forall (λ v, value v = 0 ∨ value v = 1) vars →
  sum_values value vars
  = Z.of_nat (length (filter (λ v, value v = 1) vars)).
Proof.
  induction 1 as [|v vars Hv _ IH]; simpl; [done|].
  rewrite filter_cons, IH.
  destruct (decide (value v = 1)) as [->|Hne]; simpl; [lia|].
  destruct Hv as [-> | ?]; [lia | done].
Qed.

Section OptimizedFacts.

Variable self : HearingScheduler.
Variable cases_df : CasesDF.
Variable judges_df : list Judge.
Variable start_date num_days : Z.
Variable value : BoolVar → Z.

Lemma extract_one_picked c j sched d :
  c ∈ range (len (case_rows cases_df)) →
  j ∈ range (len judges_df) →
  extract_one self cases_df judges_df start_date value c j sched d
  = Ok (sched ++ picked self cases_df judges_df start_date value (c, j, d)).
Proof.
  intros Hc Hj. unfold extract_one, picked.
  case_bool_decide.
  - rewrite (iloc_range _ c Hc), (iloc_range _ j Hj). done.
  - by rewrite app_nil_r.
Qed.

Lemma extract_schedule_picked :
  extract_schedule self cases_df judges_df start_date num_days value
  = Ok (range (len (case_rows cases_df)) ≫= (λ c,
          range (len judges_df) ≫= (λ j,
            range num_days ≫= (λ d,
              picked self cases_df judges_df start_date value (c, j, d))))).
Proof.
  unfold extract_schedule.
  rewrite (for_each_collect _ (λ c,
    range (len judges_df) ≫= (λ j,
      range num_days ≫= (λ d,
        picked self cases_df judges_df start_date value (c, j, d))))); [done|].
  intros acc c Hc.
  apply (for_each_collect _ (λ j,
      range num_days ≫= (λ d,
        picked self cases_df judges_df start_date value (c, j, d)))).
  intros acc' j Hj.
  apply (for_each_collect _ (λ d,
        picked self cases_df judges_df start_date value (c, j, d))).
  intros acc'' d _. by apply extract_one_picked.
Qed.

Lemma picked_case_ids c (js ds : list Z) :
  h_case_id <$> (js ≫= (λ j, ds ≫= (λ d,
     picked self cases_df judges_df start_date value (c, j, d))))
  = replicate
      (length (filter (λ v, value v = 1)
                 (js ≫= (λ j, (λ d, (c, j, d)) <$> ds))))
      (case_id (case_rows cases_df !!! Z.to_nat c)).
Proof.
  induction js as [|j js IHj]; [done|].
  rewrite !bind_cons, fmap_app, filter_app, length_app, replicate_add, IHj.
  f_equal. clear IHj.
  induction ds as [|d ds IHd]; [done|].
  rewrite bind_cons, fmap_app, IHd, fmap_cons, filter_cons.
  unfold picked at 1. simpl.
  case_bool_decide as Hv.
  - by rewrite decide_True.
  - by rewrite decide_False.
Qed.

Lemma build_model_ok :
  ∃ terms,
    build_model self cases_df judges_df num_days
    = Ok {| variables :=
              range (len (case_rows cases_df)) ≫=
                (λ c, case_vars (len judges_df) num_days c);
            constraints :=
              ((λ c, SumEq (case_vars (len judges_df) num_days c) 1)
                 <$> range (len (case_rows cases_df)))
              ++ (range (len judges_df) ≫= (λ j,
                    (λ d, SumLe (judge_day_vars (len (case_rows cases_df)) j d)
                            (max_hearings_per_judge self))
                      <$> range num_days))
              ++ ((λ d, SumLe
                          (day_vars (len (case_rows cases_df))
                             (len judges_df) d)
                          (max_hearings_per_day self)) <$> range num_days);
            objective := terms |}.
Proof.
  unfold build_model.
  erewrite (for_each_collect _ (λ c,
    range (len judges_df) ≫= (λ j,
      (λ d, (int_of_float
               (get_priority_score cases_df
                  (case_rows cases_df !!! Z.to_nat c)
                * inject_Z (num_days - d))%Q, (c, j, d)))
        <$> range num_days))).
  - simpl. by eexists.
  - intros acc c Hc. unfold objective_terms.
    by rewrite (iloc_range _ c Hc).
Qed.

(** A solution of the model books every case once, in the order of the
    rows of [cases_df]. *)
Lemma extract_schedule_case_ids model :
  build_model self cases_df judges_df num_days = Ok model →
  satisfies value model →
  ∃ sched,
    extract_schedule self cases_df judges_df start_date num_days value
    = Ok sched
    ∧ h_case_id <$> sched = case_id <$> case_rows cases_df.
Proof.
  destruct build_model_ok as [terms ->]. intros [= <-] [Hbool Hcts].
  simpl in Hbool, Hcts.
  eexists. split; [apply extract_schedule_picked|].
  rewrite <- (fmap_lookup_range (case_rows cases_df)) at 2.
  rewrite <- list_fmap_compose.
  rewrite Forall_app in Hcts. destruct Hcts as [Honce _].
  rewrite Forall_fmap in Honce.
  rewrite Forall_forall in Honce. rewrite Forall_forall in Hbool.
  assert (Hcs : ∀ cs : list Z,
    (∀ c, c ∈ cs → c ∈ range (len (case_rows cases_df))) →
    h_case_id <$> (cs ≫= (λ c,
      range (len judges_df) ≫= (λ j,
        range num_days ≫= (λ d,
          picked self cases_df judges_df start_date value (c, j, d)))))
    = (case_id ∘ (λ c, case_rows cases_df !!! Z.to_nat c)) <$> cs).
  { induction cs as [|c cs IH]; intros Hin; [done|].
    rewrite bind_cons, fmap_app, fmap_cons, picked_case_ids.
    rewrite IH by (intros c' Hc'; apply Hin; by right).
    assert (Hc : c ∈ range (len (case_rows cases_df))) by (apply Hin; left).
    specialize (Honce c Hc). simpl in Honce.
    rewrite sum_values_filter in Honce.
    - unfold case_vars in Honce.
      apply (f_equal Z.to_nat) in Honce. rewrite Nat2Z.id in Honce.
      unfold BoolVar in *. by rewrite Honce.
    - apply Forall_forall. intros v Hv. apply Hbool.
      apply list_elem_of_bind. by exists c. }
  by apply Hcs.
Qed.

End OptimizedFacts.

(** ** The stable sort meets the contract of [sort_values] *)

Lemma insert_desc_perm c l : insert_desc c l ≡ₚ c :: l.
Proof.
  induction l as [|x l IH]; simpl; [done|].
  destruct (Qle_bool (priority_score x) (priority_score c)); [done|].
  rewrite IH. apply perm_swap.
Qed.

Lemma stable_sort_values_perm l : stable_sort_values l ≡ₚ l.
Proof.
  induction l as [|c l IH]; simpl; [done|].
  by rewrite insert_desc_perm, IH.
Qed.

Lemma insert_desc_descending c l :
  descending l → descending (insert_desc c l).
Proof.
  unfold descending.
  induction l as [|x l IH]; intros Hl; simpl.
  - by repeat constructor.
  - destruct (Qle_bool (priority_score x) (priority_score c)) eqn:Hle.
    + apply Qle_bool_iff in Hle.
      constructor; [exact Hl | constructor; exact Hle].
    + assert (Hlt : (priority_score c < priority_score x)%Q).
      { apply Qnot_le_lt. intros H. apply Qle_bool_iff in H. congruence. }
      inversion Hl as [|? ? Hl' Hhd]; subst.
      constructor; [by apply IH|].
      destruct l as [|y l]; simpl.
      * constructor. by apply Qlt_le_weak.
      * destruct (Qle_bool (priority_score y) (priority_score c));
          constructor; [by apply Qlt_le_weak | by inversion Hhd].
Qed.

Lemma stable_sort_values_descending l : descending (stable_sort_values l).
Proof.
  induction l as [|c l IH]; simpl.
  - constructor.
  - by apply insert_desc_descending.
Qed.

(** ** C2: each case at most once *)

Lemma processing_order_perm (sort_values : list Case → list Case) cases_df :
  (∀ l, sort_values l ≡ₚ l) →
  processing_order sort_values cases_df ≡ₚ case_rows cases_df.
Proof.
  intros Hperm. unfold processing_order.
  by destruct (has_priority_score cases_df).
Qed.

Lemma heuristic_case_ids_sublist (sort_values : list Case → list Case)
    self cases_df judges_df start_date num_days :
  ∃ schedule_df,
    schedule_hearings_heuristic sort_values self cases_df judges_df
      start_date num_days = Ok schedule_df
    ∧ (h_case_id <$> rows schedule_df)
        `sublist_of` (case_id <$> processing_order sort_values cases_df).
Proof.
  eexists. split; [apply schedule_hearings_heuristic_eq|].
  rewrite rows_DataFrame.
  destruct (place_all_case_ids self cases_df judges_df start_date num_days
              (processing_order sort_values cases_df)
              (initial_state judges_df start_date num_days))
    as (booked & -> & Hsub).
  done.
Qed.

Lemma filter_sublist_mono {A} (P : A → Prop) `{∀ x, Decision (P x)}
    (l k : list A) :
  l `sublist_of` k → filter P l `sublist_of` filter P k.
Proof.
  induction 1 as [|x l k _ IH|x l k _ IH]; [done| |].
  - rewrite !filter_cons. destruct (decide (P x)); [by constructor | done].
  - rewrite filter_cons. destruct (decide (P x)); [by constructor | done].
Qed.

(** A case id occurs in the heuristic's schedule at most as often as in
    [cases_df]. *)
Lemma heuristic_case_id_multiplicity (sort_values : list Case → list Case)
    self cases_df judges_df start_date num_days i :
  (∀ l, sort_values l ≡ₚ l) →
  ∃ schedule_df,
    schedule_hearings_heuristic sort_values self cases_df judges_df
      start_date num_days = Ok schedule_df
    ∧ (length (filter (λ x, x = i) (h_case_id <$> rows schedule_df))
       ≤ length (filter (λ x, x = i) (case_id <$> case_rows cases_df)))%nat.
Proof.
  intros Hperm.
  destruct (heuristic_case_ids_sublist sort_values self cases_df judges_df
              start_date num_days) as (df & Hdf & Hsub).
  exists df. split; [done|].
  rewrite <- (processing_order_perm sort_values cases_df Hperm).
  apply sublist_length. by apply filter_sublist_mono.
Qed.

(** C2 (as amended).  When the case ids of [cases_df] are pairwise distinct,
    no case id occurs twice in the schedule of the heuristic, nor in the
    schedule read off a solution of the optimized model: both schedulers
    return, and the case ids of the returned rows have no duplicate. *)
Theorem schedulers_book_each_case_once
    (sort_values : list Case → list Case) (ORTOOLS_AVAILABLE : bool)
    (Solve : CpModel → CpSolverStatus * (BoolVar → Z))
    (self : HearingScheduler) (cases_df : CasesDF) (judges_df : list Judge)
    (start_date num_days : Z) :
  (∀ l, sort_values l ≡ₚ l) →
  (∀ model, (Solve model).1 ∈ [OPTIMAL; FEASIBLE] →
            satisfies (Solve model).2 model) →
  NoDup (case_id <$> case_rows cases_df) →
  (∃ schedule_df,
     schedule_hearings_heuristic sort_values self cases_df judges_df
       start_date num_days = Ok schedule_df
     ∧ NoDup (h_case_id <$> rows schedule_df))
  ∧ (∃ schedule_df,
       schedule_hearings_optimized sort_values ORTOOLS_AVAILABLE Solve self
         cases_df judges_df start_date num_days = Ok schedule_df
       ∧ NoDup (h_case_id <$> rows schedule_df)).
Proof.
  intros Hperm Hsound Hids.
  assert (Hheur : ∃ schedule_df,
     schedule_hearings_heuristic sort_values self cases_df judges_df
       start_date num_days = Ok schedule_df
     ∧ NoDup (h_case_id <$> rows schedule_df)).
  { destruct (heuristic_case_ids_sublist sort_values self cases_df judges_df
                start_date num_days) as (df & Hdf & Hsub).
    exists df. split; [done|].
    eapply sublist_NoDup; [|exact Hsub].
    by rewrite (processing_order_perm sort_values cases_df Hperm). }
  split; [done|].
  unfold schedule_hearings_optimized.
  destruct ORTOOLS_AVAILABLE; simpl; [|done].
  destruct (build_model self cases_df judges_df num_days) as [model|e] eqn:Hm.
  2:{ destruct (build_model_ok self cases_df judges_df num_days) as [? Hok].
      congruence. }
  simpl. specialize (Hsound model).
  destruct (Solve model) as [status value]. simpl in Hsound.
  case_bool_decide as Hst; [|done].
  destruct (extract_schedule_case_ids self cases_df judges_df start_date
              num_days value model Hm (Hsound Hst)) as (sched & -> & Hcids).
  simpl. eexists. split; [done|].
  by rewrite rows_DataFrame, Hcids.
Qed.

Lemma candidate_solver_sound candidate model :
  (candidate_solver candidate model).1 ∈ [OPTIMAL; FEASIBLE] →
  satisfies (candidate_solver candidate model).2 model.
Proof.
  unfold candidate_solver. case_bool_decide as Hsat; simpl; [done|].
  intros Hin. repeat (apply elem_of_cons in Hin as [Hin|Hin]; [done|]).
  by apply elem_of_nil in Hin.
Qed.

Lemma schedulers_book_each_case_once_witness :
  (∀ l, stable_sort_values l ≡ₚ l)
  ∧ (∀ model,
       (candidate_solver one_case_a_day model).1 ∈ [OPTIMAL; FEASIBLE] →
       satisfies (candidate_solver one_case_a_day model).2 model)
  ∧ NoDup (case_id <$> case_rows three_cases)
  ∧ (∃ schedule_df,
       schedule_hearings_heuristic stable_sort_values two_per_judge
         three_cases [judge_A] monday 5 = Ok schedule_df
       ∧ NoDup (h_case_id <$> rows schedule_df))
  ∧ (∃ schedule_df,
       schedule_hearings_optimized stable_sort_values true
         (candidate_solver one_case_a_day) two_per_judge
         three_cases [judge_A] monday 5 = Ok schedule_df
       ∧ NoDup (h_case_id <$> rows schedule_df)).
Proof.
  assert (Hids : NoDup (case_id <$> case_rows three_cases)).
  { apply (bool_decide_unpack _). by vm_compute. }
  split; [exact stable_sort_values_perm|].
  split; [exact (candidate_solver_sound one_case_a_day)|].
  split; [exact Hids|].
  exact (schedulers_book_each_case_once stable_sort_values true
           (candidate_solver one_case_a_day) two_per_judge three_cases
           [judge_A] monday 5 stable_sort_values_perm
           (candidate_solver_sound one_case_a_day) Hids).
Defined.

(** The optimized scheduler of the witness does take the solver's path. *)
Example optimized_three_cases :
  (λ df, (λ h, (h_case_id h, hearing_date h - monday)) <$> rows df)
    <$> match schedule_hearings_optimized stable_sort_values true
                (candidate_solver one_case_a_day) two_per_judge
                three_cases [judge_A] monday 5 with
        | Ok df => Some df
        | Raise _ => None
        end
  = Some [(1, 0); (2, 1); (3, 2)].
Proof. by vm_compute. Qed.

(** Scenario 1 of the specification: priorities 90, 50 and 10, one judge,
    two hearings per judge and day. *)
Example heuristic_three_cases :
  (λ df, (λ h, (h_case_id h, hearing_date h - monday)) <$> rows df)
    <$> match schedule_hearings_heuristic stable_sort_values two_per_judge
                three_cases [judge_A] monday 5 with
        | Ok df => Some df
        | Raise _ => None
        end
  = Some [(2, 0); (3, 0); (1, 1)].
Proof. by vm_compute. Qed.

(** C2, counterexample to the claim as stated ("for every input"): a
    [cases_df] with two rows of the same case id is booked twice. *)
Lemma repeated_case_id_booked_twice :
  ∃ schedule_df,
    schedule_hearings_heuristic stable_sort_values two_per_judge
      repeated_case [judge_A] monday 5 = Ok schedule_df
    ∧ h_case_id <$> rows schedule_df = [7; 7]
    ∧ ¬ NoDup (h_case_id <$> rows schedule_df).
Proof.
  eexists. split; [by vm_compute|]. split; [by vm_compute|].
  intros Hnd. apply NoDup_cons in Hnd as [Hnotin _].
  apply Hnotin. by left.
Qed.

(** ** C3: the fallback of the optimized scheduler *)



(** ** No judge row *)

Lemma free_slot_no_judge self sched start_date offsets :
  free_slot self sched [] start_date offsets = None.
Proof.
  induction offsets as [|o rest IH]; simpl; [done|].
  by repeat case_bool_decide.
Qed.

(** With no judge row the heuristic books nothing and warns once for every
    case of [cases_df]. *)
Lemma heuristic_on_no_judge_rows (sort_values : list Case → list Case)
    (self : HearingScheduler) (cases_df : CasesDF)
    (start_date num_days : Z) :
  (∀ l, sort_values l ≡ₚ l) →
  schedule_hearings_heuristic sort_values self cases_df [] start_date
    num_days = Ok (DataFrame [])
  ∧ ∃ unscheduled,
      heuristic_warnings sort_values self cases_df [] start_date num_days
      = Ok unscheduled
      ∧ unscheduled ≡ₚ case_number <$> case_rows cases_df.
Proof.
  intros Hperm.
  unfold schedule_hearings_heuristic, heuristic_warnings.
  rewrite heuristic_loop_place_all.
  rewrite place_all_warnings by apply free_slot_no_judge.
  simpl. split; [done|]. eexists. split; [done|].
  by rewrite (processing_order_perm sort_values cases_df Hperm).
Qed.


(** ** The heuristic on an empty case list *)

Lemma heuristic_empty_cases (sort_values : list Case → list Case)
    self has_priority judges_df start_date num_days :
  (∀ l, sort_values l ≡ₚ l) →
  schedule_hearings_heuristic sort_values self
    {| has_priority_score := has_priority; case_rows := [] |}
    judges_df start_date num_days = Ok (DataFrame []).
Proof.
  intros Hperm. rewrite schedule_hearings_heuristic_eq.
  unfold processing_order. simpl.
  assert (Hnil : sort_values [] = [])
    by (apply Permutation_nil_r, Hperm).
  destruct has_priority; by rewrite ?Hnil.
Qed.

(** ** C10: the rules the validator has no branch for *)

Import ConstraintBuilder.

Lemma for_each_validate_unchecked today schedule_df cs violations :
  for_each (validate_constraint today schedule_df) cs violations
  = for_each (validate_constraint today schedule_df)
      (filter (λ c, unchecked c = false) cs) violations.
Proof.
  revert violations. induction cs as [|c cs IH]; intros violations; [done|].
  rewrite filter_cons.
  destruct (decide (unchecked c = false)) as [Hc|Hc].
  - simpl. destruct (validate_constraint today schedule_df violations c);
      simpl; [apply IH | done].
  - destruct c; simpl in Hc; try done; simpl; apply IH.
Qed.

(** C10.  Validation depends on the rules of the kinds
    [max_hearings_per_day], [max_hearings_per_judge], [priority_deadline],
    [no_weekends] and [holiday_exclusion] only: removing (or adding, at any
    place) rules of the kinds [minimum_gap], [judge_specialization],
    [working_hours_limit] and [balanced_workload] changes neither
    [is_valid] nor the list of violations, and a rule set of such rules
    alone is valid for every schedule. *)
Theorem validate_schedule_skips_unchecked_rules (today : Z)
    (self : ConstraintBuilder.t) (schedule_df : ScheduleDF)
    (judges_df : list Judge) :
  validate_schedule today self schedule_df judges_df
  = validate_schedule today
      {| constraints := filter (λ c, unchecked c = false) (constraints self) |}
      schedule_df judges_df
  ∧ (filter (λ c, unchecked c = false) (constraints self) = [] →
     validate_schedule today self schedule_df judges_df = Ok (true, [])).
Proof.
  unfold validate_schedule. simpl.
  rewrite for_each_validate_unchecked. split; [done|].
  by intros ->.
Qed.

Lemma validate_schedule_skips_unchecked_rules_witness :
  let rules :=
    add_balanced_workload
      (add_judge_specialization
         (add_minimum_gap_between_hearings init "criminal" 7)
         1 ["civil"; "criminal"]%string) (1 # 5) in
  filter (λ c, unchecked c = false) (constraints rules) = []
  ∧ validate_schedule monday rules (DataFrame []) [judge_A] = Ok (true, []).
Proof.
  intros rules.
  assert (Hnone : filter (λ c, unchecked c = false) (constraints rules) = [])
    by done.
  split; [exact Hnone|].
  exact (proj2 (validate_schedule_skips_unchecked_rules monday rules
                  (DataFrame []) [judge_A]) Hnone).
Defined.

(** ** C4: validating the schedule of the heuristic *)

(** The rule set of C4: the two capacity rules with the scheduler's limits. *)
Lemma capacity_rules_constraints (self : HearingScheduler) :
  constraints
    (add_max_hearings_per_judge
       (add_max_hearings_per_day init (max_hearings_per_day self))
       (max_hearings_per_judge self))
  = [MaxHearingsPerDay (max_hearings_per_day self);
     MaxHearingsPerJudge (max_hearings_per_judge self)].
Proof. done. Qed.

(** C4, the failing input.  The heuristic returns [pd.DataFrame([])] when
    nothing is booked (here: no case); that frame has no [hearing_date]
    column, and validating it against the two capacity rules raises
    [KeyError] instead of returning [(True, [])]. *)
Theorem validate_empty_heuristic_schedule_raises (today : Z)
    (self : HearingScheduler) (judges_df : list Judge)
    (start_date num_days : Z) :
  ∃ schedule_df,
    schedule_hearings_heuristic stable_sort_values self
      {| has_priority_score := true; case_rows := [] |}
      judges_df start_date num_days = Ok schedule_df
    ∧ validate_schedule today
        (add_max_hearings_per_judge
           (add_max_hearings_per_day init (max_hearings_per_day self))
           (max_hearings_per_judge self))
        schedule_df judges_df
      = Raise (KeyError "hearing_date").
Proof.
  eexists. split.
  - apply heuristic_empty_cases, stable_sort_values_perm.
  - done.
Qed.

Lemma groupby_size_elem `{EqDecision K} (le : K → K → Prop)
    `{∀ a b, Decision (le a b)} (keys : list K) (k : K) (n : Z) :
  (k, n) ∈ groupby_size le keys →
  k ∈ keys ∧ n = Z.of_nat (length (filter (λ k', k' = k) keys)).
Proof.
  unfold groupby_size. intros Hin.
  apply list_elem_of_fmap in Hin as (k' & [= -> ->] & Hk).
  rewrite merge_sort_Permutation in Hk.
  rewrite elem_of_remove_dups in Hk. by split.
Qed.

Lemma length_filter_fmap {A B} (f : A → B) (P : B → Prop)
    `{∀ y, Decision (P y)} (l : list A) :
  length (filter P (f <$> l)) = length (filter (λ x, P (f x)) l).
Proof.
  induction l as [|x l IH]; [done|].
  rewrite fmap_cons, !filter_cons.
  destruct (decide (P (f x))); simpl; by rewrite IH.
Qed.

Lemma zip_fmap_same {A B C} (f : A → B) (g : A → C) (l : list A) :
  zip (f <$> l) (g <$> l) = (λ x, (f x, g x)) <$> l.
Proof. induction l as [|x l IH]; [done|]. simpl. by f_equal. Qed.

Lemma bind_all_nil {A B} (f : A → list B) (l : list A) :
  (∀ x, x ∈ l → f x = []) → l ≫= f = [].
Proof.
  induction l as [|x l IH]; intros Hf; [done|].
  rewrite bind_cons, (Hf x) by left. simpl.
  apply IH. intros y Hy. apply Hf. by right.
Qed.

Lemma filter_eq_length_pos {A} `{EqDecision A} (l : list A) (x : A) :
  x ∈ l → (0 < length (filter (λ y, y = x) l))%nat.
Proof.
  intros Hx.
  assert (Hin : x ∈ filter (λ y, y = x) l) by (by apply list_elem_of_filter).
  destruct (filter (λ y, y = x) l); [by apply elem_of_nil in Hin|].
  simpl. lia.
Qed.

(** A schedule that is not empty and stays within the limits passes the two
    capacity rules. *)
Lemma validate_within_limits today (self : HearingScheduler) sched judges_df :
  sched ≠ [] →
  within_limits self sched →
  validate_schedule today
    (add_max_hearings_per_judge
       (add_max_hearings_per_day init (max_hearings_per_day self))
       (max_hearings_per_judge self))
    (DataFrame sched) judges_df
  = Ok (true, []).
Proof.
  intros Hne [Hjudge Hday].
  destruct sched as [|h sched]; [done|]. clear Hne.
  unfold validate_schedule. rewrite capacity_rules_constraints.
  change (DataFrame (h :: sched))
    with {| columns := schedule_columns; rows := h :: sched |}.
  revert Hjudge Hday. generalize (h :: sched) as l. intros l Hjudge Hday.
  assert (Hc1 : column {| columns := schedule_columns; rows := l |}
                  "hearing_date" hearing_date = Ok (hearing_date <$> l))
    by done.
  assert (Hc2 : column {| columns := schedule_columns; rows := l |}
                  "judge_id" h_judge_id = Ok (h_judge_id <$> l))
    by done.
  assert (Hv1 : _validate_max_hearings_per_day
                  {| columns := schedule_columns; rows := l |}
                  (max_hearings_per_day self) = Ok []).
  { unfold _validate_max_hearings_per_day. rewrite Hc1. simpl. f_equal.
    apply bind_all_nil. intros [d n] Hin.
    apply groupby_size_elem in Hin as [Hd ->].
    rewrite bool_decide_eq_false_2; [done|].
    apply (filter_eq_length_pos _ d) in Hd.
    rewrite length_filter_fmap in Hd |- *.
    specialize (Hday d). unfold count_date in Hday. lia. }
  assert (Hv2 : _validate_max_hearings_per_judge
                  {| columns := schedule_columns; rows := l |}
                  (max_hearings_per_judge self) = Ok []).
  { unfold _validate_max_hearings_per_judge. rewrite Hc1, Hc2. simpl.
    f_equal. rewrite zip_fmap_same.
    apply bind_all_nil. intros [[j d] n] Hin.
    apply groupby_size_elem in Hin as [Hd ->].
    rewrite bool_decide_eq_false_2; [done|].
    apply (filter_eq_length_pos _ (j, d)) in Hd.
    rewrite length_filter_fmap in Hd |- *.
    specialize (Hjudge j d). unfold count_judge_date in Hjudge.
    assert (Heq : filter (λ x, (h_judge_id x, hearing_date x) = (j, d)) l
                  = filter (λ h, h_judge_id h = j ∧ hearing_date h = d) l).
    { apply list_filter_iff. intros x. split.
      - by intros [= -> ->].
      - by intros [-> ->]. }
    rewrite Heq in Hd |- *. lia. }
  cbn [for_each validate_constraint]. rewrite Hv1.
  cbn [bind app]. by rewrite Hv2.
Qed.

(** The other half of C4: whenever the heuristic books at least one hearing,
    its schedule passes the two capacity rules. *)
Lemma validate_nonempty_heuristic_schedule today
    (sort_values : list Case → list Case) self cases_df judges_df
    start_date num_days :
  ∃ schedule_df,
    schedule_hearings_heuristic sort_values self cases_df judges_df
      start_date num_days = Ok schedule_df
    ∧ (rows schedule_df ≠ [] →
       validate_schedule today
         (add_max_hearings_per_judge
            (add_max_hearings_per_day init (max_hearings_per_day self))
            (max_hearings_per_judge self))
         schedule_df judges_df
       = Ok (true, [])).
Proof.
  eexists. split; [apply schedule_hearings_heuristic_eq|].
  rewrite rows_DataFrame. intros Hne.
  apply validate_within_limits; [done|].
  apply within_limits_place_all, within_limits_nil.
Qed.

(** ** C7: the efficiency metrics of an empty schedule *)

(** C7, the failing input.  For an empty case list the heuristic returns
    [pd.DataFrame([])], and [calculate_efficiency] on that frame raises
    [KeyError] at [schedule_df['case_id']], before the guard
    [if total_cases > 0 else 0] of [coverage_rate] is reached. *)
Theorem calculate_efficiency_empty_schedule_raises
    (F : OptimizationUtils.Floats) (today : Z) (self : HearingScheduler)
    (judges_df : list Judge) (start_date num_days : Z) :
  ∃ schedule_df,
    schedule_hearings_heuristic stable_sort_values self
      {| has_priority_score := true; case_rows := [] |}
      judges_df start_date num_days = Ok schedule_df
    ∧ OptimizationUtils.calculate_efficiency F today schedule_df
        {| has_priority_score := true; case_rows := [] |} judges_df
      = Raise (KeyError "case_id").
Proof.
  eexists. split.
  - apply heuristic_empty_cases, stable_sort_values_perm.
  - done.
Qed.

(** The frame without columns raises whatever the cases and judges are. *)
Lemma calculate_efficiency_no_column (F : OptimizationUtils.Floats)
    (today : Z) (cases_df : CasesDF) (judges_df : list Judge) :
  OptimizationUtils.calculate_efficiency F today (DataFrame []) cases_df
    judges_df
  = Raise (KeyError "case_id").
Proof. done. Qed.

(** ** C6: raising a priority never delays the case *)

Lemma range_sorted n : StronglySorted Z.le (range n).
Proof.
  unfold range. generalize 0 as m.
  destruct (decide (0 ≤ n)) as [Hn|Hn].
  - rewrite <- (Z2Nat.id n Hn). generalize (Z.to_nat n) as k. clear.
    induction k as [|k IH]; intros m.
    + constructor.
    + rewrite seqZ_cons by lia. constructor.
      * replace (Z.pred (Z.of_nat (S k))) with (Z.of_nat k) by lia. apply IH.
      * apply Forall_forall. intros x Hx. apply elem_of_seqZ in Hx. lia.
  - intros m. replace (seqZ m n) with (@nil Z); [constructor|].
    symmetry. apply length_zero_iff_nil. rewrite length_seqZ. lia.
Qed.

Section ScheduleLoad.

Variable self : HearingScheduler.

Lemma free_judge_lighter s s' d judges j' :
  lighter s s' →
  free_judge self s' d judges = Some j' →
  ∃ j, free_judge self s d judges = Some j.
Proof.
  intros [_ Hjd]. induction judges as [|j0 rest IH]; simpl; [done|].
  case_bool_decide as H'.
  - intros _. rewrite bool_decide_eq_true_2; [by eexists|].
    specialize (Hjd (judge_id j0) d). lia.
  - intros Hrest. case_bool_decide; [by eexists | by apply IH].
Qed.

Lemma free_slot_lighter s s' judges start_date offsets d' j' :
  lighter s s' →
  StronglySorted Z.le offsets →
  free_slot self s' judges start_date offsets = Some (d', j') →
  ∃ d j, free_slot self s judges start_date offsets = Some (d, j) ∧ d ≤ d'.
Proof.
  intros Hl Hsorted. induction Hsorted as [|o rest Hrest IH Hle]; [done|].
  assert (Hlater : free_slot self s' judges start_date rest = Some (d', j') →
    ∃ d j, free_slot self s judges start_date (o :: rest) = Some (d, j)
           ∧ d ≤ d').
  { intros Hs'. destruct (IH Hs') as (d & j & Hs & Hd).
    assert (Hod' : start_date + o ≤ d').
    { apply free_slot_Some in Hs' as ((o' & Ho' & ->) & _).
      rewrite Forall_forall in Hle. specialize (Hle o' Ho'). lia. }
    simpl. case_bool_decide; [by eauto|].
    case_bool_decide; [by eauto|].
    destruct (free_judge self s (start_date + o) judges); by eauto. }
  intros Hs'. simpl in Hs'.
  destruct (bool_decide (5 ≤ weekday (start_date + o))) eqn:Hwk;
    [by apply Hlater|].
  destruct (bool_decide
              (max_hearings_per_day self ≤ count_date (start_date + o) s'))
    eqn:Hday'; [by apply Hlater|].
  destruct (free_judge self s' (start_date + o) judges) as [j1|] eqn:Hj';
    [|by apply Hlater].
  injection Hs' as <- <-.
  apply bool_decide_eq_false in Hday'.
  simpl. rewrite Hwk.
  rewrite bool_decide_eq_false_2.
  2:{ destruct Hl as [Hd _]. specialize (Hd (start_date + o)). lia. }
  destruct (free_judge_lighter s s' (start_date + o) judges j1 Hl Hj')
    as [j ->].
  exists (start_date + o), j. split; [done | lia].
Qed.

Lemma free_judge_same_load s s' d judges :
  same_load s s' →
  free_judge self s d judges = free_judge self s' d judges.
Proof.
  intros [_ Hjd]. induction judges as [|j rest IH]; simpl; [done|].
  by rewrite Hjd, IH.
Qed.

Lemma free_slot_same_load s s' judges start_date offsets :
  same_load s s' →
  free_slot self s judges start_date offsets
  = free_slot self s' judges start_date offsets.
Proof.
  intros Hl. induction offsets as [|o rest IH]; simpl; [done|].
  rewrite IH, (free_judge_same_load s s' _ _ Hl).
  destruct Hl as [Hd _]. by rewrite Hd.
Qed.

Lemma same_load_snoc s s' h h' :
  same_load s s' →
  h_judge_id h = h_judge_id h' → hearing_date h = hearing_date h' →
  same_load (s ++ [h]) (s' ++ [h']).
Proof.
  intros [Hd Hjd] Hj Hdate. split.
  - intros d. rewrite !count_date_app, !count_date_single, Hd, Hdate. done.
  - intros j d.
    rewrite !count_judge_date_app, !count_judge_date_single, Hjd, Hj, Hdate.
    done.
Qed.

Lemma place_same_load cases_df cases_df' judges start_date num_days st st'
    c c' :
  same_load (schedule st) (schedule st') →
  same_load
    (schedule (place self cases_df judges start_date num_days st c))
    (schedule (place self cases_df' judges start_date num_days st' c')).
Proof.
  intros Hl. unfold place.
  rewrite (free_slot_same_load _ _ _ _ _ Hl).
  destruct (free_slot self (schedule st') judges start_date (range num_days))
    as [[d j]|]; simpl; [|done].
  by apply same_load_snoc.
Qed.

Lemma place_all_same_load cases_df cases_df' judges start_date num_days
    cases cases' st st' :
  length cases = length cases' →
  same_load (schedule st) (schedule st') →
  same_load
    (schedule (place_all self cases_df judges start_date num_days cases st))
    (schedule
       (place_all self cases_df' judges start_date num_days cases' st')).
Proof.
  revert cases' st st'.
  induction cases as [|c cases IH]; intros [|c' cases'] st st' Hlen Hl;
    try done.
  rewrite !place_all_cons. apply IH; [by injection Hlen|].
  by apply place_same_load.
Qed.

Lemma place_all_app cases_df judges start_date num_days cases1 cases2 st :
  place_all self cases_df judges start_date num_days (cases1 ++ cases2) st
  = place_all self cases_df judges start_date num_days cases2
      (place_all self cases_df judges start_date num_days cases1 st).
Proof. unfold place_all. apply foldl_app. Qed.

(** The loop only appends to the schedule, and what it appends belongs to
    the cases it has processed, in their order. *)
Lemma place_all_schedule cases_df judges start_date num_days cases st :
  ∃ booked,
    schedule (place_all self cases_df judges start_date num_days cases st)
    = schedule st ++ booked
    ∧ (h_case_id <$> booked) `sublist_of` (case_id <$> cases).
Proof.
  revert st. induction cases as [|c cases IH]; intros st.
  - exists []. by rewrite app_nil_r.
  - rewrite place_all_cons. unfold place.
    destruct (free_slot self (schedule st) judges start_date (range num_days))
      as [[d j]|].
    + destruct (IH (book self cases_df c d j st)) as (booked & -> & Hsub).
      exists (booking self cases_df c d j :: booked). split.
      * simpl. by rewrite <- app_assoc.
      * by constructor.
    + destruct (IH (warn c st)) as (booked & -> & Hsub).
      exists booked. split; [done | by constructor].
Qed.

Lemma lighter_app s extra : lighter s (s ++ extra).
Proof.
  split.
  - intros d. rewrite count_date_app.
    pose proof (count_date_nonneg d extra). lia.
  - intros j d. rewrite count_judge_date_app.
    pose proof (count_judge_date_nonneg j d extra). lia.
Qed.

Lemma lighter_same_load_l s1 s2 s3 :
  same_load s1 s2 → lighter s2 s3 → lighter s1 s3.
Proof.
  intros [Hd Hjd] [Hd' Hjd']. split.
  - intros d. rewrite Hd. apply Hd'.
  - intros j d. rewrite Hjd. apply Hjd'.
Qed.

(** Processing fewer cases leaves a lighter schedule, whatever the cases
    are. *)
Lemma place_all_fewer_lighter cases_df cases_df' judges start_date num_days
    cases cases' st :
  (length cases' ≤ length cases)%nat →
  lighter
    (schedule (place_all self cases_df' judges start_date num_days cases' st))
    (schedule (place_all self cases_df judges start_date num_days cases st)).
Proof.
  intros Hlen.
  rewrite <- (take_drop (length cases') cases), place_all_app.
  destruct (place_all_schedule cases_df judges start_date num_days
              (drop (length cases') cases)
              (place_all self cases_df judges start_date num_days
                 (take (length cases') cases) st)) as (extra & -> & _).
  eapply lighter_same_load_l; [|apply lighter_app].
  apply place_all_same_load; [|done].
  rewrite length_take. lia.
Qed.

End ScheduleLoad.

Lemma filter_case_id_none (i : Z) (l : list Hearing) :
  i ∉ (h_case_id <$> l) → filter (λ h, h_case_id h = i) l = [].
Proof.
  induction l as [|h l IH]; intros Hnotin; [done|].
  rewrite fmap_cons, not_elem_of_cons in Hnotin.
  destruct Hnotin as [Hne Hl].
  rewrite filter_cons, decide_False by done. by apply IH.
Qed.

Section DayIndex.

Variable self : HearingScheduler.

(** The day of a case is the day of the slot that is free when its turn
    comes. *)
Lemma day_index_place_all cases_df judges start_date num_days before c after
    st :
  schedule st = [] →
  case_id c ∉ (case_id <$> before) →
  case_id c ∉ (case_id <$> after) →
  day_index start_date (case_id c)
    (DataFrame (schedule
       (place_all self cases_df judges start_date num_days
          (before ++ c :: after) st)))
  = (λ slot, slot.1 - start_date)
      <$> free_slot self
            (schedule
               (place_all self cases_df judges start_date num_days before st))
            judges start_date (range num_days).
Proof.
  intros Hst Hbefore Hafter.
  unfold day_index, hearing_of_case.
  rewrite rows_DataFrame, place_all_app, place_all_cons.
  destruct (place_all_schedule self cases_df judges start_date num_days
              before st) as (booked1 & Hs1 & Hsub1).
  rewrite Hst in Hs1. simpl in Hs1.
  set (st1 := place_all self cases_df judges start_date num_days before st)
    in *.
  assert (Hf1 : filter (λ h, h_case_id h = case_id c) (schedule st1) = []).
  { rewrite Hs1. apply filter_case_id_none. intros Hin.
    apply Hbefore. by eapply elem_of_sublist. }
  unfold place.
  destruct (free_slot self (schedule st1) judges start_date (range num_days))
    as [[d j]|].
  - destruct (place_all_schedule self cases_df judges start_date num_days
                after (book self cases_df c d j st1))
      as (booked2 & -> & Hsub2).
    simpl. rewrite !filter_app, Hf1. simpl.
    rewrite filter_cons, decide_True by done. done.
  - destruct (place_all_schedule self cases_df judges start_date num_days
                after (warn c st1)) as (booked2 & -> & Hsub2).
    simpl. rewrite filter_app, Hf1. simpl.
    rewrite filter_case_id_none; [done|].
    intros Hin. apply Hafter. by eapply elem_of_sublist.
Qed.

End DayIndex.

(** Where the raised case stands in the two processing orders: no later in
    the new one. *)
Lemma raised_case_position (sort_values : list Case → list Case)
    (has_priority : bool) (l1 l2 : list Case) (c : Case) (p' : Q) :
  (∀ l, sort_values l ≡ₚ l) →
  (∀ l, descending (sort_values l)) →
  NoDup (case_id <$> (l1 ++ c :: l2)) →
  (priority_score c < p')%Q →
  ∃ before after before' after',
    processing_order sort_values
      {| has_priority_score := has_priority; case_rows := l1 ++ c :: l2 |}
    = before ++ c :: after
    ∧ processing_order sort_values
        {| has_priority_score := has_priority;
           case_rows := l1 ++ with_priority c p' :: l2 |}
      = before' ++ with_priority c p' :: after'
    ∧ (length before' ≤ length before)%nat
    ∧ NoDup (case_id <$> (before ++ c :: after))
    ∧ NoDup (case_id <$> (before' ++ with_priority c p' :: after')).
Proof.
  intros Hperm Hsorted Hids Hlt.
  set (c' := with_priority c p').
  assert (Hids' : NoDup (case_id <$> (l1 ++ c' :: l2))).
  { by rewrite fmap_app, fmap_cons in Hids |- *. }
  unfold processing_order. simpl.
  destruct has_priority.
  2:{ exists l1, l2, l1, l2. by repeat split. }
  set (O := sort_values (l1 ++ c :: l2)).
  set (O' := sort_values (l1 ++ c' :: l2)).
  assert (HO : O ≡ₚ l1 ++ c :: l2) by apply Hperm.
  assert (HO' : O' ≡ₚ l1 ++ c' :: l2) by apply Hperm.
  assert (Hc : c ∈ O) by (rewrite HO; set_solver).
  assert (Hc' : c' ∈ O') by (rewrite HO'; set_solver).
  apply list_elem_of_split in Hc as (A & B & HAB).
  apply list_elem_of_split in Hc' as (A' & B' & HAB').
  exists A, B, A', B'.
  assert (HndO : NoDup (case_id <$> O)) by (by rewrite HO).
  assert (HndO' : NoDup (case_id <$> O')) by (by rewrite HO').
  rewrite <- HAB, <- HAB'.
  split; [done|]. split; [done|]. split; [|done].
  assert (Htrans : Transitive
            (λ a b : Case, (priority_score b <= priority_score a)%Q)).
  { intros x y z Hxy Hyz. by eapply Qle_trans. }
  pose proof (@Sorted_StronglySorted _ _ Htrans _ (Hsorted (l1 ++ c :: l2)))
    as HS.
  pose proof (@Sorted_StronglySorted _ _ Htrans _ (Hsorted (l1 ++ c' :: l2)))
    as HS'.
  fold O in HS. fold O' in HS'. rewrite HAB in HS. rewrite HAB' in HS'.
  rewrite HAB in HndO. rewrite HAB' in HndO'.
  assert (HndA' : NoDup A').
  { apply NoDup_fmap_1 in HndO'. by apply NoDup_app in HndO' as [? _]. }
  apply submseteq_length, NoDup_submseteq; [done|].
  intros x Hx.
  (* x differs from the raised case by its id *)
  assert (Hxid : case_id x ≠ case_id c).
  { rewrite fmap_app, fmap_cons in HndO'.
    apply NoDup_app in HndO' as (_ & Hdisj & _).
    intros Heq. apply (Hdisj (case_id x)).
    - apply list_elem_of_fmap. by exists x.
    - rewrite Heq. left. }
  assert (HxO : x ∈ O).
  { rewrite HO. assert (Hx' : x ∈ O') by (rewrite HAB'; set_solver).
    rewrite HO' in Hx'.
    apply elem_of_app in Hx' as [?|Hx']; [set_solver|].
    apply elem_of_cons in Hx' as [->|?]; [done | set_solver]. }
  rewrite HAB in HxO.
  apply elem_of_app in HxO as [?|HxO]; [done|].
  apply elem_of_cons in HxO as [->|HxB]; [done|].
  exfalso.
  assert (HS1 : StronglySorted
            (λ a b : Case, (priority_score b <= priority_score a)%Q)
            ((A ++ [c]) ++ B)) by (by rewrite <- app_assoc).
  assert (HcA : c ∈ A ++ [c]) by set_solver.
  assert (Hc'B : c' ∈ c' :: B') by left.
  pose proof (StronglySorted_app_1_elem_of _ _ _ c x HS1 HcA HxB) as H1.
  pose proof (StronglySorted_app_1_elem_of _ _ _ x c' HS' Hx Hc'B) as H2.
  simpl in H1, H2.
  apply (Qlt_irrefl p').
  eapply Qle_lt_trans; [|exact Hlt]. by eapply Qle_trans.
Qed.

(** C6.  Let [c] be a case of [cases_df], the case ids being pairwise
    distinct, and let its [priority_score] be raised to [p'], everything else
    unchanged.  Both runs of the heuristic return; if [c] has a hearing in
    the original schedule, it has one in the new schedule, and its day index
    there is not later. *)
Theorem raising_priority_never_delays
    (sort_values : list Case → list Case) (self : HearingScheduler)
    (has_priority : bool) (l1 l2 : list Case) (c : Case) (p' : Q)
    (judges_df : list Judge) (start_date num_days : Z) :
  (∀ l, sort_values l ≡ₚ l) →
  (∀ l, descending (sort_values l)) →
  NoDup (case_id <$> (l1 ++ c :: l2)) →
  (priority_score c < p')%Q →
  ∃ old_df new_df,
    schedule_hearings_heuristic sort_values self
      {| has_priority_score := has_priority; case_rows := l1 ++ c :: l2 |}
      judges_df start_date num_days = Ok old_df
    ∧ schedule_hearings_heuristic sort_values self
        {| has_priority_score := has_priority;
           case_rows := l1 ++ with_priority c p' :: l2 |}
        judges_df start_date num_days = Ok new_df
    ∧ ∀ d, day_index start_date (case_id c) old_df = Some d →
           ∃ d', day_index start_date (case_id c) new_df = Some d' ∧ d' ≤ d.
Proof.
  intros Hperm Hsorted Hids Hlt.
  destruct (raised_case_position sort_values has_priority l1 l2 c p'
              Hperm Hsorted Hids Hlt)
    as (A & B & A' & B' & HO & HO' & Hlen & Hnd & Hnd').
  eexists _, _.
  split; [apply schedule_hearings_heuristic_eq|].
  split; [apply schedule_hearings_heuristic_eq|].
  rewrite HO, HO'.
  rewrite fmap_app, fmap_cons in Hnd, Hnd'.
  apply NoDup_app in Hnd as (_ & HA & HcB).
  apply NoDup_app in Hnd' as (_ & HA' & HcB').
  apply NoDup_cons in HcB as [HB _]. apply NoDup_cons in HcB' as [HB' _].
  rewrite day_index_place_all; [|done| |done].
  2:{ intros Hin. apply (HA _ Hin). left. }
  assert (Hnew := day_index_place_all self
            {| has_priority_score := has_priority;
               case_rows := l1 ++ with_priority c p' :: l2 |}
            judges_df start_date num_days A' (with_priority c p') B'
            (initial_state judges_df start_date num_days) eq_refl).
  simpl in Hnew. rewrite Hnew; clear Hnew; [|by intros Hin; apply (HA' _ Hin); left | done].
  intros d Hd.
  destruct (free_slot self
              (schedule (place_all self _ judges_df start_date num_days A _))
              judges_df start_date (range num_days))
    as [[dd j]|] eqn:Hslot; [|done].
  simpl in Hd. injection Hd as <-.
  destruct (free_slot_lighter self _ _ judges_df start_date (range num_days)
              dd j
              (place_all_fewer_lighter self _
                 {| has_priority_score := has_priority;
                    case_rows := l1 ++ with_priority c p' :: l2 |}
                 judges_df start_date num_days A A'
                 (initial_state judges_df start_date num_days) Hlen)
              (range_sorted num_days) Hslot)
    as (d0 & j0 & -> & Hle).
  simpl. eexists. split; [done | lia].
Qed.

Lemma raising_priority_never_delays_witness :
  ((∀ l, stable_sort_values l ≡ₚ l)
   ∧ (∀ l, descending (stable_sort_values l))
   ∧ NoDup (case_id <$> ([] ++ case_of 1 "C-1" 10
                            :: [case_of 2 "C-2" 90; case_of 3 "C-3" 50]))
   ∧ (priority_score (case_of 1 "C-1" 10) < 95)%Q)
  ∧ ∃ old_df new_df,
      schedule_hearings_heuristic stable_sort_values one_per_judge
        {| has_priority_score := true;
           case_rows := [] ++ case_of 1 "C-1" 10
                          :: [case_of 2 "C-2" 90; case_of 3 "C-3" 50] |}
        [judge_A] monday 5 = Ok old_df
      ∧ schedule_hearings_heuristic stable_sort_values one_per_judge
          {| has_priority_score := true;
             case_rows := [] ++ with_priority (case_of 1 "C-1" 10) 95
                            :: [case_of 2 "C-2" 90; case_of 3 "C-3" 50] |}
          [judge_A] monday 5 = Ok new_df
      ∧ ∀ d, day_index monday (case_id (case_of 1 "C-1" 10)) old_df = Some d →
             ∃ d', day_index monday (case_id (case_of 1 "C-1" 10)) new_df
                   = Some d' ∧ d' ≤ d.
Proof.
  assert (Hids : NoDup (case_id <$> ([] ++ case_of 1 "C-1" 10
                          :: [case_of 2 "C-2" 90; case_of 3 "C-3" 50]))).
  { apply (bool_decide_unpack _). by vm_compute. }
  assert (Hlt : (priority_score (case_of 1 "C-1" 10) < 95)%Q) by done.
  split.
  - split; [exact stable_sort_values_perm|].
    split; [exact stable_sort_values_descending|]. by split.
  - exact (raising_priority_never_delays stable_sort_values one_per_judge
             true [] [case_of 2 "C-2" 90; case_of 3 "C-3" 50]
             (case_of 1 "C-1" 10) 95 [judge_A] monday 5
             stable_sort_values_perm stable_sort_values_descending Hids Hlt).
Defined.

(** In the run of the witness the case moves from day 2 to day 0. *)
Example raised_case_days :
  (day_index monday 1 <$>
     match schedule_hearings_heuristic stable_sort_values one_per_judge
             three_cases [judge_A] monday 5 with
     | Ok df => Some df | Raise _ => None end,
   day_index monday 1 <$>
     match schedule_hearings_heuristic stable_sort_values one_per_judge
             {| has_priority_score := true;
                case_rows := [with_priority (case_of 1 "C-1" 10) 95;
                              case_of 2 "C-2" 90; case_of 3 "C-3" 50] |}
             [judge_A] monday 5 with
     | Ok df => Some df | Raise _ => None end)
  = (Some (Some 2), Some (Some 0)).
Proof. by vm_compute. Qed.

(** Scenario 2 of the specification: with one hearing per day for the court,
    two cases of equal priority go to two different days although two judges
    are free. *)
Example court_cap_binds_first :
  (λ df, (λ h, (h_case_id h, h_judge_id h, hearing_date h - monday))
           <$> rows df)
    <$> match schedule_hearings_heuristic stable_sort_values one_per_day
                two_ties [judge_A; judge_B] monday 5 with
        | Ok df => Some df
        | Raise _ => None
        end
  = Some [(1, 1, 0); (2, 1, 1)].
Proof. by vm_compute. Qed.

(** * Further properties of the heuristic *)

Section HeuristicRows.

Variable self : HearingScheduler.

(** Whatever holds of every booking the loop can make holds of every row of
    the schedule. *)
Lemma place_all_Forall cases_df judges start_date num_days cases st
    (P : Hearing → Prop) :
  (∀ c d j, c ∈ cases →
     (∃ o, o ∈ range num_days ∧ d = start_date + o) →
     weekday d < 5 → j ∈ judges →
     P (booking self cases_df c d j)) →
  Forall P (schedule st) →
  Forall P
    (schedule (place_all self cases_df judges start_date num_days cases st)).
Proof.
  revert st. induction cases as [|c cases IH]; intros st HP Hst; [done|].
  rewrite place_all_cons. apply IH.
  - intros c' d j Hc'. apply HP. by right.
  - unfold place.
    destruct (free_slot self (schedule st) judges start_date (range num_days))
      as [[d j]|] eqn:Hslot; [|done].
    simpl. apply Forall_app. split; [done|].
    apply Forall_singleton.
    apply free_slot_Some in Hslot as (Ho & Hwk & _ & Hj & _).
    apply HP; [left | done | done | done].
Qed.

Lemma free_judge_None sched d judges :
  free_judge self sched d judges = None →
  ∀ j, j ∈ judges →
       max_hearings_per_judge self ≤ count_judge_date (judge_id j) d sched.
Proof.
  induction judges as [|j0 rest IH]; simpl.
  - intros _ j Hj. by apply elem_of_nil in Hj.
  - case_bool_decide as Hlt; [done|]. intros Hrest j Hj.
    apply elem_of_cons in Hj as [->|Hj]; [lia | by apply IH].
Qed.

(** The judge chosen is the first of [judges] below capacity. *)
Lemma free_judge_first sched d judges j :
  free_judge self sched d judges = Some j →
  ∃ before after,
    judges = before ++ j :: after
    ∧ ∀ j', j' ∈ before →
            max_hearings_per_judge self
            ≤ count_judge_date (judge_id j') d sched.
Proof.
  induction judges as [|j0 rest IH]; simpl; [done|].
  case_bool_decide as Hlt.
  - intros [= <-]. exists [], rest. split; [done|].
    intros j' Hj'. by apply elem_of_nil in Hj'.
  - intros Hrest. destruct (IH Hrest) as (before & after & -> & Hfull).
    exists (j0 :: before), after. split; [done|].
    intros j' Hj'. apply elem_of_cons in Hj' as [->|Hj']; [lia|].
    by apply Hfull.
Qed.

Lemma free_slot_None sched judges start_date offsets :
  free_slot self sched judges start_date offsets = None →
  ∀ o, o ∈ offsets → weekday (start_date + o) < 5 →
       day_full self judges sched (start_date + o).
Proof.
  induction offsets as [|o0 rest IH]; simpl.
  - intros _ o Ho. by apply elem_of_nil in Ho.
  - intros Hnone o Ho Hwk.
    assert (Hrest : free_slot self sched judges start_date rest = None →
                    o ∈ rest →
                    day_full self judges sched (start_date + o))
      by (intros H1 H2; by apply IH).
    apply elem_of_cons in Ho as [->|Ho].
    + rewrite bool_decide_eq_false_2 in Hnone by lia.
      case_bool_decide as Hday; [by left|].
      destruct (free_judge self sched (start_date + o0) judges) eqn:Hj;
        [done|].
      right. by apply free_judge_None.
    + case_bool_decide; [by apply Hrest|].
      case_bool_decide; [by apply Hrest|].
      destruct (free_judge self sched (start_date + o0) judges);
        [done | by apply Hrest].
Qed.

(** The slot chosen is on the first day that is not full. *)
Lemma free_slot_earlier_full sched judges start_date offsets d j :
  StronglySorted Z.le offsets →
  free_slot self sched judges start_date offsets = Some (d, j) →
  ∀ o, o ∈ offsets → start_date + o < d → weekday (start_date + o) < 5 →
       day_full self judges sched (start_date + o).
Proof.
  intros Hsorted. induction Hsorted as [|o0 rest Hrest IH Hle]; [done|].
  intros Hslot o Ho Hlt Hwk.
  assert (Hpick : d = start_date + o0 →
                  day_full self judges sched (start_date + o)).
  { intros ->. apply elem_of_cons in Ho as [->|Ho]; [lia|].
    rewrite Forall_forall in Hle. specialize (Hle o Ho). lia. }
  simpl in Hslot.
  destruct (bool_decide (5 ≤ weekday (start_date + o0))) eqn:Hwk0.
  { apply bool_decide_eq_true in Hwk0.
    apply elem_of_cons in Ho as [->|Ho]; [lia | by apply IH]. }
  destruct (bool_decide
              (max_hearings_per_day self ≤ count_date (start_date + o0) sched))
    eqn:Hday.
  { apply bool_decide_eq_true in Hday.
    apply elem_of_cons in Ho as [->|Ho]; [by left | by apply IH]. }
  destruct (free_judge self sched (start_date + o0) judges) as [j0|] eqn:Hj.
  { injection Hslot as <- <-. by apply Hpick. }
  apply elem_of_cons in Ho as [->|Ho]; [|by apply IH].
  right. by apply free_judge_None.
Qed.

Lemma day_full_lighter judges s s' d :
  lighter s s' → day_full self judges s d → day_full self judges s' d.
Proof.
  intros [Hd Hjd] [Hday|Hjudges].
  - left. specialize (Hd d). lia.
  - right. intros j Hj. specialize (Hjudges j Hj).
    specialize (Hjd (judge_id j) d). lia.
Qed.

Lemma lighter_refl s : lighter s s.
Proof. split; intros; lia. Qed.

Lemma lighter_trans s1 s2 s3 : lighter s1 s2 → lighter s2 s3 → lighter s1 s3.
Proof.
  intros [Hd Hjd] [Hd' Hjd']. split.
  - intros d. specialize (Hd d). specialize (Hd' d). lia.
  - intros j d. specialize (Hjd j d). specialize (Hjd' j d). lia.
Qed.

(** An invariant of the loop that survives further bookings. *)
Lemma place_all_invariant cases_df judges start_date num_days cases st
    (I : list Hearing → Hearing → Prop) :
  (∀ s s' h, lighter s s' → I s h → I s' h) →
  (∀ s c d j,
     free_slot self s judges start_date (range num_days) = Some (d, j) →
     I s (booking self cases_df c d j)) →
  Forall (I (schedule st)) (schedule st) →
  let final :=
    schedule (place_all self cases_df judges start_date num_days cases st) in
  Forall (I final) final.
Proof.
  intros Hmono Hbook. revert st.
  induction cases as [|c cases IH]; intros st Hst; [done|].
  cbv zeta. rewrite place_all_cons. apply IH. unfold place.
  destruct (free_slot self (schedule st) judges start_date (range num_days))
    as [[d j]|] eqn:Hslot; [|done].
  simpl. apply Forall_app. split.
  - eapply Forall_impl; [exact Hst|].
    intros h. apply Hmono, lighter_app.
  - apply Forall_singleton.
    eapply Hmono; [apply lighter_app | by apply Hbook].
Qed.

(** The scheduled cases are the first [k] of the list, the others are
    warned about. *)
Lemma place_all_prefix cases_df judges start_date num_days cases st :
  ∃ k booked,
    schedule (place_all self cases_df judges start_date num_days cases st)
    = schedule st ++ booked
    ∧ h_case_id <$> booked = case_id <$> take k cases
    ∧ h_case_number <$> booked = case_number <$> take k cases
    ∧ warnings (place_all self cases_df judges start_date num_days cases st)
      = warnings st ++ (case_number <$> drop k cases).
Proof.
  revert st. induction cases as [|c cases IH]; intros st.
  - exists 0%nat, []. by rewrite !app_nil_r.
  - destruct (free_slot self (schedule st) judges start_date (range num_days))
      as [[d j]|] eqn:Hslot.
    + rewrite place_all_cons. unfold place. rewrite Hslot.
      destruct (IH (book self cases_df c d j st))
        as (k & booked & -> & Hids & Hnums & ->).
      exists (S k), (booking self cases_df c d j :: booked).
      split; [simpl; by rewrite <- app_assoc|].
      split; [rewrite fmap_cons, Hids; done|].
      split; [rewrite fmap_cons, Hnums; done | done].
    + exists 0%nat, []. rewrite place_all_warnings by done.
      simpl. by rewrite app_nil_r.
Qed.

(** Once a case was warned about, no slot is free any more. *)
Lemma place_all_warned cases_df judges start_date num_days cases st :
  (warnings st ≠ [] →
   free_slot self (schedule st) judges start_date (range num_days) = None) →
  let final := place_all self cases_df judges start_date num_days cases st in
  warnings final ≠ [] →
  free_slot self (schedule final) judges start_date (range num_days) = None.
Proof.
  revert st. induction cases as [|c cases IH]; intros st Hst; [done|].
  cbv zeta. rewrite place_all_cons. apply IH. unfold place.
  destruct (free_slot self (schedule st) judges start_date (range num_days))
    as [[d j]|] eqn:Hslot; simpl.
  - intros Hw. specialize (Hst Hw). congruence.
  - done.
Qed.

End HeuristicRows.

Lemma for_each_unchanged {A S} (body : S → A → result S) (xs : list A)
    (s : S) :
  (∀ x, x ∈ xs → body s x = Ok s) → for_each body xs s = Ok s.
Proof.
  induction xs as [|x xs IH]; intros Hbody; simpl; [done|].
  rewrite Hbody by left. simpl. apply IH. intros y Hy. apply Hbody. by right.
Qed.

Lemma free_slot_Some_judge self sched judges start_date offsets d j :
  free_slot self sched judges start_date offsets = Some (d, j) →
  free_judge self sched d judges = Some j.
Proof.
  induction offsets as [|o rest IH]; simpl; [done|].
  case_bool_decide; [done|]. case_bool_decide; [done|].
  destruct (free_judge self sched (start_date + o) judges) as [j'|] eqn:Hj;
    [|done].
  by intros [= <- <-].
Qed.

Lemma heuristic_schedule_eq (sort_values : list Case → list Case) self
    cases_df judges_df start_date num_days :
  ∃ final,
    final = place_all self cases_df judges_df start_date num_days
              (processing_order sort_values cases_df)
              (initial_state judges_df start_date num_days)
    ∧ schedule_hearings_heuristic sort_values self cases_df judges_df
        start_date num_days = Ok (DataFrame (schedule final))
    ∧ heuristic_warnings sort_values self cases_df judges_df start_date
        num_days = Ok (warnings final).
Proof.
  eexists. split; [done|]. split.
  - apply schedule_hearings_heuristic_eq.
  - unfold heuristic_warnings. by rewrite heuristic_loop_place_all.
Qed.

Lemma validate_no_weekends_weekdays sched :
  Forall (λ h, weekday (hearing_date h) < 5) sched →
  _validate_no_weekends (DataFrame sched) = Ok [].
Proof.
  intros Hwk. unfold _validate_no_weekends.
  apply for_each_unchanged. intros row Hrow.
  rewrite rows_DataFrame in Hrow.
  destruct sched as [|h sched]; [by apply elem_of_nil in Hrow|].
  change (DataFrame (h :: sched))
    with {| columns := schedule_columns; rows := h :: sched |}.
  change (row_get {| columns := schedule_columns; rows := h :: sched |}
            "hearing_date" hearing_date row) with (Ok (hearing_date row)).
  simpl. rewrite bool_decide_eq_false_2; [done|].
  rewrite Forall_forall in Hwk. specialize (Hwk row Hrow). lia.
Qed.

(** X2.  Whatever the heuristic returns, the empty schedule included,
    passes a rule set that holds the [no_weekends] rule alone:
    [validate_schedule] returns [(True, [])] and does not raise. *)
Theorem heuristic_schedule_passes_no_weekends (today : Z)
    (sort_values : list Case → list Case) (self : HearingScheduler)
    (cases_df : CasesDF) (judges_df : list Judge) (start_date num_days : Z) :
  ∃ schedule_df,
    schedule_hearings_heuristic sort_values self cases_df judges_df
      start_date num_days = Ok schedule_df
    ∧ validate_schedule today (add_no_weekend_scheduling init) schedule_df
        judges_df = Ok (true, []).
Proof.
  eexists. split; [apply schedule_hearings_heuristic_eq|].
  unfold validate_schedule. cbn [constraints add_no_weekend_scheduling
    append init app for_each validate_constraint].
  rewrite validate_no_weekends_weekdays; [done|].
  apply place_all_Forall; [|done].
  by intros c d j _ _ Hwk _.
Qed.

(** X3.  Every row of the heuristic's schedule pairs a row of [cases_df]
    with a row of [judges_df]: it carries the id and number of that case,
    the id and name of that judge, the case's priority ([50] when
    [cases_df] has no [priority_score] column) and the scheduler's average
    hearing duration. *)
Theorem heuristic_rows_come_from_inputs
    (sort_values : list Case → list Case) (self : HearingScheduler)
    (cases_df : CasesDF) (judges_df : list Judge) (start_date num_days : Z) :
  (∀ l, sort_values l ≡ₚ l) →
  ∃ schedule_df,
    schedule_hearings_heuristic sort_values self cases_df judges_df
      start_date num_days = Ok schedule_df
    ∧ ∀ h, h ∈ rows schedule_df →
        ∃ c j, c ∈ case_rows cases_df ∧ j ∈ judges_df
               ∧ h_case_id h = case_id c
               ∧ h_case_number h = case_number c
               ∧ h_judge_id h = judge_id j
               ∧ h_judge_name h = judge_name j
               ∧ h_priority_score h
                 = (if has_priority_score cases_df
                    then priority_score c else 50%Q)
               ∧ estimated_duration_hours h = avg_hearing_duration self.
Proof.
  intros Hperm.
  eexists. split; [apply schedule_hearings_heuristic_eq|].
  rewrite rows_DataFrame. apply Forall_forall.
  apply place_all_Forall; [|done].
  intros c d j Hc _ _ Hj. exists c, j.
  rewrite (processing_order_perm sort_values cases_df Hperm) in Hc.
  by repeat split.
Qed.

Lemma heuristic_rows_come_from_inputs_witness :
  (∀ l, stable_sort_values l ≡ₚ l)
  ∧ ∃ schedule_df h c j,
      schedule_hearings_heuristic stable_sort_values two_per_judge
        three_cases [judge_A] monday 5 = Ok schedule_df
      ∧ h ∈ rows schedule_df
      ∧ c ∈ case_rows three_cases ∧ j ∈ [judge_A]
      ∧ h_case_id h = case_id c
      ∧ h_judge_id h = judge_id j
      ∧ h_priority_score h = priority_score c.
Proof.
  split; [exact stable_sort_values_perm|].
  destruct (heuristic_rows_come_from_inputs stable_sort_values two_per_judge
              three_cases [judge_A] monday 5 stable_sort_values_perm)
    as (df & Hdf & Hrows).
  assert (Hex : ∃ h, h ∈ rows df).
  { vm_compute in Hdf. injection Hdf as <-. eexists. left. }
  destruct Hex as [h Hh].
  destruct (Hrows h Hh) as (c & j & Hc & Hj & H1 & _ & H3 & _ & H5 & _).
  exists df, h, c, j. by repeat split.
Defined.

(** X4.  The heuristic schedules a prefix of the processing order: the
    cases split into the scheduled ones, which are the rows of the schedule
    in that order, and the unscheduled ones, which are the cases warned
    about; and no unscheduled case has a higher priority than a scheduled
    one. *)
Theorem heuristic_schedules_a_priority_prefix
    (sort_values : list Case → list Case) (self : HearingScheduler)
    (cases_df : CasesDF) (judges_df : list Judge) (start_date num_days : Z) :
  (∀ l, sort_values l ≡ₚ l) →
  (∀ l, descending (sort_values l)) →
  has_priority_score cases_df = true →
  ∃ schedule_df unscheduled_numbers scheduled unscheduled,
    schedule_hearings_heuristic sort_values self cases_df judges_df
      start_date num_days = Ok schedule_df
    ∧ heuristic_warnings sort_values self cases_df judges_df start_date
        num_days = Ok unscheduled_numbers
    ∧ scheduled ++ unscheduled ≡ₚ case_rows cases_df
    ∧ h_case_id <$> rows schedule_df = case_id <$> scheduled
    ∧ h_case_number <$> rows schedule_df = case_number <$> scheduled
    ∧ unscheduled_numbers = case_number <$> unscheduled
    ∧ ∀ a b, a ∈ scheduled → b ∈ unscheduled →
             (priority_score b <= priority_score a)%Q.
Proof.
  intros Hperm Hsorted Hcol.
  destruct (heuristic_schedule_eq sort_values self cases_df judges_df
              start_date num_days) as (final & Hfinal & -> & ->).
  destruct (place_all_prefix self cases_df judges_df start_date num_days
              (processing_order sort_values cases_df)
              (initial_state judges_df start_date num_days))
    as (k & booked & Hsched & Hids & Hnums & Hwarn).
  rewrite <- Hfinal in Hsched, Hwarn. simpl in Hsched, Hwarn.
  exists (DataFrame (schedule final)), (warnings final),
    (take k (processing_order sort_values cases_df)),
    (drop k (processing_order sort_values cases_df)).
  rewrite rows_DataFrame, Hsched, take_drop.
  split; [done|]. split; [done|].
  split; [by apply processing_order_perm|].
  split; [done|]. split; [done|]. split; [done|].
  intros a b Ha Hb.
  assert (Htrans : Transitive
            (λ a b : Case, (priority_score b <= priority_score a)%Q)).
  { intros x y z Hxy Hyz. by eapply Qle_trans. }
  assert (HS : StronglySorted
            (λ a b : Case, (priority_score b <= priority_score a)%Q)
            (take k (processing_order sort_values cases_df)
             ++ drop k (processing_order sort_values cases_df))).
  { rewrite take_drop. apply (@Sorted_StronglySorted _ _ Htrans).
    unfold processing_order. rewrite Hcol. apply Hsorted. }
  exact (StronglySorted_app_1_elem_of _ _ _ a b HS Ha Hb).
Qed.

Lemma heuristic_schedules_a_priority_prefix_witness :
  ((∀ l, stable_sort_values l ≡ₚ l)
   ∧ (∀ l, descending (stable_sort_values l))
   ∧ has_priority_score three_cases = true)
  ∧ ∃ schedule_df unscheduled_numbers scheduled unscheduled,
      schedule_hearings_heuristic stable_sort_values one_per_day
        three_cases [judge_A] monday 2 = Ok schedule_df
      ∧ heuristic_warnings stable_sort_values one_per_day three_cases
          [judge_A] monday 2 = Ok unscheduled_numbers
      ∧ scheduled ++ unscheduled ≡ₚ case_rows three_cases
      ∧ h_case_id <$> rows schedule_df = case_id <$> scheduled
      ∧ h_case_number <$> rows schedule_df = case_number <$> scheduled
      ∧ unscheduled_numbers = case_number <$> unscheduled
      ∧ ∀ a b, a ∈ scheduled → b ∈ unscheduled →
               (priority_score b <= priority_score a)%Q.
Proof.
  split.
  - split; [exact stable_sort_values_perm|].
    split; [exact stable_sort_values_descending | done].
  - exact (heuristic_schedules_a_priority_prefix stable_sort_values
             one_per_day three_cases [judge_A] monday 2
             stable_sort_values_perm stable_sort_values_descending eq_refl).
Defined.

(** In that run the case of priority 10 is the one left out. *)
Example prefix_run :
  (match schedule_hearings_heuristic stable_sort_values one_per_day
           three_cases [judge_A] monday 2 with
   | Ok df => Some (h_case_id <$> rows df) | Raise _ => None end,
   heuristic_warnings stable_sort_values one_per_day three_cases
     [judge_A] monday 2)
  = (Some [2; 3], Ok ["C-1"%string]).
Proof. by vm_compute. Qed.

Section HeuristicOrder.

Variable self : HearingScheduler.

Lemma place_all_sorted cases_df judges start_date num_days cases st :
  StronglySorted Z.le (hearing_date <$> schedule st) →
  Forall (λ h, ∀ s d j, lighter (schedule st) s →
            free_slot self s judges start_date (range num_days) = Some (d, j) →
            hearing_date h ≤ d) (schedule st) →
  StronglySorted Z.le
    (hearing_date <$> schedule
       (place_all self cases_df judges start_date num_days cases st)).
Proof.
  revert st. induction cases as [|c cases IH]; intros st Hsorted Hinv; [done|].
  rewrite place_all_cons. unfold place.
  destruct (free_slot self (schedule st) judges start_date (range num_days))
    as [[d j]|] eqn:Hslot; [|by apply IH].
  apply IH; simpl.
  - rewrite fmap_app. apply StronglySorted_app_2.
    + intros x1 x2 Hx1 Hx2. apply list_elem_of_fmap in Hx1 as (h & -> & Hh).
      apply list_elem_of_singleton in Hx2 as ->. simpl.
      rewrite Forall_forall in Hinv.
      exact (Hinv h Hh (schedule st) d j (lighter_refl _) Hslot).
    + done.
    + repeat constructor.
  - apply Forall_app. split.
    + eapply Forall_impl; [exact Hinv|]. intros h Hh s d' j' Hl.
      apply Hh. eapply lighter_trans; [apply lighter_app | exact Hl].
    + apply Forall_singleton. intros s d' j' Hl Hs. simpl.
      assert (Hl' : lighter (schedule st) s).
      { eapply lighter_trans; [apply lighter_app | exact Hl]. }
      destruct (free_slot_lighter self _ _ judges start_date (range num_days)
                  d' j' Hl' (range_sorted num_days) Hs)
        as (d0 & j0 & Hs0 & Hle).
      rewrite Hslot in Hs0. injection Hs0 as <- <-. done.
Qed.

End HeuristicOrder.

(** X5.  The rows of the heuristic's schedule are in non-decreasing order
    of [hearing_date]: a case processed later never gets an earlier day. *)
Theorem heuristic_schedule_sorted_by_date
    (sort_values : list Case → list Case) (self : HearingScheduler)
    (cases_df : CasesDF) (judges_df : list Judge) (start_date num_days : Z) :
  ∃ schedule_df,
    schedule_hearings_heuristic sort_values self cases_df judges_df
      start_date num_days = Ok schedule_df
    ∧ StronglySorted Z.le (hearing_date <$> rows schedule_df).
Proof.
  eexists. split; [apply schedule_hearings_heuristic_eq|].
  rewrite rows_DataFrame.
  apply place_all_sorted; simpl; [constructor | done].
Qed.

(** X6.  The heuristic fills the judges in the order of [judges_df]: a
    hearing is given to a judge only when every judge listed before him
    has [max_hearings_per_judge] hearings on that day. *)
Theorem heuristic_fills_judges_in_order
    (sort_values : list Case → list Case) (self : HearingScheduler)
    (cases_df : CasesDF) (judges_df : list Judge) (start_date num_days : Z) :
  ∃ schedule_df,
    schedule_hearings_heuristic sort_values self cases_df judges_df
      start_date num_days = Ok schedule_df
    ∧ ∀ h, h ∈ rows schedule_df →
        ∃ before j after,
          judges_df = before ++ j :: after
          ∧ h_judge_id h = judge_id j ∧ h_judge_name h = judge_name j
          ∧ ∀ j', j' ∈ before →
                  max_hearings_per_judge self
                  ≤ count_judge_date (judge_id j') (hearing_date h)
                      (rows schedule_df).
Proof.
  eexists. split; [apply schedule_hearings_heuristic_eq|].
  rewrite rows_DataFrame. apply Forall_forall.
  apply (place_all_invariant self cases_df judges_df start_date num_days _ _
    (λ s h, ∃ before j after,
       judges_df = before ++ j :: after
       ∧ h_judge_id h = judge_id j ∧ h_judge_name h = judge_name j
       ∧ ∀ j', j' ∈ before →
               max_hearings_per_judge self
               ≤ count_judge_date (judge_id j') (hearing_date h) s)).
  - intros s s' h [_ Hjd] (before & j & after & Hsplit & Hid & Hname & Hfull).
    exists before, j, after. repeat split; [done..|].
    intros j' Hj'. specialize (Hfull j' Hj').
    specialize (Hjd (judge_id j') (hearing_date h)). lia.
  - intros s c d j Hslot. apply free_slot_Some_judge in Hslot.
    apply free_judge_first in Hslot as (before & after & Hsplit & Hfull).
    exists before, j, after. by repeat split.
  - done.
Qed.

Lemma heuristic_fills_judges_in_order_witness :
  ∃ schedule_df h before j after,
    schedule_hearings_heuristic stable_sort_values one_per_judge three_cases
      [judge_A; judge_B] monday 5 = Ok schedule_df
    ∧ h ∈ rows schedule_df
    ∧ [judge_A; judge_B] = before ++ j :: after
    ∧ h_judge_id h = judge_id j
    ∧ ∀ j', j' ∈ before →
            max_hearings_per_judge one_per_judge
            ≤ count_judge_date (judge_id j') (hearing_date h)
                (rows schedule_df).
Proof.
  destruct (heuristic_fills_judges_in_order stable_sort_values one_per_judge
              three_cases [judge_A; judge_B] monday 5)
    as (df & Hdf & Hrows).
  assert (Hex : ∃ h, h ∈ rows df).
  { vm_compute in Hdf. injection Hdf as <-. eexists. right. left. }
  destruct Hex as [h Hh].
  destruct (Hrows h Hh) as (before & j & after & H1 & H2 & _ & H4).
  by exists df, h, before, j, after.
Defined.

(** X7.  The heuristic books the earliest open day: every weekday of the
    horizon before the day of a hearing is full in the schedule (the court
    at [max_hearings_per_day], or every judge at
    [max_hearings_per_judge]). *)
Theorem heuristic_books_earliest_open_day
    (sort_values : list Case → list Case) (self : HearingScheduler)
    (cases_df : CasesDF) (judges_df : list Judge) (start_date num_days : Z) :
  ∃ schedule_df,
    schedule_hearings_heuristic sort_values self cases_df judges_df
      start_date num_days = Ok schedule_df
    ∧ ∀ h d, h ∈ rows schedule_df →
        start_date ≤ d < hearing_date h → weekday d < 5 →
        day_full self judges_df (rows schedule_df) d.
Proof.
  eexists. split; [apply schedule_hearings_heuristic_eq|].
  rewrite rows_DataFrame. intros h d Hh.
  revert d. revert h Hh.
  apply (proj1 (Forall_forall
    (λ h, ∀ d, start_date ≤ d < hearing_date h → weekday d < 5 →
               day_full self judges_df _ d) _)).
  apply (place_all_invariant self cases_df judges_df start_date num_days _ _
    (λ s h, ∀ d, start_date ≤ d < hearing_date h → weekday d < 5 →
                 day_full self judges_df s d)).
  - intros s s' h Hl Hfull d Hd Hwk. eapply day_full_lighter; [exact Hl|].
    by apply Hfull.
  - intros s c d j Hslot d' Hd' Hwk. simpl in Hd'.
    replace d' with (start_date + (d' - start_date)) by lia.
    apply (free_slot_earlier_full self s judges_df start_date
             (range num_days) d j (range_sorted num_days) Hslot).
    + apply free_slot_Some in Hslot as ((o & Ho & ->) & _).
      apply elem_of_seqZ in Ho. apply elem_of_seqZ. lia.
    + lia.
    + by replace (start_date + (d' - start_date)) with d' by lia.
  - done.
Qed.

Lemma heuristic_books_earliest_open_day_witness :
  ∃ schedule_df h,
    schedule_hearings_heuristic stable_sort_values one_per_day three_cases
      [judge_A] monday 5 = Ok schedule_df
    ∧ h ∈ rows schedule_df
    ∧ monday ≤ monday < hearing_date h ∧ weekday monday < 5
    ∧ day_full one_per_day [judge_A] (rows schedule_df) monday.
Proof.
  destruct (heuristic_books_earliest_open_day stable_sort_values one_per_day
              three_cases [judge_A] monday 5)
    as (df & Hdf & Hrows).
  assert (Hex : ∃ h, h ∈ rows df ∧ monday ≤ monday < hearing_date h).
  { vm_compute in Hdf. injection Hdf as <-. eexists. split.
    - right. left.
    - by vm_compute. }
  destruct Hex as (h & Hh & Hd).
  assert (Hwk : weekday monday < 5) by done.
  exists df, h. split; [done|]. split; [done|]. split; [done|].
  split; [done|]. exact (Hrows h monday Hh Hd Hwk).
Defined.

(** X8.  A case is left unscheduled only when the horizon is exhausted: if
    the heuristic warns about any case, every weekday of the horizon is
    full in the schedule it returns. *)
Theorem unscheduled_only_when_horizon_full
    (sort_values : list Case → list Case) (self : HearingScheduler)
    (cases_df : CasesDF) (judges_df : list Judge) (start_date num_days : Z) :
  ∃ schedule_df unscheduled,
    schedule_hearings_heuristic sort_values self cases_df judges_df
      start_date num_days = Ok schedule_df
    ∧ heuristic_warnings sort_values self cases_df judges_df start_date
        num_days = Ok unscheduled
    ∧ (unscheduled ≠ [] →
       ∀ d, start_date ≤ d < start_date + num_days → weekday d < 5 →
            day_full self judges_df (rows schedule_df) d).
Proof.
  destruct (heuristic_schedule_eq sort_values self cases_df judges_df
              start_date num_days) as (final & Hfinal & -> & ->).
  eexists _, _. split; [done|]. split; [done|].
  rewrite rows_DataFrame. intros Hw d Hd Hwk.
  assert (Hnone : free_slot self (schedule final) judges_df start_date
                    (range num_days) = None).
  { rewrite Hfinal in Hw |- *. by apply place_all_warned. }
  replace d with (start_date + (d - start_date)) by lia.
  apply (free_slot_None self _ _ _ _ Hnone).
  - apply elem_of_seqZ. lia.
  - by replace (start_date + (d - start_date)) with d by lia.
Qed.

Lemma unscheduled_only_when_horizon_full_witness :
  ∃ schedule_df unscheduled,
    schedule_hearings_heuristic stable_sort_values one_per_day three_cases
      [judge_A] monday 2 = Ok schedule_df
    ∧ heuristic_warnings stable_sort_values one_per_day three_cases
        [judge_A] monday 2 = Ok unscheduled
    ∧ unscheduled ≠ []
    ∧ (monday ≤ monday + 1 < monday + 2 ∧ weekday (monday + 1) < 5)
    ∧ day_full one_per_day [judge_A] (rows schedule_df) (monday + 1).
Proof.
  destruct (unscheduled_only_when_horizon_full stable_sort_values one_per_day
              three_cases [judge_A] monday 2)
    as (df & ws & Hdf & Hws & Hfull).
  assert (Hne : ws ≠ []).
  { vm_compute in Hws. by injection Hws as <-. }
  assert (Hd : monday ≤ monday + 1 < monday + 2) by done.
  assert (Hwk : weekday (monday + 1) < 5) by done.
  exists df, ws. split; [done|]. split; [done|]. split; [done|].
  split; [done|]. exact (Hfull Hne (monday + 1) Hd Hwk).
Defined.

(** * Further properties of the constraint validator *)

Lemma bind_filter_fmap {A B} (P : A → Prop) `{∀ x, Decision (P x)}
    (f : A → B) (l : list A) :
  l ≫= (λ x, if bool_decide (P x) then [f x] else []) = f <$> filter P l.
Proof.
  induction l as [|x l IH]; [done|].
  rewrite bind_cons, filter_cons, IH.
  case_bool_decide; [by rewrite decide_True | by rewrite decide_False].
Qed.

Lemma row_get_column {A} df name (field : Hearing → A) row :
  has_column df name = true → row_get df name field row = Ok (field row).
Proof. unfold row_get. by intros ->. Qed.

Lemma row_get_no_column {A} df name (field : Hearing → A) row :
  has_column df name = false →
  row_get df name field row = Raise (KeyError name).
Proof. unfold row_get. by intros ->. Qed.

Lemma for_each_raise_first {A S} (body : S → A → result S) x xs s e :
  body s x = Raise e → for_each body (x :: xs) s = Raise e.
Proof. simpl. by intros ->. Qed.

(** X9.  [_validate_no_weekends] reports exactly the hearings on a Saturday
    or Sunday, one violation for each such row, in the order of the rows.
    It reads the columns row by row: a frame without rows passes whatever
    its columns are, and a frame with rows and no [hearing_date] column
    raises [KeyError]. *)
Theorem validate_no_weekends_reports_weekend_rows (schedule_df : ScheduleDF) :
  (has_column schedule_df "hearing_date" = true →
   has_column schedule_df "case_number" = true →
   _validate_no_weekends schedule_df
   = Ok ((λ row, OnWeekend (h_case_number row) (hearing_date row))
           <$> filter (λ row, 5 ≤ weekday (hearing_date row))
                 (rows schedule_df)))
  ∧ (rows schedule_df = [] → _validate_no_weekends schedule_df = Ok [])
  ∧ (rows schedule_df ≠ [] →
     has_column schedule_df "hearing_date" = false →
     _validate_no_weekends schedule_df = Raise (KeyError "hearing_date")).
Proof.
  unfold _validate_no_weekends. split; [|split].
  - intros Hdate Hnum.
    rewrite (for_each_collect _ (λ row,
      if bool_decide (5 ≤ weekday (hearing_date row))
      then [OnWeekend (h_case_number row) (hearing_date row)] else [])).
    + simpl. f_equal. apply bind_filter_fmap.
    + intros acc row _. rewrite (row_get_column _ _ _ _ Hdate). simpl.
      case_bool_decide; [|by rewrite app_nil_r].
      by rewrite (row_get_column _ _ _ _ Hnum).
  - by intros ->.
  - intros Hne Hdate. destruct (rows schedule_df) as [|row rest]; [done|].
    apply for_each_raise_first. by rewrite (row_get_no_column _ _ _ _ Hdate).
Qed.

Lemma validate_no_weekends_reports_weekend_rows_witness :
  let saturday_frame :=
    {| columns := schedule_columns;
       rows := [{| h_case_id := 1; h_case_number := "C-1"; h_judge_id := 1;
                   h_judge_name := "A"; hearing_date := monday + 5;
                   h_priority_score := 50; estimated_duration_hours := 1 # 2 |};
                {| h_case_id := 2; h_case_number := "C-2"; h_judge_id := 1;
                   h_judge_name := "A"; hearing_date := monday;
                   h_priority_score := 50; estimated_duration_hours := 1 # 2 |}]
    |} in
  (has_column saturday_frame "hearing_date" = true
   ∧ has_column saturday_frame "case_number" = true)
  ∧ _validate_no_weekends saturday_frame = Ok [OnWeekend "C-1" (monday + 5)].
Proof.
  intros df.
  assert (H1 : has_column df "hearing_date" = true) by done.
  assert (H2 : has_column df "case_number" = true) by done.
  split; [done|].
  exact (proj1 (validate_no_weekends_reports_weekend_rows df) H1 H2).
Defined.

(** X10.  [_validate_holiday_exclusion] reports exactly the hearings whose
    date is one of [holidays], one violation for each such row, in the order
    of the rows; a frame without rows passes, and a frame with rows and no
    [hearing_date] column raises [KeyError]. *)
Theorem validate_holiday_exclusion_reports_holiday_rows
    (schedule_df : ScheduleDF) (holidays : list Z) :
  (has_column schedule_df "hearing_date" = true →
   has_column schedule_df "case_number" = true →
   _validate_holiday_exclusion schedule_df holidays
   = Ok ((λ row, OnHoliday (h_case_number row) (hearing_date row))
           <$> filter (λ row, hearing_date row ∈ holidays)
                 (rows schedule_df)))
  ∧ (rows schedule_df = [] →
     _validate_holiday_exclusion schedule_df holidays = Ok [])
  ∧ (rows schedule_df ≠ [] →
     has_column schedule_df "hearing_date" = false →
     _validate_holiday_exclusion schedule_df holidays
     = Raise (KeyError "hearing_date")).
Proof.
  unfold _validate_holiday_exclusion. split; [|split].
  - intros Hdate Hnum.
    rewrite (for_each_collect _ (λ row,
      if bool_decide (hearing_date row ∈ holidays)
      then [OnHoliday (h_case_number row) (hearing_date row)] else [])).
    + simpl. f_equal. apply bind_filter_fmap.
    + intros acc row _. rewrite (row_get_column _ _ _ _ Hdate). simpl.
      case_bool_decide; [|by rewrite app_nil_r].
      by rewrite (row_get_column _ _ _ _ Hnum).
  - by intros ->.
  - intros Hne Hdate. destruct (rows schedule_df) as [|row rest]; [done|].
    apply for_each_raise_first. by rewrite (row_get_no_column _ _ _ _ Hdate).
Qed.

Lemma validate_holiday_exclusion_reports_holiday_rows_witness :
  ∃ schedule_df,
    schedule_hearings_heuristic stable_sort_values one_per_judge three_cases
      [judge_A] monday 5 = Ok schedule_df
    ∧ (has_column schedule_df "hearing_date" = true
       ∧ has_column schedule_df "case_number" = true)
    ∧ _validate_holiday_exclusion schedule_df [monday + 1]
      = Ok [OnHoliday "C-3" (monday + 1)].
Proof.
  eexists. split; [by vm_compute|].
  match goal with |- _ ∧ _validate_holiday_exclusion ?df _ = _ =>
    assert (H1 : has_column df "hearing_date" = true) by done;
    assert (H2 : has_column df "case_number" = true) by done;
    split; [done|];
    exact (proj1 (validate_holiday_exclusion_reports_holiday_rows df
                    [monday + 1]) H1 H2)
  end.
Defined.

(** X11.  [_validate_priority_deadline] reports exactly the rows whose
    priority is at least the threshold and whose date is later than
    [today + max_days], in the order of the rows; when the schedule has no
    [priority_score] column the rule reports nothing. *)
Theorem validate_priority_deadline_reports_late_rows (today : Z)
    (schedule_df : ScheduleDF) (threshold : Q) (max_days : Z) :
  (has_column schedule_df "priority_score" = true →
   has_column schedule_df "hearing_date" = true →
   has_column schedule_df "case_number" = true →
   _validate_priority_deadline today schedule_df threshold max_days
   = Ok ((λ row, BeyondDeadline (h_case_number row) (h_priority_score row)
                   max_days)
           <$> filter (λ row, today + max_days < hearing_date row)
                 (filter (λ row, Qle_bool threshold (h_priority_score row))
                    (rows schedule_df))))
  ∧ (has_column schedule_df "priority_score" = false →
     _validate_priority_deadline today schedule_df threshold max_days
     = Ok []).
Proof.
  unfold _validate_priority_deadline. split.
  - intros Hpri Hdate Hnum. rewrite Hpri. simpl.
    rewrite (for_each_collect _ (λ row,
      if bool_decide (today + max_days < hearing_date row)
      then [BeyondDeadline (h_case_number row) (h_priority_score row)
              max_days]
      else [])).
    + simpl. f_equal. apply bind_filter_fmap.
    + intros acc row _. rewrite (row_get_column _ _ _ _ Hdate). simpl.
      case_bool_decide; [|by rewrite app_nil_r].
      by rewrite (row_get_column _ _ _ _ Hnum),
                 (row_get_column _ _ _ _ Hpri).
  - by intros ->.
Qed.

Lemma validate_priority_deadline_reports_late_rows_witness :
  ∃ schedule_df,
    schedule_hearings_heuristic stable_sort_values one_per_judge three_cases
      [judge_A] monday 5 = Ok schedule_df
    ∧ (has_column schedule_df "priority_score" = true
       ∧ has_column schedule_df "hearing_date" = true
       ∧ has_column schedule_df "case_number" = true)
    ∧ _validate_priority_deadline (monday - 1) schedule_df 40 1
      = Ok [BeyondDeadline "C-3" 50 1].
Proof.
  eexists. split; [by vm_compute|].
  match goal with |- _ ∧ _validate_priority_deadline _ ?df _ _ = _ =>
    assert (H1 : has_column df "priority_score" = true) by done;
    assert (H2 : has_column df "hearing_date" = true) by done;
    assert (H3 : has_column df "case_number" = true) by done;
    split; [done|];
    exact (proj1 (validate_priority_deadline_reports_late_rows (monday - 1)
                    df 40 1) H1 H2 H3)
  end.
Defined.

Lemma elem_of_bind_guard {A B} (P : A → Prop) `{∀ x, Decision (P x)}
    (f : A → B) (l : list A) (y : B) :
  y ∈ l ≫= (λ x, if bool_decide (P x) then [f x] else [])
  ↔ ∃ x, x ∈ l ∧ P x ∧ y = f x.
Proof.
  rewrite bind_filter_fmap, list_elem_of_fmap.
  split.
  - intros (x & -> & Hx). apply list_elem_of_filter in Hx as [HP Hx].
    by exists x.
  - intros (x & Hx & HP & ->). exists x. split; [done|].
    by apply list_elem_of_filter.
Qed.

Lemma groupby_size_spec `{EqDecision K} (le : K → K → Prop)
    `{∀ a b, Decision (le a b)} (keys : list K) (k : K) (n : Z) :
  (k, n) ∈ groupby_size le keys
  ↔ k ∈ keys ∧ n = Z.of_nat (length (filter (λ k', k' = k) keys)).
Proof.
  split; [apply groupby_size_elem|].
  intros [Hk ->]. unfold groupby_size.
  apply list_elem_of_fmap. exists k. split; [done|].
  rewrite merge_sort_Permutation. by apply elem_of_remove_dups.
Qed.

Lemma groupby_size_NoDup `{EqDecision K} (le : K → K → Prop)
    `{∀ a b, Decision (le a b)} (keys : list K) :
  NoDup (fst <$> groupby_size le keys).
Proof.
  unfold groupby_size.
  assert (Hfst : ∀ (g : K → Z) (l : list K),
            fst <$> ((λ k, (k, g k)) <$> l) = l).
  { intros g l. induction l as [|x l IH]; [done|]. simpl. by f_equal. }
  rewrite Hfst, merge_sort_Permutation. apply NoDup_remove_dups.
Qed.

Lemma NoDup_bind_guard {A B} (P : A → Prop) `{∀ x, Decision (P x)}
    (f : A → B) (l : list A) :
  Inj eq eq f → NoDup l →
  NoDup (l ≫= (λ x, if bool_decide (P x) then [f x] else [])).
Proof.
  intros Hinj Hl. rewrite bind_filter_fmap.
  apply (NoDup_fmap_2 f). by apply NoDup_filter.
Qed.

Lemma NoDup_bind_guard_ext {A B} (g : A → list B) (P : A → Prop)
    `{∀ x, Decision (P x)} (f : A → B) (l : list A) :
  (∀ x, g x = if bool_decide (P x) then [f x] else []) →
  Inj eq eq f → NoDup l → NoDup (l ≫= g).
Proof.
  intros Hg Hinj Hl.
  rewrite (list_bind_ext g _ l l Hg eq_refl). by apply NoDup_bind_guard.
Qed.

(** X12.  The two capacity rules report exactly the groups over the limit:
    [_validate_max_hearings_per_day] returns one violation for each date of
    the schedule that has more than [max_allowed] hearings, with the true
    count, and [_validate_max_hearings_per_judge] one for each (judge, date)
    pair of the schedule over the limit; nothing else is reported, and no
    group is reported twice. *)
Theorem capacity_rules_report_exactly_the_overfull_groups
    (schedule_df : ScheduleDF) (max_allowed : Z) :
  has_column schedule_df "hearing_date" = true →
  has_column schedule_df "judge_id" = true →
  ∃ by_day by_judge,
    _validate_max_hearings_per_day schedule_df max_allowed = Ok by_day
    ∧ _validate_max_hearings_per_judge schedule_df max_allowed = Ok by_judge
    ∧ (∀ v, v ∈ by_day ↔
         ∃ h, h ∈ rows schedule_df
              ∧ max_allowed < count_date (hearing_date h) (rows schedule_df)
              ∧ v = DayOverLimit (hearing_date h)
                      (count_date (hearing_date h) (rows schedule_df))
                      max_allowed)
    ∧ (∀ v, v ∈ by_judge ↔
         ∃ h, h ∈ rows schedule_df
              ∧ max_allowed
                < count_judge_date (h_judge_id h) (hearing_date h)
                    (rows schedule_df)
              ∧ v = JudgeOverLimit (h_judge_id h) (hearing_date h)
                      (count_judge_date (h_judge_id h) (hearing_date h)
                         (rows schedule_df))
                      max_allowed)
    ∧ NoDup by_day ∧ NoDup by_judge.
Proof.
  intros Hdate Hjudge.
  unfold _validate_max_hearings_per_day, _validate_max_hearings_per_judge,
    column.
  rewrite Hdate, Hjudge. simpl. eexists _, _.
  split; [done|]. split; [done|].
  split; [|split; [|split]].
  3:{ apply (NoDup_bind_guard_ext _ (λ x, max_allowed < x.2)
               (λ x, DayOverLimit x.1 x.2 max_allowed)).
      - by intros [d n].
      - intros [d1 n1] [d2 n2] [= -> ->]. done.
      - eapply NoDup_fmap_1, groupby_size_NoDup. }
  3:{ apply (NoDup_bind_guard_ext _ (λ x, max_allowed < x.2)
               (λ x, JudgeOverLimit x.1.1 x.1.2 x.2 max_allowed)).
      - by intros [[j d] n].
      - intros [[j1 d1] n1] [[j2 d2] n2] [= -> -> ->]. done.
      - eapply NoDup_fmap_1, groupby_size_NoDup. }
  - intros v.
    rewrite (list_elem_of_bind _ v (groupby_size Z.le _)).
    split.
    + intros ([d n] & Hv & Hin).
      apply groupby_size_elem in Hin as [Hd ->].
      rewrite length_filter_fmap in Hv.
      apply list_elem_of_fmap in Hd as (h & -> & Hh).
      case_bool_decide as Hover; [|by apply elem_of_nil in Hv].
      apply list_elem_of_singleton in Hv as ->.
      exists h. by repeat split.
    + intros (h & Hh & Hover & ->).
      exists (hearing_date h, count_date (hearing_date h) (rows schedule_df)).
      split.
      * rewrite bool_decide_eq_true_2 by done. left.
      * apply groupby_size_spec. split.
        -- apply list_elem_of_fmap. by exists h.
        -- unfold count_date. by rewrite length_filter_fmap.
  - intros v. rewrite zip_fmap_same.
    rewrite (list_elem_of_bind _ v (groupby_size pair_le _)).
    assert (Hcount : ∀ j d,
      Z.of_nat (length (filter (λ k', k' = (j, d))
        ((λ x, (h_judge_id x, hearing_date x)) <$> rows schedule_df)))
      = count_judge_date j d (rows schedule_df)).
    { intros j d. rewrite length_filter_fmap. unfold count_judge_date.
      do 2 f_equal. apply list_filter_iff. intros x. split.
      - by intros [= -> ->].
      - by intros [-> ->]. }
    split.
    + intros ([[j d] n] & Hv & Hin).
      apply groupby_size_elem in Hin as [Hd ->].
      rewrite Hcount in Hv.
      apply list_elem_of_fmap in Hd as (h & [= -> ->] & Hh).
      case_bool_decide as Hover; [|by apply elem_of_nil in Hv].
      apply list_elem_of_singleton in Hv as ->.
      exists h. by repeat split.
    + intros (h & Hh & Hover & ->).
      exists ((h_judge_id h, hearing_date h),
              count_judge_date (h_judge_id h) (hearing_date h)
                (rows schedule_df)).
      split.
      * rewrite bool_decide_eq_true_2 by done. left.
      * apply groupby_size_spec. split.
        -- apply list_elem_of_fmap. by exists h.
        -- by rewrite Hcount.
Qed.

Lemma capacity_rules_report_exactly_the_overfull_groups_witness :
  ∃ schedule_df by_day,
    schedule_hearings_heuristic stable_sort_values two_per_judge three_cases
      [judge_A] monday 5 = Ok schedule_df
    ∧ (has_column schedule_df "hearing_date" = true
       ∧ has_column schedule_df "judge_id" = true)
    ∧ _validate_max_hearings_per_day schedule_df 1 = Ok by_day
    ∧ DayOverLimit monday 2 1 ∈ by_day.
Proof.
  eexists.
  assert (Hdf : schedule_hearings_heuristic stable_sort_values two_per_judge
                  three_cases [judge_A] monday 5
                = Ok (DataFrame
                        [booking two_per_judge three_cases
                           (case_of 2 "C-2" 90) monday judge_A;
                         booking two_per_judge three_cases
                           (case_of 3 "C-3" 50) monday judge_A;
                         booking two_per_judge three_cases
                           (case_of 1 "C-1" 10) (monday + 1) judge_A]))
    by (by vm_compute).
  match type of Hdf with _ = Ok ?df =>
    assert (H1 : has_column df "hearing_date" = true) by done;
    assert (H2 : has_column df "judge_id" = true) by done;
    destruct (capacity_rules_report_exactly_the_overfull_groups df 1 H1 H2)
      as (by_day & by_judge & Hday & _ & Hiff & _ & _ & _);
    exists by_day; split; [exact Hdf|]; split; [done|]; split; [exact Hday|];
    apply Hiff
  end.
  exists (booking two_per_judge three_cases (case_of 2 "C-2" 90) monday
            judge_A).
  split; [left|]. split; by vm_compute.
Defined.

Lemma validate_constraint_rule today schedule_df violations constraint :
  validate_constraint today schedule_df violations constraint
  = let! found := rule_violations today schedule_df constraint in
    Ok (violations ++ found).
Proof. destruct constraint; simpl; by rewrite ?app_nil_r. Qed.

Lemma for_each_validate_acc today schedule_df cs violations :
  for_each (validate_constraint today schedule_df) cs violations
  = let! found := for_each (validate_constraint today schedule_df) cs [] in
    Ok (violations ++ found).
Proof.
  revert violations. induction cs as [|c cs IH]; intros violations.
  - simpl. by rewrite app_nil_r.
  - simpl. rewrite !validate_constraint_rule.
    destruct (rule_violations today schedule_df c) as [found|e]; [|done].
    simpl. rewrite (IH (violations ++ found)), (IH found).
    destruct (for_each (validate_constraint today schedule_df) cs [])
      as [more|e]; [|done].
    simpl. by rewrite app_assoc.
Qed.

(** X13.  Validation composes over the rule list: the violations of
    [rules1 ++ rules2] are the violations of [rules1] followed by those of
    [rules2], and the schedule is valid for the whole list exactly when it
    is valid for both parts; if validating [rules1] raises, so does
    validating the whole list.  So adding rules never removes a violation. *)
Theorem validate_schedule_concatenates (today : Z)
    (rules1 rules2 : list Constraint) (schedule_df : ScheduleDF)
    (judges_df : list Judge) :
  (∀ valid1 found1 valid2 found2,
     validate_schedule today {| constraints := rules1 |} schedule_df
       judges_df = Ok (valid1, found1) →
     validate_schedule today {| constraints := rules2 |} schedule_df
       judges_df = Ok (valid2, found2) →
     validate_schedule today {| constraints := rules1 ++ rules2 |}
       schedule_df judges_df
     = Ok (valid1 && valid2, found1 ++ found2))
  ∧ (∀ e,
       validate_schedule today {| constraints := rules1 |} schedule_df
         judges_df = Raise e →
       validate_schedule today {| constraints := rules1 ++ rules2 |}
         schedule_df judges_df = Raise e).
Proof.
  unfold validate_schedule. simpl. rewrite for_each_app.
  destruct (for_each (validate_constraint today schedule_df) rules1 [])
    as [v1|e1]; simpl.
  - split; [|done]. intros valid1 found1 valid2 found2 [= <- <-].
    rewrite (for_each_validate_acc today schedule_df rules2 v1).
    destruct (for_each (validate_constraint today schedule_df) rules2 [])
      as [v2|e2]; simpl; [|done].
    intros [= <- <-].
    assert (Hb : bool_decide (len (v1 ++ v2) = 0)
                 = bool_decide (len v1 = 0) && bool_decide (len v2 = 0)).
    { unfold len. rewrite length_app.
      repeat case_bool_decide; simpl; try done; lia. }
    by rewrite Hb.
  - split; [done|]. by intros e [= ->].
Qed.

Lemma validate_schedule_concatenates_witness :
  ∃ schedule_df,
    schedule_hearings_heuristic stable_sort_values two_per_judge three_cases
      [judge_A] monday 5 = Ok schedule_df
    ∧ validate_schedule monday {| constraints := [MaxHearingsPerDay 1] |}
        schedule_df [judge_A] = Ok (false, [DayOverLimit monday 2 1])
    ∧ validate_schedule monday {| constraints := [HolidayExclusion [monday + 1]] |}
        schedule_df [judge_A] = Ok (false, [OnHoliday "C-1" (monday + 1)])
    ∧ validate_schedule monday
        {| constraints := [MaxHearingsPerDay 1]
                          ++ [HolidayExclusion [monday + 1]] |}
        schedule_df [judge_A]
      = Ok (false && false,
            [DayOverLimit monday 2 1] ++ [OnHoliday "C-1" (monday + 1)]).
Proof.
  eexists. split; [by vm_compute|].
  match goal with |- validate_schedule _ _ ?df _ = _ ∧ _ =>
    assert (H1 : validate_schedule monday
                   {| constraints := [MaxHearingsPerDay 1] |} df [judge_A]
                 = Ok (false, [DayOverLimit monday 2 1])) by (by vm_compute);
    assert (H2 : validate_schedule monday
                   {| constraints := [HolidayExclusion [monday + 1]] |} df
                   [judge_A]
                 = Ok (false, [OnHoliday "C-1" (monday + 1)]))
      by (by vm_compute);
    split; [exact H1|]; split; [exact H2|];
    exact (proj1 (validate_schedule_concatenates monday
                    [MaxHearingsPerDay 1] [HolidayExclusion [monday + 1]]
                    df [judge_A]) _ _ _ _ H1 H2)
  end.
Defined.

Lemma for_each_ok {A S} (body : S → A → result S) (xs : list A) (s : S) :
  (∀ s x, x ∈ xs → ∃ s', body s x = Ok s') →
  ∃ s', for_each body xs s = Ok s'.
Proof.
  revert s. induction xs as [|x xs IH]; intros s Hbody; simpl; [by eexists|].
  destruct (Hbody s x) as [s' ->]; [left|]. simpl.
  apply IH. intros s'' y Hy. apply Hbody. by right.
Qed.

Lemma rule_violations_total today schedule_df constraint :
  has_column schedule_df "hearing_date" = true →
  has_column schedule_df "judge_id" = true →
  has_column schedule_df "case_number" = true →
  ∃ found, rule_violations today schedule_df constraint = Ok found.
Proof.
  intros Hdate Hjudge Hnum.
  destruct constraint; simpl; try by eexists.
  - unfold _validate_max_hearings_per_day, column. rewrite Hdate.
    by eexists.
  - unfold _validate_max_hearings_per_judge, column. rewrite Hdate, Hjudge.
    by eexists.
  - unfold _validate_priority_deadline.
    destruct (has_column schedule_df "priority_score") eqn:Hpri; simpl;
      [|by eexists].
    apply for_each_ok. intros s row _.
    rewrite (row_get_column _ _ _ _ Hdate). simpl.
    case_bool_decide; [|by eexists].
    rewrite (row_get_column _ _ _ _ Hnum), (row_get_column _ _ _ _ Hpri).
    by eexists.
  - unfold _validate_no_weekends. apply for_each_ok. intros s row _.
    rewrite (row_get_column _ _ _ _ Hdate). simpl.
    case_bool_decide; [|by eexists].
    rewrite (row_get_column _ _ _ _ Hnum). by eexists.
  - unfold _validate_holiday_exclusion. apply for_each_ok. intros s row _.
    rewrite (row_get_column _ _ _ _ Hdate). simpl.
    case_bool_decide; [|by eexists].
    rewrite (row_get_column _ _ _ _ Hnum). by eexists.
Qed.

(** On a frame with these three columns the validation loop returns. *)
Lemma validate_schedule_returns_on_complete_frames (today : Z)
    (self : ConstraintBuilder.t) (schedule_df : ScheduleDF)
    (judges_df : list Judge) :
  has_column schedule_df "hearing_date" = true →
  has_column schedule_df "judge_id" = true →
  has_column schedule_df "case_number" = true →
  ∃ is_valid violations,
    validate_schedule today self schedule_df judges_df
    = Ok (is_valid, violations)
    ∧ (is_valid = true ↔ violations = []).
Proof.
  intros Hdate Hjudge Hnum. unfold validate_schedule.
  destruct (for_each_ok (validate_constraint today schedule_df)
              (constraints self) []) as [found ->].
  - intros s c _. rewrite validate_constraint_rule.
    destruct (rule_violations_total today schedule_df c Hdate Hjudge Hnum)
      as [more ->]. by eexists.
  - simpl. eexists _, _. split; [done|]. split.
    + intros Hb. apply bool_decide_eq_true in Hb. unfold len in Hb.
      destruct found; [done | simpl in Hb; lia].
    + by intros ->.
Qed.


(** * Further properties of the optimized scheduler *)

Section OptimizedSolution.

Variable self : HearingScheduler.
Variable cases_df : CasesDF.
Variable judges_df : list Judge.
Variable start_date num_days : Z.
Variable value : BoolVar → Z.

(** What a solution of the model built by [build_model] satisfies. *)
Lemma model_solution_facts model :
  build_model self cases_df judges_df num_days = Ok model →
  satisfies value model →
  (∀ c j d, c ∈ range (len (case_rows cases_df)) →
     j ∈ range (len judges_df) → d ∈ range num_days →
     value (c, j, d) = 0 ∨ value (c, j, d) = 1)
  ∧ (∀ c, c ∈ range (len (case_rows cases_df)) →
       sum_values value (case_vars (len judges_df) num_days c) = 1)
  ∧ (∀ j d, j ∈ range (len judges_df) → d ∈ range num_days →
       sum_values value (judge_day_vars (len (case_rows cases_df)) j d)
       ≤ max_hearings_per_judge self)
  ∧ (∀ d, d ∈ range num_days →
       sum_values value
         (day_vars (len (case_rows cases_df)) (len judges_df) d)
       ≤ max_hearings_per_day self).
Proof.
  destruct (build_model_ok self cases_df judges_df num_days) as [terms ->].
  intros [= <-] [Hbool Hcts]. simpl in Hbool, Hcts.
  rewrite !Forall_app in Hcts. destruct Hcts as (Honce & Hjudge & Hday).
  rewrite Forall_forall in Hbool.
  rewrite Forall_fmap in Honce. rewrite Forall_forall in Honce.
  rewrite Forall_forall in Hjudge.
  rewrite Forall_fmap in Hday. rewrite Forall_forall in Hday.
  split; [|split; [|split]].
  - intros c j d Hc Hj Hd. apply Hbool.
    apply list_elem_of_bind. exists c. split; [|done].
    unfold case_vars. apply list_elem_of_bind. exists j. split; [|done].
    apply list_elem_of_fmap. by exists d.
  - intros c Hc. exact (Honce c Hc).
  - intros j d Hj Hd.
    apply (Hjudge (SumLe (judge_day_vars (len (case_rows cases_df)) j d)
                     (max_hearings_per_judge self))).
    apply list_elem_of_bind. exists j. split; [|done].
    apply list_elem_of_fmap. by exists d.
  - intros d Hd. exact (Hday d Hd).
Qed.



End OptimizedSolution.



Lemma free_slot_no_day self sched judges start_date num_days :
  num_days ≤ 0 →
  free_slot self sched judges start_date (range num_days) = None.
Proof.
  intros Hn. unfold range.
  replace (seqZ 0 num_days) with (@nil Z); [done|].
  symmetry. apply length_zero_iff_nil. rewrite length_seqZ. lia.
Qed.

(** With at least one case and no judge row, or no day in the horizon, the
    model has no solution and both schedulers return the empty frame. *)
Lemma no_slot_gives_empty_schedule
    (sort_values : list Case → list Case) (ORTOOLS_AVAILABLE : bool)
    (Solve : CpModel → CpSolverStatus * (BoolVar → Z))
    (self : HearingScheduler) (cases_df : CasesDF) (judges_df : list Judge)
    (start_date num_days : Z) :
  (∀ model, (Solve model).1 ∈ [OPTIMAL; FEASIBLE] →
            satisfies (Solve model).2 model) →
  case_rows cases_df ≠ [] →
  judges_df = [] ∨ num_days ≤ 0 →
  schedule_hearings_heuristic sort_values self cases_df judges_df start_date
    num_days = Ok (DataFrame [])
  ∧ schedule_hearings_optimized sort_values ORTOOLS_AVAILABLE Solve self
      cases_df judges_df start_date num_days = Ok (DataFrame []).
Proof.
  intros Hsound Hcases Hnone.
  assert (Hheur : schedule_hearings_heuristic sort_values self cases_df
                    judges_df start_date num_days = Ok (DataFrame [])).
  { rewrite schedule_hearings_heuristic_eq.
    rewrite place_all_warnings; [done|].
    destruct Hnone as [-> | Hn];
      [apply free_slot_no_judge | by apply free_slot_no_day]. }
  split; [done|].
  unfold schedule_hearings_optimized.
  destruct ORTOOLS_AVAILABLE; simpl; [|done].
  destruct (build_model self cases_df judges_df num_days) as [model|e] eqn:Hm.
  2:{ destruct (build_model_ok self cases_df judges_df num_days) as [? Hok].
      congruence. }
  simpl. specialize (Hsound model).
  destruct (Solve model) as [status value]. simpl in Hsound.
  case_bool_decide as Hst; [|done]. exfalso.
  destruct (model_solution_facts self cases_df judges_df num_days value
              model Hm (Hsound Hst)) as (_ & Honce & _).
  assert (Hc : 0 ∈ range (len (case_rows cases_df))).
  { apply elem_of_seqZ. unfold len.
    destruct (case_rows cases_df); [done | simpl; lia]. }
  specialize (Honce 0 Hc).
  assert (Hvars : case_vars (len judges_df) num_days 0 = []).
  { unfold case_vars. destruct Hnone as [-> | Hn]; [done|].
    apply bind_all_nil. intros j _. unfold range.
    replace (seqZ 0 num_days) with (@nil Z); [done|].
    symmetry. apply length_zero_iff_nil. rewrite length_seqZ. lia. }
  rewrite Hvars in Honce. done.
Qed.


(** ** Counting the rows of the optimized schedule *)

Lemma length_filter_bind {A B} (P : B → Prop) `{∀ y, Decision (P y)}
    (f : A → list B) (l : list A) :
  length (filter P (l ≫= f))
  = sum_list_with (λ a, length (filter P (f a))) l.
Proof.
  induction l as [|a l IH]; [done|].
  rewrite bind_cons, filter_app, length_app, IH. done.
Qed.

Lemma length_filter_sum {A} (P : A → Prop) `{∀ x, Decision (P x)}
    (l : list A) :
  length (filter P l) = sum_list_with (λ x, if decide (P x) then 1 else 0)%nat l.
Proof.
  induction l as [|x l IH]; [done|].
  rewrite filter_cons. simpl. destruct (decide (P x)); simpl; by rewrite IH.
Qed.

Lemma sum_list_with_ext_in {A} (f g : A → nat) (l : list A) :
  (∀ x, x ∈ l → f x = g x) → sum_list_with f l = sum_list_with g l.
Proof.
  induction l as [|x l IH]; intros Hfg; [done|].
  simpl. rewrite (Hfg x) by left. rewrite IH; [done|].
  intros y Hy. apply Hfg. by right.
Qed.

Lemma sum_list_with_zero {A} (f : A → nat) (l : list A) :
  (∀ x, x ∈ l → f x = 0%nat) → sum_list_with f l = 0%nat.
Proof.
  induction l as [|x l IH]; intros Hf; [done|].
  simpl. rewrite (Hf x) by left. rewrite IH; [done|].
  intros y Hy. apply Hf. by right.
Qed.

(** A sum that is zero away from [x0] picks the term of [x0]. *)
Lemma sum_list_with_single {A} `{EqDecision A} (f : A → nat) (l : list A)
    (x0 : A) :
  NoDup l → x0 ∈ l → (∀ x, x ∈ l → x ≠ x0 → f x = 0%nat) →
  sum_list_with f l = f x0.
Proof.
  induction l as [|x l IH]; intros Hnd Hin Hf.
  - by apply elem_of_nil in Hin.
  - apply NoDup_cons in Hnd as [Hx Hnd]. simpl.
    destruct (decide (x = x0)) as [->|Hne].
    + rewrite sum_list_with_zero; [lia|].
      intros y Hy. apply Hf; [by right|]. by intros ->.
    + rewrite (Hf x) by (done || left). simpl. apply IH; [done| |].
      * apply elem_of_cons in Hin as [->|?]; done.
      * intros y Hy. apply Hf. by right.
Qed.

Lemma range_NoDup n : NoDup (range n).
Proof. unfold range. apply NoDup_seqZ. Qed.

Section OptimizedCapacity.

Variable self : HearingScheduler.
Variable cases_df : CasesDF.
Variable judges_df : list Judge.
Variable start_date num_days : Z.
Variable value : BoolVar → Z.

Lemma elem_of_solution_rows h :
  h ∈ (solution_rows self cases_df judges_df start_date num_days
       value) →
  ∃ c j d, c ∈ range (len (case_rows cases_df))
           ∧ j ∈ range (len judges_df) ∧ d ∈ range num_days
           ∧ value (c, j, d) = 1
           ∧ hearing_date h = start_date + d
           ∧ h_judge_id h = judge_id (judges_df !!! Z.to_nat j).
Proof.
  unfold solution_rows. intros Hh.
  apply list_elem_of_bind in Hh as (c & Hh & Hc).
  apply list_elem_of_bind in Hh as (j & Hh & Hj).
  apply list_elem_of_bind in Hh as (d & Hh & Hd).
  unfold picked in Hh. case_bool_decide as Hv; [|by apply elem_of_nil in Hh].
  apply list_elem_of_singleton in Hh as ->.
  exists c, j, d. by repeat split.
Qed.

(** The hearings of day [d0] are the variables of [day_vars] set to 1. *)
Lemma count_date_solution_rows d0 :
  d0 ∈ range num_days →
  (∀ c j d, c ∈ range (len (case_rows cases_df)) →
     j ∈ range (len judges_df) → d ∈ range num_days →
     value (c, j, d) = 0 ∨ value (c, j, d) = 1) →
  count_date (start_date + d0) (solution_rows self cases_df judges_df start_date num_days
       value)
  = sum_values value
      (day_vars (len (case_rows cases_df)) (len judges_df) d0).
Proof.
  intros Hd0 Hbool.
  rewrite sum_values_filter.
  2:{ apply Forall_forall. intros [[c j] d] Hv. unfold day_vars in Hv.
      apply list_elem_of_bind in Hv as (c' & Hv & Hc').
      apply list_elem_of_fmap in Hv as (j' & [= -> -> ->] & Hj').
      by apply Hbool. }
  unfold count_date, solution_rows, day_vars. f_equal.
  rewrite !length_filter_bind.
  apply sum_list_with_ext_in. intros c Hc.
  rewrite length_filter_bind, length_filter_fmap, length_filter_sum.
  apply sum_list_with_ext_in. intros j Hj.
  rewrite length_filter_bind.
  rewrite (sum_list_with_single _ _ d0 (range_NoDup _) Hd0).
  - unfold picked. simpl.
    destruct (decide (value (c, j, d0) = 1)) as [Hv|Hv].
    + rewrite bool_decide_eq_true_2 by done.
      rewrite filter_cons, decide_True by done. done.
    + by rewrite bool_decide_eq_false_2.
  - intros d Hd Hne. unfold picked. simpl.
    case_bool_decide; [|done].
    rewrite filter_cons, decide_False; [done|]. simpl. lia.
Qed.

(** With distinct judge ids, the hearings of judge [j0] on day [d0] are the
    variables of [judge_day_vars] set to 1. *)
Lemma count_judge_date_solution_rows j0 d0 :
  NoDup (judge_id <$> judges_df) →
  j0 ∈ range (len judges_df) → d0 ∈ range num_days →
  (∀ c j d, c ∈ range (len (case_rows cases_df)) →
     j ∈ range (len judges_df) → d ∈ range num_days →
     value (c, j, d) = 0 ∨ value (c, j, d) = 1) →
  count_judge_date (judge_id (judges_df !!! Z.to_nat j0)) (start_date + d0)
    (solution_rows self cases_df judges_df start_date num_days
       value)
  = sum_values value (judge_day_vars (len (case_rows cases_df)) j0 d0).
Proof.
  intros Hids Hj0 Hd0 Hbool.
  rewrite sum_values_filter.
  2:{ apply Forall_forall. intros [[c j] d] Hv. unfold judge_day_vars in Hv.
      apply list_elem_of_fmap in Hv as (c' & [= -> -> ->] & Hc').
      by apply Hbool. }
  assert (Hinj : ∀ j, j ∈ range (len judges_df) →
            judge_id (judges_df !!! Z.to_nat j)
            = judge_id (judges_df !!! Z.to_nat j0) → j = j0).
  { intros j Hj Heq. unfold range, len in Hj, Hj0.
    apply elem_of_seqZ in Hj. apply elem_of_seqZ in Hj0.
    assert (Hi : Z.to_nat j = Z.to_nat j0); [|lia].
    eapply (NoDup_lookup _ _ _ _ Hids);
      rewrite list_lookup_fmap;
      rewrite list_lookup_lookup_total_lt by lia; simpl; [done|].
    by rewrite Heq. }
  unfold count_judge_date, solution_rows, judge_day_vars. f_equal.
  rewrite length_filter_bind, length_filter_fmap, length_filter_sum.
  apply sum_list_with_ext_in. intros c Hc.
  rewrite length_filter_bind.
  rewrite (sum_list_with_single _ _ j0 (range_NoDup _) Hj0).
  - rewrite length_filter_bind.
    rewrite (sum_list_with_single _ _ d0 (range_NoDup _) Hd0).
    + unfold picked. simpl.
      destruct (decide (value (c, j0, d0) = 1)) as [Hv|Hv].
      * rewrite bool_decide_eq_true_2 by done.
        rewrite filter_cons, decide_True by done. done.
      * by rewrite bool_decide_eq_false_2.
    + intros d Hd Hne. unfold picked. simpl.
      case_bool_decide; [|done].
      rewrite filter_cons, decide_False; [done|]. simpl.
      intros [_ ?]. lia.
  - intros j Hj Hne. rewrite length_filter_bind.
    apply sum_list_with_zero. intros d Hd. unfold picked. simpl.
    case_bool_decide; [|done].
    rewrite filter_cons, decide_False; [done|]. simpl.
    intros [Heq _]. by apply Hne, Hinj.
Qed.

End OptimizedCapacity.

(** X17.  When the solver reports [OPTIMAL] or [FEASIBLE], the schedule
    [schedule_hearings_optimized] reads off the solution keeps the limits:
    every hearing lies in the horizon, no day of the schedule has more than
    [max_hearings_per_day] hearings and, the judge ids of [judges_df] being
    pairwise distinct, no judge has more than [max_hearings_per_judge]
    hearings on a day. *)
Theorem optimized_solution_respects_capacity
    (sort_values : list Case → list Case)
    (Solve : CpModel → CpSolverStatus * (BoolVar → Z))
    (self : HearingScheduler) (cases_df : CasesDF) (judges_df : list Judge)
    (start_date num_days : Z) (status : CpSolverStatus) :
  (∀ model, (Solve model).1 ∈ [OPTIMAL; FEASIBLE] →
            satisfies (Solve model).2 model) →
  solve_status Solve self cases_df judges_df num_days = Ok status →
  status ∈ [OPTIMAL; FEASIBLE] →
  ∃ schedule_df,
    schedule_hearings_optimized sort_values true Solve self cases_df
      judges_df start_date num_days = Ok schedule_df
    ∧ (∀ h, h ∈ rows schedule_df →
         start_date ≤ hearing_date h < start_date + num_days
         ∧ count_date (hearing_date h) (rows schedule_df)
           ≤ max_hearings_per_day self)
    ∧ (NoDup (judge_id <$> judges_df) →
       ∀ h, h ∈ rows schedule_df →
         count_judge_date (h_judge_id h) (hearing_date h) (rows schedule_df)
         ≤ max_hearings_per_judge self).
Proof.
  intros Hsound Hstatus Hok.
  unfold schedule_hearings_optimized, solve_status in *. simpl.
  destruct (build_model self cases_df judges_df num_days) as [model|e] eqn:Hm;
    [|done].
  simpl in *. specialize (Hsound model).
  destruct (Solve model) as [status' value]. simpl in *.
  injection Hstatus as ->.
  rewrite bool_decide_eq_true_2 by done.
  rewrite extract_schedule_picked. simpl.
  eexists. split; [done|]. rewrite rows_DataFrame.
  fold (solution_rows self cases_df judges_df start_date num_days value).
  destruct (model_solution_facts self cases_df judges_df num_days value
              model Hm (Hsound Hok)) as (Hbool & _ & Hjudge & Hday).
  split.
  - intros h Hh.
    apply elem_of_solution_rows in Hh as (c & j & d & Hc & Hj & Hd & _ & -> & _).
    split; [apply elem_of_seqZ in Hd; lia|].
    rewrite count_date_solution_rows by done. by apply Hday.
  - intros Hids h Hh.
    apply elem_of_solution_rows in Hh
      as (c & j & d & Hc & Hj & Hd & _ & -> & ->).
    rewrite count_judge_date_solution_rows by done. by apply Hjudge.
Qed.

Lemma optimized_solution_respects_capacity_witness :
  ((∀ model,
      (candidate_solver one_case_a_day model).1 ∈ [OPTIMAL; FEASIBLE] →
      satisfies (candidate_solver one_case_a_day model).2 model)
   ∧ solve_status (candidate_solver one_case_a_day) two_per_judge
       three_cases [judge_A; judge_B] 5 = Ok FEASIBLE
   ∧ FEASIBLE ∈ [OPTIMAL; FEASIBLE]
   ∧ NoDup (judge_id <$> [judge_A; judge_B]))
  ∧ ∃ schedule_df h,
      schedule_hearings_optimized stable_sort_values true
        (candidate_solver one_case_a_day) two_per_judge three_cases
        [judge_A; judge_B] monday 5 = Ok schedule_df
      ∧ h ∈ rows schedule_df
      ∧ monday ≤ hearing_date h < monday + 5
      ∧ count_date (hearing_date h) (rows schedule_df)
        ≤ max_hearings_per_day two_per_judge
      ∧ count_judge_date (h_judge_id h) (hearing_date h) (rows schedule_df)
        ≤ max_hearings_per_judge two_per_judge.
Proof.
  assert (Hst : solve_status (candidate_solver one_case_a_day) two_per_judge
                  three_cases [judge_A; judge_B] 5 = Ok FEASIBLE)
    by (by vm_compute).
  assert (Hin : FEASIBLE ∈ [OPTIMAL; FEASIBLE]) by (right; left).
  assert (Hids : NoDup (judge_id <$> [judge_A; judge_B])).
  { apply (bool_decide_unpack _). by vm_compute. }
  split.
  - split; [exact (candidate_solver_sound one_case_a_day)|]. by repeat split.
  - destruct (optimized_solution_respects_capacity stable_sort_values
                (candidate_solver one_case_a_day) two_per_judge three_cases
                [judge_A; judge_B] monday 5 FEASIBLE
                (candidate_solver_sound one_case_a_day) Hst Hin)
      as (df & Hdf & Hday & Hjudge).
    assert (Hex : ∃ h, h ∈ rows df).
    { vm_compute in Hdf. injection Hdf as <-. eexists. left. }
    destruct Hex as [h Hh].
    destruct (Hday h Hh) as [Hrange Hcount].
    exists df, h. split; [done|]. split; [done|]. split; [done|].
    split; [done|]. exact (Hjudge Hids h Hh).
Defined.

(** ** The structure check of optimization_utils.py *)

Lemma filter_eq_not_elem_of {A} `{EqDecision A} (x : A) (l : list A) :
  x ∉ l → filter (λ y, y = x) l = [].
Proof.
  induction l as [|a l IH]; intros Hx; [done|].
  apply not_elem_of_cons in Hx as [Hne Hx].
  rewrite filter_cons. destruct (decide (a = x)); [done|]. by apply IH.
Qed.

Lemma NoDup_count_le_one {A} `{EqDecision A} (l : list A) :
  NoDup l ↔ ∀ x, x ∈ l → (length (filter (λ y, y = x) l) ≤ 1)%nat.
Proof.
  induction l as [|a l IH].
  - split; [|constructor]. intros _ x Hx. by apply elem_of_nil in Hx.
  - rewrite NoDup_cons. split.
    + intros [Ha Hnd] x Hx. rewrite filter_cons.
      destruct (decide (a = x)) as [<-|Hne].
      * rewrite filter_eq_not_elem_of by done. simpl. lia.
      * apply elem_of_cons in Hx as [->|Hx]; [done|].
        by apply IH.
    + intros Hcount. split.
      * intros Ha. specialize (Hcount a (list_elem_of_here _ _)).
        rewrite filter_cons in Hcount.
        destruct (decide (a = a)); [|done]. simpl in Hcount.
        assert (Hin : a ∈ filter (λ y, y = a) l)
          by by apply list_elem_of_filter.
        destruct (filter (λ y, y = a) l); [by apply elem_of_nil in Hin|].
        simpl in Hcount. lia.
      * apply IH. intros x Hx.
        specialize (Hcount x (list_elem_of_further _ _ _ Hx)).
        rewrite filter_cons in Hcount.
        destruct (decide (a = x)); simpl in Hcount; lia.
Qed.

Lemma filter_nil_Forall {A} (P : A → Prop) `{∀ x, Decision (P x)}
    (l : list A) :
  filter P l = [] ↔ ∀ x, x ∈ l → ¬ P x.
Proof.
  split.
  - intros Hnil x Hx HP. by apply (filter_nil_not_elem_of P l x).
  - induction l as [|a l IH]; intros Hall; [done|].
    rewrite filter_cons. destruct (decide (P a)) as [HP|_].
    + by destruct (Hall a (list_elem_of_here _ _)).
    + apply IH. intros x Hx. apply Hall. by right.
Qed.

(** No row is flagged as a duplicate exactly when the (case, date) pairs
    are pairwise distinct. *)
Lemma duplicated_nil df :
  Utils.duplicated df = []
  ↔ NoDup ((λ h, (h_case_id h, hearing_date h)) <$> rows df).
Proof.
  unfold Utils.duplicated. rewrite filter_nil_Forall, NoDup_count_le_one.
  split.
  - intros Hall k Hk. apply list_elem_of_fmap in Hk as (h & -> & Hh).
    specialize (Hall h Hh). simpl in Hall. lia.
  - intros Hcount h Hh. simpl.
    assert (Hk : (h_case_id h, hearing_date h)
                 ∈ (λ h, (h_case_id h, hearing_date h)) <$> rows df).
    { apply list_elem_of_fmap. by exists h. }
    specialize (Hcount _ Hk). lia.
Qed.

Lemma foldr_max_le (a b : Z) (l : list Z) :
  foldr Z.max a l ≤ b ↔ a ≤ b ∧ ∀ x, x ∈ l → x ≤ b.
Proof.
  induction l as [|x l IH]; simpl.
  - split; [|tauto]. intros Ha. split; [done|].
    intros x Hx. by apply elem_of_nil in Hx.
  - rewrite Z.max_lub_iff, IH. split.
    + intros (Hx & Ha & Hl). split; [done|].
      intros y Hy. apply elem_of_cons in Hy as [->|Hy]; [done|]. by apply Hl.
    + intros (Ha & Hl). split; [apply Hl; left|].
      split; [done|]. intros y Hy. apply Hl. by right.
Qed.

Lemma series_max_le (b : Z) (l : list Z) :
  l ≠ [] → Utils.series_max l ≤ b ↔ ∀ x, x ∈ l → x ≤ b.
Proof.
  intros Hl. unfold Utils.series_max. rewrite foldr_max_le.
  destruct l as [|x l]; [done|]. simpl. split; [tauto|].
  intros Hall. split; [apply Hall; left|done].
Qed.

Lemma structure_check_nonempty (today : Z) (schedule_df : ScheduleDF) :
  rows schedule_df ≠ [] →
  (∀ c, c ∈ Utils.default_required_columns → c ∈ columns schedule_df) →
  Utils.validate_schedule today schedule_df None = (true, [])
  ↔ NoDup ((λ h, (h_case_id h, hearing_date h)) <$> rows schedule_df)
    ∧ ∀ h, h ∈ rows schedule_df →
           today ≤ hearing_date h ≤ today + 365.
Proof.
  intros Hrows Hcols.
  assert (Hcol : ∀ c, c ∈ Utils.default_required_columns →
                      has_column schedule_df c = true).
  { intros c Hc. unfold has_column. apply bool_decide_eq_true. auto. }
  assert (Hempty : Utils.empty schedule_df = false).
  { unfold Utils.empty. rewrite !bool_decide_eq_false_2; [done| |done].
    intros Hnil. specialize (Hcols "case_id"%string). rewrite Hnil in Hcols.
    eapply elem_of_nil, Hcols. set_solver. }
  unfold Utils.validate_schedule. rewrite Hempty. simpl default.
  assert (Hmissing :
    filter (λ c, c ∉ columns schedule_df)
      (remove_dups Utils.default_required_columns) = []).
  { apply filter_nil_Forall. intros c Hc Hnot. apply Hnot, Hcols.
    by apply elem_of_remove_dups. }
  rewrite Hmissing. cbn [foldl].
  rewrite !Hcol by (unfold Utils.default_required_columns; set_solver).
  unfold Utils.isnull_sum. change (bool_decide (0 < 0)) with false.
  cbn [andb].
  destruct (bool_decide_reflect
              (today + 365
               < Utils.series_max (hearing_date <$> rows schedule_df)))
    as [Hmax|Hmax].
  - split.
    + destruct (Utils.duplicated schedule_df),
        (filter (λ h, hearing_date h < today) (rows schedule_df));
        simpl; intros [=].
    + intros [_ Hall]. apply Z.lt_nge in Hmax. destruct Hmax.
      apply series_max_le; [by destruct (rows schedule_df)|].
      intros x Hx. apply list_elem_of_fmap in Hx as (h & -> & Hh).
      apply Hall, Hh.
  - apply Z.nlt_ge in Hmax.
    destruct (Utils.duplicated schedule_df) as [|r dups] eqn:Hdup.
    + apply duplicated_nil in Hdup.
      destruct (filter (λ h, hearing_date h < today) (rows schedule_df))
        as [|p past] eqn:Hpast.
      * rewrite filter_nil_Forall in Hpast.
        split; [|done]. intros _. split; [done|].
        intros h Hh. split; [specialize (Hpast h Hh); lia|].
        eapply series_max_le in Hmax; [exact Hmax| |].
        -- by destruct (rows schedule_df).
        -- apply list_elem_of_fmap. by exists h.
      * assert (Hp : p ∈ filter (λ h, hearing_date h < today)
                         (rows schedule_df)) by (rewrite Hpast; left).
        apply list_elem_of_filter in Hp as [Hlt Hp].
        split; [simpl; intros [=]|].
        intros [_ Hall]. specialize (Hall p Hp). lia.
    + assert (Hne : ¬ NoDup ((λ h, (h_case_id h, hearing_date h))
                               <$> rows schedule_df)).
      { intros Hnd. apply duplicated_nil in Hnd. congruence. }
      split; [|tauto].
      destruct (filter (λ h, hearing_date h < today) (rows schedule_df));
        simpl; intros [=].
Qed.

Lemma structure_check_empty (today : Z) (schedule_df : ScheduleDF)
    (required_columns : option (list string)) :
  rows schedule_df = [] →
  Utils.validate_schedule today schedule_df required_columns
  = (false, [Utils.ScheduleIsEmpty]).
Proof.
  intros Hrows. unfold Utils.validate_schedule, Utils.empty.
  by rewrite (bool_decide_eq_true_2 _ Hrows).
Qed.

Lemma required_columns_of_schedule (c : string) :
  c ∈ Utils.default_required_columns → c ∈ schedule_columns.
Proof.
  revert c. apply Forall_forall. apply (bool_decide_unpack _). by vm_compute.
Qed.

(** X18.  For a schedule frame made of complete rows, as
    [pd.DataFrame(schedule)] builds it in both schedulers, the structure
    check of optimization_utils.py returns [(True, [])] exactly when the
    frame has a row, no case has two rows on the same date and every
    hearing date lies between today and 365 days from today. *)
Theorem structure_check_passes_iff (today : Z) (schedule : list Hearing) :
  Utils.validate_schedule today (DataFrame schedule) None = (true, [])
  ↔ schedule ≠ []
    ∧ NoDup ((λ h, (h_case_id h, hearing_date h)) <$> schedule)
    ∧ ∀ h, h ∈ schedule → today ≤ hearing_date h ≤ today + 365.
Proof.
  destruct schedule as [|h schedule].
  - rewrite structure_check_empty by done. split; [done|]. by intros [? _].
  - rewrite (structure_check_nonempty today (DataFrame (h :: schedule)));
      [rewrite rows_DataFrame; split; [by intros [? ?] | by intros (_ & ? & ?)]
      | done
      | intros c Hc; by apply required_columns_of_schedule].
Qed.

Lemma NoDup_fmap_fst_pair {A K V} (f : A → K) (g : A → V) (l : list A) :
  NoDup (f <$> l) → NoDup ((λ x, (f x, g x)) <$> l).
Proof.
  intros Hnd. apply (NoDup_fmap_1 fst).
  rewrite <- list_fmap_compose. done.
Qed.

(** X19.  The heuristic's schedule and the structure check: when the case
    ids of [cases_df] are pairwise distinct, the horizon starts today or
    later and ends at most 365 days from today, a schedule with at least
    one hearing passes the check with no issue; a schedule without hearings
    fails it with the single issue "Schedule is empty". *)
Theorem heuristic_schedule_structure_check (today : Z)
    (sort_values : list Case → list Case) (self : HearingScheduler)
    (cases_df : CasesDF) (judges_df : list Judge) (start_date num_days : Z) :
  (∀ l, sort_values l ≡ₚ l) →
  NoDup (case_id <$> case_rows cases_df) →
  today ≤ start_date →
  start_date + num_days ≤ today + 366 →
  ∃ schedule_df,
    schedule_hearings_heuristic sort_values self cases_df judges_df
      start_date num_days = Ok schedule_df
    ∧ Utils.validate_schedule today schedule_df None
      = if bool_decide (rows schedule_df = [])
        then (false, [Utils.ScheduleIsEmpty])
        else (true, []).
Proof.
  intros Hperm Hids Hstart Hend.
  destruct (heuristic_case_ids_sublist sort_values self cases_df judges_df
              start_date num_days) as (df & Hdf & Hsub).
  exists df. split; [done|].
  case_bool_decide as Hrows; [by apply structure_check_empty|].
  rewrite schedule_hearings_heuristic_eq in Hdf. injection Hdf as <-.
  apply structure_check_nonempty; [done| |].
  - intros c Hc. rewrite rows_DataFrame in Hrows.
    destruct (schedule _) as [|h sched]; [done|].
    by apply required_columns_of_schedule.
  - split.
    + apply NoDup_fmap_fst_pair.
      eapply sublist_NoDup; [|exact Hsub].
      by rewrite (processing_order_perm sort_values cases_df Hperm).
    + rewrite rows_DataFrame.
      apply (proj1 (Forall_forall
                      (λ h, today ≤ hearing_date h ≤ today + 365) _)).
      apply place_all_Forall; [|done].
      intros c d j _ (o & Ho & ->) _ _. simpl.
      apply elem_of_seqZ in Ho. lia.
Qed.

Lemma heuristic_schedule_structure_check_witness :
  ∃ schedule_df,
    schedule_hearings_heuristic stable_sort_values two_per_judge three_cases
      [judge_A] monday 5 = Ok schedule_df
    ∧ Utils.validate_schedule monday schedule_df None = (true, []).
Proof.
  assert (Hnd : NoDup (case_id <$> case_rows three_cases)).
  { apply (bool_decide_unpack _). by vm_compute. }
  destruct (heuristic_schedule_structure_check monday stable_sort_values
              two_per_judge three_cases [judge_A] monday 5
              stable_sort_values_perm Hnd ltac:(lia) ltac:(lia))
    as (df & Hdf & Hcheck).
  exists df. split; [done|]. rewrite Hcheck.
  vm_compute in Hdf. injection Hdf as <-. done.
Defined.

(** ** The workload table *)

Lemma sum_list_with_add {A} (f g : A → nat) (l : list A) :
  sum_list_with (λ x, f x + g x)%nat l
  = (sum_list_with f l + sum_list_with g l)%nat.
Proof. induction l as [|x l IH]; simpl; [done|]. rewrite IH. lia. Qed.

(** The sizes of the groups of a [groupby] add up to the number of rows. *)
Lemma sum_group_sizes {A K} `{EqDecision K} (key : A → K) (l : list A)
    (groups : list K) :
  NoDup groups → (∀ x, x ∈ l → key x ∈ groups) →
  sum_list_with (λ k, length (filter (λ x, key x = k) l)) groups = length l.
Proof.
  intros Hnd. induction l as [|x l IH]; intros Hkeys.
  - by apply sum_list_with_zero.
  - rewrite (sum_list_with_ext_in _
               (λ k, (if decide (k = key x) then 1 else 0)
                     + length (filter (λ y, key y = k) l))%nat).
    + rewrite sum_list_with_add, IH by (intros y Hy; apply Hkeys; by right).
      rewrite (sum_list_with_single _ groups (key x)); [| done | |].
      * by destruct (decide (key x = key x)).
      * apply Hkeys. left.
      * intros k _ Hne. by destruct (decide (k = key x)).
    + intros k _. rewrite filter_cons.
      destruct (decide (key x = k)) as [<-|Hne].
      * by destruct (decide (key x = key x)).
      * destruct (decide (k = key x)); [by subst|done].
Qed.

Lemma remove_dups_length_le {A} `{EqDecision A} (l : list A) :
  (length (remove_dups l) ≤ length l)%nat.
Proof.
  induction l as [|x l IH]; simpl; [done|].
  destruct (decide_rel elem_of x l); simpl; lia.
Qed.

Lemma remove_dups_length_pos {A} `{EqDecision A} (l : list A) :
  l ≠ [] → (0 < length (remove_dups l))%nat.
Proof.
  destruct l as [|x l]; [done|]. intros _.
  assert (Hx : x ∈ remove_dups (x :: l)) by (apply elem_of_remove_dups; left).
  destruct (remove_dups (x :: l)); [by apply elem_of_nil in Hx|simpl; lia].
Qed.

Lemma foldr_add_perm (l k : list Z) :
  l ≡ₚ k → foldr Z.add 0 l = foldr Z.add 0 k.
Proof. induction 1; simpl; lia. Qed.

Lemma foldr_add_sizes {A B} (size : A → nat) (f : A → B) (g : B → Z)
    (l : list A) :
  (∀ x, g (f x) = Z.of_nat (size x)) →
  foldr Z.add 0 (g <$> (f <$> l)) = Z.of_nat (sum_list_with size l).
Proof.
  intros Hg. induction l as [|x l IH]; [done|].
  rewrite !fmap_cons. cbn [foldr sum_list_with]. rewrite Hg, IH. lia.
Qed.

(** X20.  On a schedule frame that has the four columns it reads,
    [analyze_workload_distribution] returns one row for each distinct
    (judge id, judge name) pair of the schedule; the [total_hearings] of the
    rows add up to the number of hearings, and every row has
    [1 <= days_scheduled <= total_hearings] (the division for
    [avg_hearings_per_day] never divides by zero). *)
Theorem workload_accounts_for_every_hearing (F : Utils.SeriesFloats)
    (sort_workload : list (Utils.WorkloadRow F) → list (Utils.WorkloadRow F))
    (schedule_df : ScheduleDF) :
  (∀ l, sort_workload l ≡ₚ l) →
  (∀ c, c ∈ ["judge_id"; "judge_name"; "case_id"; "hearing_date"]%string →
        c ∈ columns schedule_df) →
  ∃ workload,
    Utils.analyze_workload_distribution F sort_workload schedule_df
    = Ok workload
    ∧ foldr Z.add 0 (Utils.total_hearings <$> workload)
      = len (rows schedule_df)
    ∧ NoDup ((λ w, (Utils.w_judge_id w, Utils.w_judge_name w)) <$> workload)
    ∧ (∀ h, h ∈ rows schedule_df →
         ∃ w, w ∈ workload
              ∧ Utils.w_judge_id w = h_judge_id h
              ∧ Utils.w_judge_name w = h_judge_name h)
    ∧ ∀ w, w ∈ workload →
        1 ≤ Utils.days_scheduled w ≤ Utils.total_hearings w
        ∧ ∃ h, h ∈ rows schedule_df
               ∧ Utils.w_judge_id w = h_judge_id h
               ∧ Utils.w_judge_name w = h_judge_name h.
Proof.
  intros Hperm Hcols.
  assert (Hcol : ∀ c, c ∈ ["judge_id"; "judge_name"; "case_id";
                           "hearing_date"]%string →
                      has_column schedule_df c = true).
  { intros c Hc. unfold has_column. apply bool_decide_eq_true. auto. }
  unfold Utils.analyze_workload_distribution.
  rewrite (Hcol "judge_id"%string) by (apply (bool_decide_unpack _); done).
  rewrite orb_false_r.
  destruct (Utils.empty schedule_df) eqn:Hempty.
  - exists []. unfold Utils.empty in Hempty.
    apply orb_true_iff in Hempty as [Hrows|Hnocol].
    + apply bool_decide_eq_true in Hrows. rewrite Hrows.
      split; [done|]. split; [done|]. split; [constructor|].
      split; intros x Hx; by apply elem_of_nil in Hx.
    + apply bool_decide_eq_true in Hnocol.
      specialize (Hcols "judge_id"%string). rewrite Hnocol in Hcols.
      exfalso. eapply elem_of_nil, Hcols. left.
  - unfold column.
    rewrite !Hcol by (apply (bool_decide_unpack _); done).
    cbn [bind]. rewrite zip_fmap_same.
    set (key := λ h : Hearing, (h_judge_id h, h_judge_name h)).
    set (keys := merge_sort Utils.judge_key_le
                   (remove_dups (key <$> rows schedule_df))).
    assert (Hkeys : keys ≡ₚ remove_dups (key <$> rows schedule_df))
      by apply merge_sort_Permutation.
    assert (Hnd : NoDup keys) by (rewrite Hkeys; apply NoDup_remove_dups).
    assert (Hin : ∀ k, k ∈ keys ↔ ∃ h, h ∈ rows schedule_df ∧ key h = k).
    { intros k. rewrite Hkeys, elem_of_remove_dups, list_elem_of_fmap.
      split; intros (h & ? & ?); by exists h. }
    eexists. split; [done|].
    split; [|split; [|split]].
    + rewrite (foldr_add_perm _ _ (fmap_Permutation _ _ _ (Hperm _))).
      rewrite (foldr_add_sizes
                 (λ k, length (filter (λ h, key h = k) (rows schedule_df))))
        by done.
      unfold len. f_equal. apply sum_group_sizes; [done|].
      intros h Hh. apply Hin. by exists h.
    + rewrite (Hperm _), <- list_fmap_compose.
      assert (Hid : ∀ ks : list (Z * string),
                ((λ w, (Utils.w_judge_id w, Utils.w_judge_name w))
                   ∘ Utils.workload_row F schedule_df) <$> ks = ks).
      { induction ks as [|[j n] ks IH]; [done|]. by rewrite fmap_cons, IH. }
      by rewrite Hid.
    + intros h Hh. exists (Utils.workload_row F schedule_df (key h)).
      split; [|done]. rewrite (Hperm _). apply list_elem_of_fmap.
      exists (key h). split; [done|]. apply Hin. by exists h.
    + intros w Hw. rewrite (Hperm _) in Hw.
      apply list_elem_of_fmap in Hw as (k & -> & Hk).
      apply Hin in Hk as (h & Hh & <-).
      split; [|by exists h].
      cbn [Utils.workload_row Utils.days_scheduled Utils.total_hearings].
      unfold nunique, len.
      set (group := filter (λ h0, (h_judge_id h0, h_judge_name h0) = key h)
                      (rows schedule_df)).
      assert (Hgroup : hearing_date <$> group ≠ []).
      { assert (Hg : h ∈ group) by by apply list_elem_of_filter.
        destruct group; [by apply elem_of_nil in Hg|done]. }
      pose proof (remove_dups_length_pos _ Hgroup).
      pose proof (remove_dups_length_le (hearing_date <$> group)) as Hle.
      rewrite length_fmap in Hle. lia.
Qed.

Lemma workload_accounts_for_every_hearing_witness :
  (∀ c, c ∈ ["judge_id"; "judge_name"; "case_id"; "hearing_date"]%string →
        c ∈ columns two_hearings)
  ∧ ∃ workload,
      Utils.analyze_workload_distribution exact_series (λ l, l) two_hearings
      = Ok workload
      ∧ foldr Z.add 0 (Utils.total_hearings <$> workload)
        = len (rows two_hearings).
Proof.
  assert (Hcols : ∀ c, c ∈ ["judge_id"; "judge_name"; "case_id";
                            "hearing_date"]%string →
                       c ∈ columns two_hearings).
  { apply Forall_forall. apply (bool_decide_unpack _). by vm_compute. }
  split; [done|].
  destruct (workload_accounts_for_every_hearing exact_series (λ l, l)
              two_hearings (λ l, reflexivity l) Hcols)
    as (workload & Hw & Hsum & _).
  by exists workload.
Defined.

Lemma filter_eq_whole {A} (P : A → Prop) `{∀ x, Decision (P x)} (l : list A) :
  filter P l = l ↔ Forall P l.
Proof.
  split.
  - intros Heq. apply Forall_forall. intros x Hx. rewrite <- Heq in Hx.
    by apply list_elem_of_filter in Hx as [? _].
  - induction 1 as [|x l Hx _ IH]; [done|].
    rewrite filter_cons. destruct (decide (P x)); [|done]. by rewrite IH.
Qed.

(** ** The utilization table *)

(** [daily_counts.get(d, 0)] is the number of hearings on [d]. *)
Lemma daily_count_spec (schedule_df : ScheduleDF) (d : Z) :
  Utils.empty schedule_df = false →
  has_column schedule_df "hearing_date" = true →
  Utils.daily_count schedule_df d = count_date d (rows schedule_df).
Proof.
  intros Hempty Hcol. unfold Utils.daily_count, count_date.
  rewrite Hempty, Hcol. cbn [negb andb].
  replace (length (filter (λ h, hearing_date h = d) (rows schedule_df)))
    with (length (filter (λ k, k = d) (hearing_date <$> rows schedule_df)))
    by apply length_filter_fmap.
  set (keys := hearing_date <$> rows schedule_df).
  destruct (filter (λ kv, kv.1 = d) (groupby_size Z.le keys))
    as [|[k n] rest] eqn:Hfilter; simpl.
  - destruct (filter (λ k, k = d) keys) as [|k ks] eqn:Hks; [done|].
    assert (Hk : k ∈ filter (λ k, k = d) keys) by (rewrite Hks; left).
    apply list_elem_of_filter in Hk as [-> Hk].
    assert (Hd : (d, Z.of_nat (length (filter (λ k', k' = d) keys)))
                 ∈ filter (λ kv, kv.1 = d) (groupby_size Z.le keys)).
    { apply list_elem_of_filter. split; [done|].
      by apply groupby_size_spec. }
    rewrite Hfilter in Hd. by apply elem_of_nil in Hd.
  - assert (Hkn : (k, n) ∈ filter (λ kv, kv.1 = d) (groupby_size Z.le keys))
      by (rewrite Hfilter; left).
    apply list_elem_of_filter in Hkn as [Hkd Hkn]. simpl in Hkd. subst k.
    by apply groupby_size_elem in Hkn as [_ ->].
Qed.

Lemma daily_count_empty (schedule_df : ScheduleDF) (d : Z) :
  rows schedule_df = [] → Utils.daily_count schedule_df d = 0.
Proof.
  intros Hrows. unfold Utils.daily_count, Utils.empty.
  by rewrite (bool_decide_eq_true_2 _ Hrows).
Qed.

Lemma filter_key_within {A K} `{EqDecision K} (key : A → K) (groups : list K)
    (k : K) (l : list A) :
  k ∈ groups →
  filter (λ x, key x = k) (filter (λ x, key x ∈ groups) l)
  = filter (λ x, key x = k) l.
Proof.
  intros Hk. induction l as [|x l IH]; [done|].
  rewrite !filter_cons. destruct (decide (key x ∈ groups)) as [Hin|Hout].
  - rewrite filter_cons. by rewrite IH.
  - rewrite IH. destruct (decide (key x = k)) as [Heq|]; [|done].
    by rewrite Heq in Hout.
Qed.

Lemma StronglySorted_filter_lt (P : Z → Prop) `{∀ x, Decision (P x)}
    (l : list Z) :
  StronglySorted Z.lt l → StronglySorted Z.lt (filter P l).
Proof.
  induction 1 as [|x l Hl IH Hx]; [constructor|].
  rewrite filter_cons. destruct (decide (P x)); [|done].
  constructor; [done|]. apply Forall_forall. intros y Hy.
  apply list_elem_of_filter in Hy as [_ Hy].
  rewrite Forall_forall in Hx. by apply Hx.
Qed.

Lemma weekdays_between_NoDup start_date end_date :
  NoDup (Utils.weekdays_between start_date end_date).
Proof. apply NoDup_filter, NoDup_seqZ. Qed.

Lemma elem_of_weekdays_between start_date end_date d :
  d ∈ Utils.weekdays_between start_date end_date
  ↔ weekday d < 5 ∧ start_date ≤ d ≤ end_date.
Proof.
  unfold Utils.weekdays_between.
  rewrite list_elem_of_filter, elem_of_seqZ. lia.
Qed.

Lemma daily_count_rows (schedule_df : ScheduleDF) (d : Z) :
  rows schedule_df = [] ∨ has_column schedule_df "hearing_date" = true →
  Utils.daily_count schedule_df d = count_date d (rows schedule_df).
Proof.
  intros [Hrows|Hcol].
  - rewrite daily_count_empty by done. by rewrite Hrows.
  - destruct (Utils.empty schedule_df) eqn:Hempty;
      [|by apply daily_count_spec].
    unfold Utils.empty in Hempty.
    apply orb_true_iff in Hempty as [Hrows|Hnocol].
    + apply bool_decide_eq_true in Hrows.
      rewrite daily_count_empty by done. by rewrite Hrows.
    + apply bool_decide_eq_true in Hnocol.
      unfold has_column in Hcol. apply bool_decide_eq_true in Hcol.
      rewrite Hnocol in Hcol. by apply elem_of_nil in Hcol.
Qed.

Lemma gaps_table_dates (F : Utils.SeriesFloats) (schedule_df : ScheduleDF)
    (start_date end_date : Z) :
  Utils.g_date
    <$> Utils.identify_scheduling_gaps F schedule_df start_date end_date
  = Utils.weekdays_between start_date end_date.
Proof.
  unfold Utils.identify_scheduling_gaps.
  rewrite <- list_fmap_compose. simpl.
  generalize (Utils.weekdays_between start_date end_date).
  induction l as [|d l IH]; [done|]. by rewrite fmap_cons, IH.
Qed.

Lemma gaps_table_sum (F : Utils.SeriesFloats) (schedule_df : ScheduleDF)
    (start_date end_date : Z) :
  rows schedule_df = [] ∨ has_column schedule_df "hearing_date" = true →
  foldr Z.add 0
    (Utils.hearings_scheduled
       <$> Utils.identify_scheduling_gaps F schedule_df start_date end_date)
  = len (filter (λ h, weekday (hearing_date h) < 5
                      ∧ start_date ≤ hearing_date h ≤ end_date)
           (rows schedule_df)).
Proof.
  intros Hdf. unfold Utils.identify_scheduling_gaps.
  rewrite (foldr_add_sizes
             (λ d, length (filter (λ h, hearing_date h = d)
                             (rows schedule_df))))
    by (intros d; simpl; by apply daily_count_rows).
  unfold len. f_equal.
  rewrite <- (sum_group_sizes hearing_date
                (filter (λ h, weekday (hearing_date h) < 5
                              ∧ start_date ≤ hearing_date h ≤ end_date)
                   (rows schedule_df))
                (Utils.weekdays_between start_date end_date)).
  - apply sum_list_with_ext_in. intros d Hd.
    rewrite <- (filter_key_within hearing_date
                  (Utils.weekdays_between start_date end_date) d) by done.
    f_equal. f_equal. apply list_filter_iff. intros h.
    by rewrite elem_of_weekdays_between.
  - apply weekdays_between_NoDup.
  - intros h Hh. apply list_elem_of_filter in Hh as [Hh _].
    by apply elem_of_weekdays_between.
Qed.

(** X21.  [identify_scheduling_gaps] lists each weekday between
    [start_date] and [end_date] once, in increasing order, with the number
    of hearings of the schedule on that day ([0] for a day without
    hearings); the counts add up to the hearings that fall on a weekday of
    the period. *)
Theorem gaps_table_counts_weekday_hearings (F : Utils.SeriesFloats)
    (schedule_df : ScheduleDF) (start_date end_date : Z) :
  has_column schedule_df "hearing_date" = true →
  let table :=
    Utils.identify_scheduling_gaps F schedule_df start_date end_date in
  StronglySorted Z.lt (Utils.g_date <$> table)
  ∧ (∀ d, d ∈ Utils.g_date <$> table
          ↔ weekday d < 5 ∧ start_date ≤ d ≤ end_date)
  ∧ (∀ g, g ∈ table →
       Utils.hearings_scheduled g
       = count_date (Utils.g_date g) (rows schedule_df))
  ∧ foldr Z.add 0 (Utils.hearings_scheduled <$> table)
    = len (filter (λ h, weekday (hearing_date h) < 5
                        ∧ start_date ≤ hearing_date h ≤ end_date)
             (rows schedule_df)).
Proof.
  intros Hcol table. unfold table.
  split; [|split; [|split]].
  - rewrite gaps_table_dates. unfold Utils.weekdays_between.
    apply StronglySorted_filter_lt.
    assert (Hseq : ∀ n m, StronglySorted Z.lt (seqZ m (Z.of_nat n))).
    { induction n as [|n IH]; intros m; [constructor|].
      rewrite seqZ_cons by lia. constructor.
      - replace (Z.pred (Z.of_nat (S n))) with (Z.of_nat n) by lia.
        apply IH.
      - apply Forall_forall. intros x Hx. apply elem_of_seqZ in Hx. lia. }
    destruct (decide (0 ≤ end_date - start_date + 1)) as [Hpos|Hneg].
    + rewrite <- (Z2Nat.id _ Hpos). apply Hseq.
    + rewrite seqZ_nil by lia. constructor.
  - intros d. rewrite gaps_table_dates. apply elem_of_weekdays_between.
  - intros g Hg. unfold Utils.identify_scheduling_gaps in Hg.
    apply list_elem_of_fmap in Hg as (d & -> & _). simpl.
    apply daily_count_rows. by right.
  - apply gaps_table_sum. by right.
Qed.

Lemma gaps_table_counts_weekday_hearings_witness :
  let table :=
    Utils.identify_scheduling_gaps exact_series two_hearings monday
      (monday + 6) in
  has_column two_hearings "hearing_date" = true
  ∧ foldr Z.add 0 (Utils.hearings_scheduled <$> table)
    = len (filter (λ h, weekday (hearing_date h) < 5
                        ∧ monday ≤ hearing_date h ≤ monday + 6)
             (rows two_hearings)).
Proof.
  intros table.
  assert (Hcol : has_column two_hearings "hearing_date" = true) by done.
  split; [done|].
  exact (proj2 (proj2 (proj2
           (gaps_table_counts_weekday_hearings exact_series two_hearings
              monday (monday + 6) Hcol)))).
Defined.

(** X22.  The utilization table of the heuristic's own schedule, taken over
    the scheduling horizon, accounts for every hearing: the daily counts add
    up to the number of rows of the schedule (zero for the empty schedule,
    without raising), and no day of the table exceeds
    [max(0, max_hearings_per_day)]. *)
Theorem gaps_table_of_heuristic_schedule (F : Utils.SeriesFloats)
    (sort_values : list Case → list Case) (self : HearingScheduler)
    (cases_df : CasesDF) (judges_df : list Judge) (start_date num_days : Z) :
  ∃ schedule_df,
    schedule_hearings_heuristic sort_values self cases_df judges_df
      start_date num_days = Ok schedule_df
    ∧ let table :=
        Utils.identify_scheduling_gaps F schedule_df start_date
          (start_date + num_days - 1) in
      foldr Z.add 0 (Utils.hearings_scheduled <$> table)
      = len (rows schedule_df)
      ∧ ∀ g, g ∈ table →
             0 ≤ Utils.hearings_scheduled g
               ≤ Z.max 0 (max_hearings_per_day self).
Proof.
  eexists. split; [apply schedule_hearings_heuristic_eq|].
  set (sched := schedule _).
  assert (Hdf : rows (DataFrame sched) = []
                ∨ has_column (DataFrame sched) "hearing_date" = true).
  { destruct sched; [by left|by right]. }
  cbv zeta. split.
  - rewrite gaps_table_sum by done. f_equal.
    rewrite rows_DataFrame.
    apply (proj2 (filter_eq_whole _ _)).
    apply place_all_Forall; [|done].
    intros c d j _ (o & Ho & ->) Hwk _. simpl.
    apply elem_of_seqZ in Ho. lia.
  - intros g Hg. unfold Utils.identify_scheduling_gaps in Hg.
    apply list_elem_of_fmap in Hg as (d & -> & _). simpl.
    rewrite daily_count_rows by done. rewrite rows_DataFrame.
    destruct (within_limits_place_all self cases_df judges_df start_date
                num_days (processing_order sort_values cases_df)
                (initial_state judges_df start_date num_days)
                (within_limits_nil self)) as [_ Hd].
    split; [unfold count_date; lia|apply Hd].
Qed.

(** ** The efficiency metrics of a schedule with its columns *)

Section EfficiencyFacts.

Import OptimizationUtils.

Variable F : Floats.
Variable today : Z.

Lemma priority_metrics_keeps schedule_df cases_df
    (metrics : gmap string (metric F)) :
  ∃ metrics',
    priority_metrics F schedule_df cases_df metrics = Ok metrics'
    ∧ ∀ k, k ≠ "avg_priority_scheduled"%string →
           k ≠ "high_priority_coverage"%string →
           metrics' !! k = metrics !! k.
Proof.
  unfold priority_metrics, column.
  destruct (has_column schedule_df "priority_score"); [|by eexists].
  cbn [bind].
  destruct (has_priority_score cases_df); [case_bool_decide|];
    (eexists; split; [done|]); intros k Hk1 Hk2;
    by rewrite ?lookup_insert_ne.
Qed.

Lemma lead_time_metrics_keeps schedule_df
    (metrics : gmap string (metric F)) :
  has_column schedule_df "case_id" = true →
  ∃ metrics',
    lead_time_metrics F today schedule_df metrics = Ok metrics'
    ∧ ∀ k, k ≠ "avg_days_to_hearing"%string →
           metrics' !! k = metrics !! k.
Proof.
  intros Hcase. unfold lead_time_metrics, column. rewrite Hcase.
  destruct (has_column schedule_df "hearing_date"); [|by eexists].
  cbn [bind]. eexists. split; [done|].
  intros k Hk. by rewrite lookup_insert_ne.
Qed.

End EfficiencyFacts.

(** X23.  [calculate_efficiency] raises only for a schedule frame that
    lacks one of the columns [case_id], [judge_id], [hearing_date] (a
    [KeyError] that names it).  On a frame that has the three it returns
    the five base metrics and [avg_days_to_hearing]; [coverage_rate] is the
    integer 0 when there is
    no case and [judge_utilization] is 0 when there is no judge (no
    division by zero), and [slot_utilization] is reported exactly when the
    schedule has a row. *)
Theorem calculate_efficiency_raises_only_for_missing_column
    (F : OptimizationUtils.Floats) (today : Z) (schedule_df : ScheduleDF)
    (cases_df : CasesDF) (judges_df : list Judge) :
  match OptimizationUtils.calculate_efficiency F today schedule_df cases_df
          judges_df with
  | Ok metrics =>
      (∀ c, c ∈ ["case_id"; "judge_id"; "hearing_date"]%string →
            has_column schedule_df c = true)
      ∧ (∀ k, k ∈ ["coverage_rate"; "judge_utilization";
                   "avg_hearings_per_day"; "workload_std_dev";
                   "avg_hearings_per_judge"; "avg_days_to_hearing"]%string →
              is_Some (metrics !! k))
      ∧ (case_rows cases_df = [] →
         metrics !! "coverage_rate"%string = Some (OptimizationUtils.MInt 0))
      ∧ (judges_df = [] →
         metrics !! "judge_utilization"%string
         = Some (OptimizationUtils.MInt 0))
      ∧ (is_Some (metrics !! "slot_utilization"%string)
         ↔ rows schedule_df ≠ [])
  | Raise e =>
      ∃ c, e = KeyError c
           ∧ c ∈ ["case_id"; "judge_id"; "hearing_date"]%string
           ∧ has_column schedule_df c = false
  end.
Proof.
  unfold OptimizationUtils.calculate_efficiency, column.
  destruct (has_column schedule_df "case_id") eqn:Hcase;
    [|exists "case_id"%string; split; [done|]; split; [|done];
      apply (bool_decide_unpack _); done].
  cbn [bind].
  destruct (has_column schedule_df "judge_id") eqn:Hjudge;
    [|exists "judge_id"%string; split; [done|]; split; [|done];
      apply (bool_decide_unpack _); done].
  cbn [bind].
  destruct (has_column schedule_df "hearing_date") eqn:Hdate;
    [|exists "hearing_date"%string; split; [done|]; split; [|done];
      apply (bool_decide_unpack _); done].
  cbn [bind andb].
  match goal with
  | |- context [OptimizationUtils.priority_metrics F schedule_df cases_df ?m]
    => set (base := m);
       destruct (priority_metrics_keeps F schedule_df cases_df base)
         as (m1 & -> & Hm1)
  end.
  cbn [bind].
  destruct (lead_time_metrics_keeps F today schedule_df m1 Hcase)
    as (m2 & Hlead & Hm2).
  rewrite Hlead. cbn [bind].
  assert (Hkeep : ∀ k, k ≠ "avg_priority_scheduled"%string →
                       k ≠ "high_priority_coverage"%string →
                       k ≠ "avg_days_to_hearing"%string →
                       m2 !! k = base !! k).
  { intros k ? ? ?. rewrite Hm2, Hm1; done. }
  assert (Hlt : is_Some (m2 !! "avg_days_to_hearing"%string)).
  { unfold OptimizationUtils.lead_time_metrics, column in Hlead.
    rewrite Hcase, Hdate in Hlead. cbn [bind] in Hlead.
    injection Hlead as <-. rewrite lookup_insert_eq. by eexists. }
  assert (Hdays : 0 < nunique (hearing_date <$> rows schedule_df)
                  ↔ rows schedule_df ≠ []).
  { unfold nunique, len. destruct (rows schedule_df) as [|h l] eqn:Hrows.
    - simpl. split; [lia|done].
    - split; [done|]. intros _.
      pose proof (remove_dups_length_pos (hearing_date <$> h :: l)) as Hpos.
      rewrite fmap_cons in *. specialize (Hpos ltac:(done)). lia. }
  assert (Hcols : ∀ c, c ∈ ["case_id"; "judge_id"; "hearing_date"]%string →
                       has_column schedule_df c = true).
  { intros c Hc. repeat (apply elem_of_cons in Hc as [->|Hc]; [done|]).
    by apply elem_of_nil in Hc. }
  assert (Hbase : ∀ k, k ∈ ["coverage_rate"; "judge_utilization";
                   "avg_hearings_per_day"; "workload_std_dev";
                   "avg_hearings_per_judge"]%string → is_Some (base !! k)).
  { intros k Hk. unfold base.
    repeat (apply elem_of_cons in Hk as [->|Hk];
            [rewrite ?lookup_insert_ne by done; rewrite lookup_insert_eq;
             by eexists|]).
    by apply elem_of_nil in Hk. }
  assert (Hcov : case_rows cases_df = [] →
                 base !! "coverage_rate"%string
                 = Some (OptimizationUtils.MInt 0)).
  { intros Hnil. unfold base. rewrite !lookup_insert_ne by done.
    rewrite lookup_insert_eq, Hnil. done. }
  assert (Hutil : judges_df = [] →
                  base !! "judge_utilization"%string
                  = Some (OptimizationUtils.MInt 0)).
  { intros Hnil. unfold base. rewrite !lookup_insert_ne by done.
    rewrite lookup_insert_eq, Hnil. done. }
  assert (Hslot : base !! "slot_utilization"%string = None).
  { unfold base. by rewrite !lookup_insert_ne. }
  assert (Hall : ∀ k, k ∈ ["coverage_rate"; "judge_utilization";
                   "avg_hearings_per_day"; "workload_std_dev";
                   "avg_hearings_per_judge"; "avg_days_to_hearing"]%string →
                   is_Some (m2 !! k)).
  { intros k Hk.
    destruct (decide (k = "avg_days_to_hearing"%string)) as [->|Hne];
      [done|].
    rewrite Hkeep.
    - apply Hbase.
      repeat (apply elem_of_cons in Hk as [->|Hk];
              [apply (bool_decide_unpack _); done|]).
      by apply elem_of_nil in Hk.
    - repeat (apply elem_of_cons in Hk as [->|Hk]; [done|]).
      by apply elem_of_nil in Hk.
    - repeat (apply elem_of_cons in Hk as [->|Hk]; [done|]).
      by apply elem_of_nil in Hk.
    - done. }
  case_bool_decide as Hpos.
  - split; [done|]. split; [|split; [|split]].
    + intros k Hk. rewrite lookup_insert_ne; [by apply Hall|].
      repeat (apply elem_of_cons in Hk as [->|Hk]; [done|]).
      by apply elem_of_nil in Hk.
    + intros Hnil. rewrite lookup_insert_ne by done.
      rewrite Hkeep by done. by apply Hcov.
    + intros Hnil. rewrite lookup_insert_ne by done.
      rewrite Hkeep by done. by apply Hutil.
    + rewrite lookup_insert_eq. split; [|by eexists].
      intros _. by apply Hdays.
  - split; [done|]. split; [done|]. split; [|split].
    + intros Hnil. rewrite Hkeep by done. by apply Hcov.
    + intros Hnil. rewrite Hkeep by done. by apply Hutil.
    + rewrite Hkeep by done. rewrite Hslot. split.
      * by intros [? [=]].
      * intros Hne. by apply Hdays in Hne.
Qed.

(** ** [generate_optimal_schedule] *)

Lemma heuristic_rows_of_inputs (sort_values : list Case → list Case) self
    cases_df judges_df start_date num_days :
  (∀ l, sort_values l ≡ₚ l) →
  ∃ schedule_df,
    schedule_hearings_heuristic sort_values self cases_df judges_df
      start_date num_days = Ok schedule_df
    ∧ ∀ h, h ∈ rows schedule_df →
           row_of_inputs self cases_df judges_df start_date num_days h.
Proof.
  intros Hperm.
  eexists. split; [apply schedule_hearings_heuristic_eq|].
  rewrite rows_DataFrame. apply Forall_forall.
  apply place_all_Forall; [|done].
  intros c d j Hc (o & Ho & ->) _ Hj. exists c, j.
  rewrite (processing_order_perm sort_values cases_df Hperm) in Hc.
  apply elem_of_seqZ in Ho. simpl. repeat split; [done|done|lia|lia].
Qed.

Lemma optimized_rows_of_inputs (sort_values : list Case → list Case)
    (ORTOOLS_AVAILABLE : bool)
    (Solve : CpModel → CpSolverStatus * (BoolVar → Z)) self cases_df
    judges_df start_date num_days :
  (∀ l, sort_values l ≡ₚ l) →
  ∃ schedule_df,
    schedule_hearings_optimized sort_values ORTOOLS_AVAILABLE Solve self
      cases_df judges_df start_date num_days = Ok schedule_df
    ∧ ∀ h, h ∈ rows schedule_df →
           row_of_inputs self cases_df judges_df start_date num_days h.
Proof.
  intros Hperm. unfold schedule_hearings_optimized.
  destruct ORTOOLS_AVAILABLE; cbn [negb];
    [|by apply heuristic_rows_of_inputs].
  destruct (build_model_ok self cases_df judges_df num_days)
    as (terms & ->).
  cbn [bind]. destruct (Solve _) as [status value].
  case_bool_decide; [|by apply heuristic_rows_of_inputs].
  rewrite extract_schedule_picked. cbn [bind].
  eexists. split; [done|]. rewrite rows_DataFrame.
  intros h Hh.
  apply list_elem_of_bind in Hh as (c & Hh & Hc).
  apply list_elem_of_bind in Hh as (j & Hh & Hj).
  apply list_elem_of_bind in Hh as (d & Hh & Hd).
  unfold picked in Hh. case_bool_decide as Hv; [|by apply elem_of_nil in Hh].
  apply list_elem_of_singleton in Hh as ->.
  apply elem_of_seqZ in Hc, Hj, Hd. unfold len in Hc, Hj.
  exists (case_rows cases_df !!! Z.to_nat c), (judges_df !!! Z.to_nat j).
  split; [apply list_elem_of_lookup_total_2; lia|].
  split; [apply list_elem_of_lookup_total_2; lia|].
  split; [done|]. simpl. lia.
Qed.

Lemma priority_or_50_nonzero (p : option Q) : ¬ (priority_or_50 p == 0)%Q.
Proof.
  unfold priority_or_50. destruct p as [q|]; [|done].
  destruct (Qeq_bool q 0) eqn:Hq; [done|]. by apply Qeq_bool_neq.
Qed.

(** ** The default scheduler against the default rules *)

Lemma priority_deadline_late_rows (today : Z) (schedule_df : ScheduleDF)
    (threshold : Q) (max_days : Z) :
  has_column schedule_df "priority_score" = true →
  has_column schedule_df "hearing_date" = true →
  has_column schedule_df "case_number" = true →
  _validate_priority_deadline today schedule_df threshold max_days
  = Ok ((λ row, BeyondDeadline (h_case_number row) (h_priority_score row)
                  max_days)
          <$> filter (λ row, today + max_days < hearing_date row)
                (filter (λ row, Qle_bool threshold (h_priority_score row))
                   (rows schedule_df))).
Proof.
  intros Hpri Hdate Hnum. unfold _validate_priority_deadline.
  rewrite Hpri. simpl.
  rewrite (for_each_collect _ (λ row,
    if bool_decide (today + max_days < hearing_date row)
    then [BeyondDeadline (h_case_number row) (h_priority_score row)
            max_days]
    else [])).
  - simpl. f_equal. apply bind_filter_fmap.
  - intros acc row _. rewrite (row_get_column _ _ _ _ Hdate). simpl.
    case_bool_decide; [|by rewrite app_nil_r].
    by rewrite (row_get_column _ _ _ _ Hnum),
               (row_get_column _ _ _ _ Hpri).
Qed.

(** X25.  A schedule of the heuristic with the default limits, checked
    against [create_default_constraints]: the two capacity rules and the
    weekend rule find nothing, so the violations are exactly the hearings
    of cases with priority 75 or more that lie more than 7 days after
    today, and the schedule is valid when there is none.  For a schedule
    without hearings the check raises [KeyError]. *)
Theorem default_schedule_against_default_rules (today : Z)
    (sort_values : list Case → list Case) (cases_df : CasesDF)
    (judges_df : list Judge) (start_date num_days : Z) :
  ∃ scheduler rules schedule_df,
    HearingScheduler_default = Ok scheduler
    ∧ create_default_constraints = Ok rules
    ∧ schedule_hearings_heuristic sort_values scheduler cases_df judges_df
        start_date num_days = Ok schedule_df
    ∧ validate_schedule today rules schedule_df judges_df
      = match rows schedule_df with
        | [] => Raise (KeyError "hearing_date")
        | _ =>
            let late :=
              filter (λ row, today + 7 < hearing_date row)
                (filter (λ row, Qle_bool 75 (h_priority_score row))
                   (rows schedule_df)) in
            Ok (bool_decide (late = []),
                (λ row, BeyondDeadline (h_case_number row)
                          (h_priority_score row) 7) <$> late)
        end.
Proof.
  eexists _, _, _. split; [done|]. split; [done|].
  split; [apply schedule_hearings_heuristic_eq|].
  set (self := {| max_hearings_per_day := 20; max_hearings_per_judge := 15;
                  working_hours_per_day := 6;
                  avg_hearing_duration := 1 # 2 |}).
  pose proof (within_limits_place_all self cases_df judges_df start_date
                num_days (processing_order sort_values cases_df)
                (initial_state judges_df start_date num_days)
                (within_limits_nil self)) as Hwithin.
  assert (Hwk : Forall (λ h, weekday (hearing_date h) < 5)
                  (schedule
                     (place_all self cases_df judges_df start_date num_days
                        (processing_order sort_values cases_df)
                        (initial_state judges_df start_date num_days)))).
  { apply place_all_Forall; [|done]. by intros c d j _ _ Hwk _. }
  revert Hwithin Hwk. generalize (schedule
    (place_all self cases_df judges_df start_date num_days
       (processing_order sort_values cases_df)
       (initial_state judges_df start_date num_days))).
  intros sched Hwithin Hwk. rewrite rows_DataFrame.
  destruct sched as [|h sched]; [done|].
  pose proof (validate_within_limits today self (h :: sched) judges_df
                ltac:(done) Hwithin) as Hcap.
  pose proof (validate_no_weekends_weekdays (h :: sched) Hwk) as Hweekend.
  set (df := DataFrame (h :: sched)) in *.
  pose proof (priority_deadline_late_rows today df 75 7
                ltac:(done) ltac:(done) ltac:(done)) as Hlate.
  unfold validate_schedule in Hcap |- *.
  cbn [constraints add_max_hearings_per_judge add_max_hearings_per_day
       append init app for_each validate_constraint max_hearings_per_day
       max_hearings_per_judge self] in Hcap.
  match goal with
  | |- context [for_each _ ?cs []] =>
      change cs
        with [MaxHearingsPerDay 20; MaxHearingsPerJudge 15;
              WorkingHoursLimit 6 (1 # 2) 12;
              PriorityDeadline 75 7; NoWeekends; BalancedWorkload (1 # 4)]
  end.
  cbn [for_each validate_constraint].
  destruct (_validate_max_hearings_per_day df 20) as [v1|e] eqn:Hv1;
    [|done].
  cbn [bind app] in Hcap |- *.
  destruct (_validate_max_hearings_per_judge df 15) as [v2|e] eqn:Hv2;
    [|done].
  cbn [bind app] in Hcap |- *.
  injection Hcap as _ Hnil. apply app_eq_nil in Hnil as [-> ->].
  rewrite Hlate, Hweekend. cbn [bind app]. rewrite app_nil_r.
  change (rows df) with (h :: sched).
  match goal with |- context [_ <$> ?late] => generalize late end.
  by intros [|row late].
Qed.

(** * The schedulers with their exceptions *)

Lemma for_each_ext {A S} (body1 body2 : S → A → result S) (xs : list A)
    (s : S) :
  (∀ s x, x ∈ xs → body1 s x = body2 s x) →
  for_each body1 xs s = for_each body2 xs s.
Proof.
  revert s. induction xs as [|x xs IH]; intros s Hbody; [done|].
  simpl. rewrite (Hbody s x) by left.
  destruct (body2 s x) as [s'|e]; [|done]. simpl.
  apply IH. intros s'' y Hy. apply Hbody. by right.
Qed.

Lemma date_add_in_calendar start_date num_days i :
  Strict.in_calendar start_date num_days → i ∈ range num_days →
  Strict.date_add start_date i = Ok (start_date + i).
Proof.
  intros Hcal Hi. apply elem_of_seqZ in Hi.
  destruct Hcal as [Hn | [Hlo Hhi]]; [lia|].
  unfold Strict.date_add, Strict.timedelta, Strict.MAXORDINAL in *.
  rewrite bool_decide_eq_true_2 by lia. cbn [bind].
  by rewrite bool_decide_eq_true_2 by lia.
Qed.

(** A date addition returns the sum or raises [OverflowError]. *)
Lemma date_add_cases d i :
  Strict.date_add d i = Ok (d + i)
  ∨ Strict.date_add d i = Raise OverflowError.
Proof.
  unfold Strict.date_add, Strict.timedelta.
  case_bool_decide; [|by right]. cbn [bind].
  case_bool_decide; [by left | by right].
Qed.

Lemma bind_singleton_fmap {A B} (f : A → B) (l : list A) :
  l ≫= (λ x, [f x]) = f <$> l.
Proof. induction l as [|x l IH]; [done|]. by rewrite bind_cons, IH. Qed.

Lemma init_daily_hearings_eq start_date num_days :
  Strict.in_calendar start_date num_days →
  Strict.init_daily_hearings start_date num_days
  = Ok (init_daily_hearings start_date num_days).
Proof.
  intros Hcal. unfold Strict.init_daily_hearings.
  rewrite (for_each_collect _ (λ i, [start_date + i])).
  - cbn [bind app]. rewrite bind_singleton_fmap, <- list_fmap_compose. done.
  - intros acc i Hi. by rewrite (date_add_in_calendar _ _ _ Hcal Hi).
Qed.

Lemma init_judge_daily_hearings_eq judges_df start_date num_days :
  Strict.in_calendar start_date num_days →
  Strict.has_judge_column judges_df "judge_id" = true →
  Strict.init_judge_daily_hearings judges_df start_date num_days
  = Ok (init_judge_daily_hearings (Strict.judge_rows judges_df) start_date
          num_days).
Proof.
  intros Hcal Hid.
  unfold Strict.init_judge_daily_hearings, Strict.judges_column.
  rewrite Hid. cbn [bind].
  rewrite (for_each_collect _
             (λ jid, (λ i, (jid, start_date + i)) <$> range num_days)).
  - cbn [bind app]. unfold init_judge_daily_hearings. do 2 f_equal.
    generalize (judge_id <$> Strict.judge_rows judges_df).
    induction l as [|jid l IH]; [done|].
    rewrite !bind_cons, fmap_app, IH. f_equal.
    by rewrite <- list_fmap_compose.
  - intros acc jid _.
    rewrite (for_each_collect _ (λ i, [(jid, start_date + i)])).
    + by rewrite bind_singleton_fmap.
    + intros acc' i Hi. by rewrite (date_add_in_calendar _ _ _ Hcal Hi).
Qed.

Section StrictHeuristic.

Variable sort_values : list Case → list Case.
Variable self : HearingScheduler.
Variable cases_df : CasesDF.
Variable judges_df : Strict.JudgesDF.
Variable start_date num_days : Z.

Hypothesis has_judge_id :
  Strict.has_judge_column judges_df "judge_id" = true.

Lemma strict_try_judges_eq d jdh judges :
  Strict.try_judges self judges_df d jdh judges
  = try_judges self d jdh judges.
Proof.
  induction judges as [|j rest IH]; [done|].
  cbn [Strict.try_judges try_judges]. unfold Strict.judge_get.
  rewrite has_judge_id. cbn [bind].
  destruct (dict_get _ _ _) as [n|e]; [|done]. cbn [bind].
  by case_bool_decide.
Qed.

(** [judge_name] is read when a hearing is booked: the column is there, or
    there is no judge row to book. *)
Lemma strict_try_days_eq c st offsets :
  Strict.has_judge_column judges_df "judge_name" = true
  ∨ Strict.judge_rows judges_df = [] →
  (∀ o, o ∈ offsets → Strict.date_add start_date o = Ok (start_date + o)) →
  Strict.try_days self cases_df judges_df start_date c st offsets
  = try_days self cases_df (Strict.judge_rows judges_df) start_date c st
      offsets.
Proof.
  intros has_judge_name.
  induction offsets as [|o rest IH]; intros Hdates; [done|].
  cbn [Strict.try_days try_days].
  rewrite (Hdates o) by left. cbn [bind].
  assert (IH' := IH (λ o' Ho', Hdates o' (list_elem_of_further _ _ _ Ho'))).
  case_bool_decide; [done|].
  destruct (dict_get _ _ _) as [n|e]; [|done]. cbn [bind].
  case_bool_decide; [done|].
  rewrite strict_try_judges_eq.
  destruct has_judge_name as [Hname | Hrows].
  - destruct (try_judges _ _ _ _) as [[j|]|e]; [| done | done].
    cbn [bind]. unfold Strict.judge_get. rewrite has_judge_id, Hname. done.
  - rewrite Hrows. cbn [try_judges bind]. by rewrite Hrows in IH'.
Qed.

Hypothesis horizon_in_calendar : Strict.in_calendar start_date num_days.

Hypothesis has_judge_name :
  Strict.has_judge_column judges_df "judge_name" = true
  ∨ Strict.judge_rows judges_df = [] ∨ num_days ≤ 0.

Lemma strict_heuristic_loop_eq :
  Strict.heuristic_loop sort_values self cases_df judges_df start_date
    num_days
  = heuristic_loop sort_values self cases_df (Strict.judge_rows judges_df)
      start_date num_days.
Proof.
  unfold Strict.heuristic_loop, heuristic_loop.
  rewrite init_daily_hearings_eq, init_judge_daily_hearings_eq by done.
  cbn [bind]. apply for_each_ext. intros st c _.
  unfold Strict.schedule_case, schedule_case.
  destruct has_judge_name as [Hname | [Hrows | Hn]].
  - rewrite strict_try_days_eq; [done | by left |].
    intros o Ho. by apply (date_add_in_calendar _ num_days).
  - rewrite strict_try_days_eq; [done | by right |].
    intros o Ho. by apply (date_add_in_calendar _ num_days).
  - unfold range. by rewrite seqZ_nil.
Qed.

Lemma strict_heuristic_eq :
  Strict.schedule_hearings_heuristic sort_values self cases_df judges_df
    start_date num_days
  = schedule_hearings_heuristic sort_values self cases_df
      (Strict.judge_rows judges_df) start_date num_days.
Proof.
  unfold Strict.schedule_hearings_heuristic, schedule_hearings_heuristic.
  by rewrite strict_heuristic_loop_eq.
Qed.

Lemma strict_heuristic_warnings_eq :
  Strict.heuristic_warnings sort_values self cases_df judges_df start_date
    num_days
  = heuristic_warnings sort_values self cases_df
      (Strict.judge_rows judges_df) start_date num_days.
Proof.
  unfold Strict.heuristic_warnings, heuristic_warnings.
  by rewrite strict_heuristic_loop_eq.
Qed.

End StrictHeuristic.

(** Without the [judge_id] column the dict comprehension of line 95
    raises. *)
Lemma strict_heuristic_no_judge_id (sort_values : list Case → list Case)
    self cases_df judges_df start_date num_days :
  Strict.in_calendar start_date num_days →
  Strict.has_judge_column judges_df "judge_id" = false →
  Strict.heuristic_loop sort_values self cases_df judges_df start_date
    num_days = Raise (KeyError "judge_id").
Proof.
  intros Hcal Hid. unfold Strict.heuristic_loop.
  rewrite init_daily_hearings_eq by done. cbn [bind].
  unfold Strict.init_judge_daily_hearings, Strict.judges_column.
  by rewrite Hid.
Qed.

(** A loop of date additions that meets a date outside the calendar raises
    [OverflowError]. *)
Lemma for_each_dates_overflow {S} (f : S → Z → S) start_date offsets s i :
  i ∈ offsets →
  Strict.date_add start_date i = Raise OverflowError →
  for_each (λ s o, let! date := Strict.date_add start_date o in Ok (f s date))
    offsets s
  = Raise OverflowError.
Proof.
  revert s. induction offsets as [|o rest IH]; intros s Hi Hraise.
  - by apply elem_of_nil in Hi.
  - cbn [for_each].
    destruct (date_add_cases start_date o) as [Hok | Hov]; [|by rewrite Hov].
    rewrite Hok. cbn [bind]. apply IH; [|done].
    apply elem_of_cons in Hi as [-> | Hi]; [congruence | done].
Qed.

Lemma strict_heuristic_overflow (sort_values : list Case → list Case)
    self cases_df judges_df start_date num_days :
  ¬ Strict.in_calendar start_date num_days →
  Strict.heuristic_loop sort_values self cases_df judges_df start_date
    num_days = Raise OverflowError.
Proof.
  intros Hcal. unfold Strict.heuristic_loop, Strict.init_daily_hearings.
  assert (Hn : 0 < num_days).
  { destruct (decide (num_days ≤ 0)) as [Hle|]; [|lia].
    destruct Hcal. by left. }
  assert (Hbad : ∃ i, i ∈ range num_days
                      ∧ Strict.date_add start_date i = Raise OverflowError).
  { destruct (decide (1 ≤ start_date)) as [Hlo|Hlo].
    - exists (num_days - 1). split; [apply elem_of_seqZ; lia|].
      destruct (date_add_cases start_date (num_days - 1)) as [Hok|]; [|done].
      exfalso. apply Hcal. right. split; [done|].
      unfold Strict.date_add, Strict.timedelta in Hok.
      case_bool_decide; [|done]. cbn [bind] in Hok.
      case_bool_decide; [lia | done].
    - exists 0. split; [apply elem_of_seqZ; lia|].
      unfold Strict.date_add, Strict.timedelta.
      rewrite bool_decide_eq_true_2 by lia. cbn [bind].
      by rewrite bool_decide_eq_false_2 by lia. }
  destruct Hbad as (i & Hi & Hraise).
  by rewrite (for_each_dates_overflow (λ dates date, dates ++ [date])
                start_date (range num_days) [] i Hi Hraise).
Qed.

(** C8, the failing input.  An empty judge list that is a frame without
    columns ([pd.DataFrame([])], what the repository's own
    [pd.DataFrame([... for j in judges])] builds from no judge) makes the
    heuristic raise [KeyError] at [judges_df['judge_id']], where the claim
    says it returns the empty schedule; an empty frame that has the
    [judge_id] column behaves as the claim says: nothing is booked and every
    case is warned about. *)
Theorem heuristic_on_empty_judges_frame
    (sort_values : list Case → list Case) (self : HearingScheduler)
    (cases_df : CasesDF) (judges_df : Strict.JudgesDF)
    (start_date num_days : Z) :
  (∀ l, sort_values l ≡ₚ l) →
  Strict.judge_rows judges_df = [] →
  Strict.in_calendar start_date num_days →
  if Strict.has_judge_column judges_df "judge_id"
  then
    Strict.schedule_hearings_heuristic sort_values self cases_df judges_df
      start_date num_days = Ok (DataFrame [])
    ∧ ∃ unscheduled,
        Strict.heuristic_warnings sort_values self cases_df judges_df
          start_date num_days = Ok unscheduled
        ∧ unscheduled ≡ₚ case_number <$> case_rows cases_df
  else
    Strict.schedule_hearings_heuristic sort_values self cases_df judges_df
      start_date num_days = Raise (KeyError "judge_id")
    ∧ Strict.heuristic_warnings sort_values self cases_df judges_df
        start_date num_days = Raise (KeyError "judge_id").
Proof.
  intros Hperm Hrows Hcal.
  destruct (Strict.has_judge_column judges_df "judge_id") eqn:Hid.
  - rewrite strict_heuristic_eq, strict_heuristic_warnings_eq
      by (done || (right; by left)).
    rewrite Hrows. by apply heuristic_on_no_judge_rows.
  - unfold Strict.schedule_hearings_heuristic, Strict.heuristic_warnings.
    by rewrite strict_heuristic_no_judge_id.
Qed.

Lemma heuristic_on_empty_judges_frame_witness :
  ((∀ l, stable_sort_values l ≡ₚ l)
   ∧ Strict.judge_rows (Strict.judges_DataFrame []) = []
   ∧ Strict.in_calendar monday 5)
  ∧ Strict.schedule_hearings_heuristic stable_sort_values two_per_judge
      five_cases (Strict.judges_DataFrame []) monday 5
    = Raise (KeyError "judge_id").
Proof.
  assert (Hcal : Strict.in_calendar monday 5).
  { right. unfold Strict.MAXORDINAL, monday. lia. }
  split; [split; [exact stable_sort_values_perm | by split]|].
  exact (proj1 (heuristic_on_empty_judges_frame stable_sort_values
                  two_per_judge five_cases (Strict.judges_DataFrame [])
                  monday 5 stable_sort_values_perm eq_refl Hcal)).
Defined.

(** X1.  When the horizon lies in the calendar and [judges_df] has its
    [judge_id] and [judge_name] columns, the heuristic returns and every
    hearing falls on a weekday (Monday to Friday) of the horizon
    [start_date, start_date + num_days); when the horizon leaves the
    calendar, it raises [OverflowError] at the first dict comprehension. *)
Theorem heuristic_hearings_on_weekdays_of_horizon
    (sort_values : list Case → list Case) (self : HearingScheduler)
    (cases_df : CasesDF) (judges_df : Strict.JudgesDF)
    (start_date num_days : Z) :
  (Strict.in_calendar start_date num_days →
   Strict.has_judge_column judges_df "judge_id" = true →
   Strict.has_judge_column judges_df "judge_name" = true →
   ∃ schedule_df,
     Strict.schedule_hearings_heuristic sort_values self cases_df judges_df
       start_date num_days = Ok schedule_df
     ∧ ∀ h, h ∈ rows schedule_df →
            weekday (hearing_date h) < 5
            ∧ start_date ≤ hearing_date h < start_date + num_days)
  ∧ (¬ Strict.in_calendar start_date num_days →
     Strict.schedule_hearings_heuristic sort_values self cases_df judges_df
       start_date num_days = Raise OverflowError).
Proof.
  split.
  - intros Hcal Hid Hname.
    rewrite strict_heuristic_eq by (done || by left).
    eexists. split; [apply schedule_hearings_heuristic_eq|].
    rewrite rows_DataFrame. apply Forall_forall.
    apply place_all_Forall; [|done].
    intros c d j _ (o & Ho & ->) Hwk _. simpl.
    apply elem_of_seqZ in Ho. lia.
  - intros Hcal. unfold Strict.schedule_hearings_heuristic.
    by rewrite strict_heuristic_overflow.
Qed.

Lemma heuristic_hearings_on_weekdays_of_horizon_witness :
  (Strict.in_calendar monday 5
   ∧ Strict.has_judge_column (Strict.judges_DataFrame [judge_A]) "judge_id"
     = true
   ∧ Strict.has_judge_column (Strict.judges_DataFrame [judge_A]) "judge_name"
     = true
   ∧ ¬ Strict.in_calendar Strict.MAXORDINAL 5)
  ∧ (∃ schedule_df h,
       Strict.schedule_hearings_heuristic stable_sort_values two_per_judge
         three_cases (Strict.judges_DataFrame [judge_A]) monday 5
       = Ok schedule_df
       ∧ h ∈ rows schedule_df
       ∧ weekday (hearing_date h) < 5
       ∧ monday ≤ hearing_date h < monday + 5)
  ∧ Strict.schedule_hearings_heuristic stable_sort_values two_per_judge
      three_cases (Strict.judges_DataFrame [judge_A]) Strict.MAXORDINAL 5
    = Raise OverflowError.
Proof.
  assert (Hcal : Strict.in_calendar monday 5).
  { right. unfold Strict.MAXORDINAL, monday. lia. }
  assert (Hout : ¬ Strict.in_calendar Strict.MAXORDINAL 5).
  { unfold Strict.in_calendar, Strict.MAXORDINAL. lia. }
  split; [by repeat split|]. split.
  - destruct (proj1 (heuristic_hearings_on_weekdays_of_horizon
                       stable_sort_values two_per_judge three_cases
                       (Strict.judges_DataFrame [judge_A]) monday 5)
                Hcal eq_refl eq_refl) as (df & Hdf & Hrows).
    assert (Hex : ∃ h, h ∈ rows df).
    { vm_compute in Hdf. injection Hdf as <-. eexists. left. }
    destruct Hex as [h Hh].
    exists df, h. split; [done|]. split; [done|]. exact (Hrows h Hh).
  - exact (proj2 (heuristic_hearings_on_weekdays_of_horizon
                    stable_sort_values two_per_judge three_cases
                    (Strict.judges_DataFrame [judge_A]) Strict.MAXORDINAL 5)
             Hout).
Defined.

Lemma no_slot_no_solution self cases_df (judges : list Judge) num_days
    model value :
  build_model self cases_df judges num_days = Ok model →
  case_rows cases_df ≠ [] →
  judges = [] ∨ num_days ≤ 0 →
  ¬ satisfies value model.
Proof.
  intros Hm Hcases Hnone Hsat.
  destruct (model_solution_facts self cases_df judges num_days value model
              Hm Hsat) as (_ & Honce & _).
  assert (Hc : 0 ∈ range (len (case_rows cases_df))).
  { apply elem_of_seqZ. unfold len.
    destruct (case_rows cases_df); [done | simpl; lia]. }
  specialize (Honce 0 Hc).
  assert (Hvars : case_vars (len judges) num_days 0 = []).
  { unfold case_vars. destruct Hnone as [-> | Hn]; [done|].
    apply bind_all_nil. intros j _. unfold range. by rewrite seqZ_nil. }
  rewrite Hvars in Honce. done.
Qed.

(** X16.  With at least one case and a [judges_df] that has its [judge_id]
    column but no row, or with no day in the horizon, the model has no
    solution: whatever the (sound) solver answers, the optimized scheduler
    ends in the heuristic, and both return the empty frame without
    raising. *)
Theorem no_judge_or_no_day_gives_empty_schedule
    (sort_values : list Case → list Case) (ORTOOLS_AVAILABLE : bool)
    (Solve : CpModel → CpSolverStatus * (BoolVar → Z))
    (self : HearingScheduler) (cases_df : CasesDF)
    (judges_df : Strict.JudgesDF) (start_date num_days : Z) :
  (∀ model, (Solve model).1 ∈ [OPTIMAL; FEASIBLE] →
            satisfies (Solve model).2 model) →
  case_rows cases_df ≠ [] →
  Strict.has_judge_column judges_df "judge_id" = true →
  Strict.in_calendar start_date num_days →
  Strict.judge_rows judges_df = [] ∨ num_days ≤ 0 →
  Strict.schedule_hearings_heuristic sort_values self cases_df judges_df
    start_date num_days = Ok (DataFrame [])
  ∧ Strict.schedule_hearings_optimized sort_values ORTOOLS_AVAILABLE Solve
      self cases_df judges_df start_date num_days = Ok (DataFrame []).
Proof.
  intros Hsound Hcases Hid Hcal Hnone.
  assert (Hstrict : Strict.schedule_hearings_heuristic sort_values self
                      cases_df judges_df start_date num_days
                    = Ok (DataFrame [])).
  { rewrite strict_heuristic_eq; [|done..|].
    - by apply (no_slot_gives_empty_schedule sort_values false Solve).
    - right. destruct Hnone; [by left | by right]. }
  split; [done|].
  unfold Strict.schedule_hearings_optimized.
  destruct ORTOOLS_AVAILABLE; cbn [negb]; [|done].
  destruct (build_model self cases_df (Strict.judge_rows judges_df) num_days)
    as [model|e] eqn:Hm.
  2:{ destruct (build_model_ok self cases_df (Strict.judge_rows judges_df)
                  num_days) as [? Hok]. congruence. }
  cbn [bind]. specialize (Hsound model).
  destruct (Solve model) as [status value]. simpl in Hsound.
  case_bool_decide as Hst; [|done]. exfalso.
  apply (no_slot_no_solution self cases_df _ num_days model value Hm);
    [done | done | by apply Hsound].
Qed.

Lemma no_judge_or_no_day_gives_empty_schedule_witness :
  ((∀ model,
      (candidate_solver one_case_a_day model).1 ∈ [OPTIMAL; FEASIBLE] →
      satisfies (candidate_solver one_case_a_day model).2 model)
   ∧ case_rows three_cases ≠ []
   ∧ Strict.has_judge_column
       {| Strict.judge_columns := ["judge_id"; "judge_name"];
          Strict.judge_rows := [] |} "judge_id" = true
   ∧ Strict.in_calendar monday 5)
  ∧ Strict.schedule_hearings_heuristic stable_sort_values two_per_judge
      three_cases
      {| Strict.judge_columns := ["judge_id"; "judge_name"];
         Strict.judge_rows := [] |} monday 5 = Ok (DataFrame [])
  ∧ Strict.schedule_hearings_optimized stable_sort_values true
      (candidate_solver one_case_a_day) two_per_judge three_cases
      {| Strict.judge_columns := ["judge_id"; "judge_name"];
         Strict.judge_rows := [] |} monday 5 = Ok (DataFrame []).
Proof.
  assert (Hc : case_rows three_cases ≠ []) by done.
  assert (Hcal : Strict.in_calendar monday 5).
  { right. unfold Strict.MAXORDINAL, monday. lia. }
  split.
  - split; [exact (candidate_solver_sound one_case_a_day)|]. by repeat split.
  - exact (no_judge_or_no_day_gives_empty_schedule stable_sort_values true
             (candidate_solver one_case_a_day) two_per_judge three_cases
             {| Strict.judge_columns := ["judge_id"; "judge_name"];
                Strict.judge_rows := [] |} monday 5
             (candidate_solver_sound one_case_a_day) Hc eq_refl Hcal
             (or_introl eq_refl)).
Defined.

(** ** The rows of [generate_optimal_schedule] *)

Lemma for_each_invariant {A S} (P : S → Prop) (body : S → A → result S)
    (xs : list A) (s s' : S) :
  (∀ s x s', x ∈ xs → P s → body s x = Ok s' → P s') →
  P s → for_each body xs s = Ok s' → P s'.
Proof.
  revert s. induction xs as [|x xs IH]; intros s Hbody Hs Hrun.
  - by injection Hrun as <-.
  - cbn [for_each] in Hrun.
    destruct (body s x) as [s1|e] eqn:Hx; [|done]. cbn [bind] in Hrun.
    apply (IH s1); [|by apply (Hbody s x); [left|..]|done].
    intros s2 y s3 Hy. apply Hbody. by right.
Qed.

Section StrictRows.

Variable sort_values : list Case → list Case.
Variable self : HearingScheduler.
Variable cases_df : CasesDF.
Variable judges_df : Strict.JudgesDF.
Variable start_date num_days : Z.

Hypothesis sort_values_perm : ∀ l, sort_values l ≡ₚ l.
Hypothesis has_judge_id :
  Strict.has_judge_column judges_df "judge_id" = true.
Hypothesis has_judge_name :
  Strict.has_judge_column judges_df "judge_name" = true.

Lemma strict_heuristic_rows schedule_df :
  Strict.schedule_hearings_heuristic sort_values self cases_df judges_df
    start_date num_days = Ok schedule_df →
  ∀ h, h ∈ rows schedule_df →
       row_of_inputs self cases_df (Strict.judge_rows judges_df) start_date
         num_days h.
Proof.
  intros Hrun.
  destruct (decide (num_days ≤ 0
                    ∨ (1 ≤ start_date
                       ∧ start_date + num_days - 1 ≤ Strict.MAXORDINAL)))
    as [Hcal | Hcal].
  - rewrite strict_heuristic_eq in Hrun by (done || by left).
    destruct (heuristic_rows_of_inputs sort_values self cases_df
                (Strict.judge_rows judges_df) start_date num_days
                sort_values_perm) as (df & Hdf & Hrows).
    rewrite Hdf in Hrun. by injection Hrun as <-.
  - unfold Strict.schedule_hearings_heuristic in Hrun.
    by rewrite strict_heuristic_overflow in Hrun.
Qed.

Lemma strict_extract_rows value schedule :
  Strict.extract_schedule self cases_df judges_df start_date num_days value
  = Ok schedule →
  Forall (row_of_inputs self cases_df (Strict.judge_rows judges_df)
            start_date num_days) schedule.
Proof.
  unfold Strict.extract_schedule.
  apply (for_each_invariant
           (Forall (row_of_inputs self cases_df (Strict.judge_rows judges_df)
                      start_date num_days))); [|done].
  intros s c s' Hc Hs.
  apply for_each_invariant; [|done].
  intros s1 j s1' Hj Hs1.
  apply for_each_invariant; [|done].
  intros s2 d s2' Hd Hs2. unfold Strict.extract_one.
  case_bool_decide; [|by intros [= <-]].
  destruct (date_add_cases start_date d) as [-> | ->]; [|done].
  cbn [bind]. unfold iloc.
  destruct (case_rows cases_df !! Z.to_nat c) as [case_row|] eqn:Hcase;
    [|done].
  cbn [bind].
  destruct (Strict.judge_rows judges_df !! Z.to_nat j) as [judge_row|]
    eqn:Hjudge; [|done].
  cbn [bind]. unfold Strict.judge_get.
  rewrite has_judge_id, has_judge_name. cbn [bind].
  intros [= <-]. apply Forall_app. split; [done|].
  apply Forall_singleton. exists case_row, judge_row.
  split; [by eapply list_elem_of_lookup_2|].
  split; [by eapply list_elem_of_lookup_2|].
  split; [done|]. simpl. apply elem_of_seqZ in Hd. lia.
Qed.

Lemma strict_optimized_rows (ORTOOLS_AVAILABLE : bool)
    (Solve : CpModel → CpSolverStatus * (BoolVar → Z)) schedule_df :
  Strict.schedule_hearings_optimized sort_values ORTOOLS_AVAILABLE Solve self
    cases_df judges_df start_date num_days = Ok schedule_df →
  ∀ h, h ∈ rows schedule_df →
       row_of_inputs self cases_df (Strict.judge_rows judges_df) start_date
         num_days h.
Proof.
  unfold Strict.schedule_hearings_optimized.
  destruct ORTOOLS_AVAILABLE; cbn [negb]; [|apply strict_heuristic_rows].
  destruct (build_model _ _ _ _) as [model|e]; [|done]. cbn [bind].
  destruct (Solve model) as [status value].
  case_bool_decide; [|apply strict_heuristic_rows].
  destruct (Strict.extract_schedule _ _ _ _ _ _) as [schedule|e] eqn:Hx;
    [|done].
  cbn [bind]. intros [= <-]. rewrite rows_DataFrame.
  apply Forall_forall. by apply (strict_extract_rows value).
Qed.

End StrictRows.

(** X24.  [generate_optimal_schedule] on the rows of its two queries.  With
    no pending case or no active judge it returns the empty frame.  On the
    heuristic path it returns whenever the horizon (which starts tomorrow
    when no start date is given) lies in the calendar.  Whenever it returns,
    on either path, every row of the schedule pairs a pending case with an
    active judge on a day of the horizon, lasts the default half hour, and
    carries the priority of the case, where a missing priority and a
    priority of zero both count as 50: no row has priority zero. *)
Theorem generate_optimal_schedule_rows
    (sort_values : list Case → list Case) (ORTOOLS_AVAILABLE : bool)
    (Solve : CpModel → CpSolverStatus * (BoolVar → Z)) (tomorrow : Z)
    (cases : list PendingCase) (judges : list ActiveJudge)
    (start_date : option Z) (num_days : Z) (use_optimization : bool) :
  (∀ l, sort_values l ≡ₚ l) →
  (cases = [] ∨ judges = [] →
   Strict.generate_optimal_schedule sort_values ORTOOLS_AVAILABLE Solve
     tomorrow cases judges start_date num_days use_optimization
   = Ok (DataFrame []))
  ∧ (Strict.in_calendar (default tomorrow start_date) num_days →
     use_optimization && ORTOOLS_AVAILABLE = false →
     ∃ schedule_df,
       Strict.generate_optimal_schedule sort_values ORTOOLS_AVAILABLE Solve
         tomorrow cases judges start_date num_days use_optimization
       = Ok schedule_df)
  ∧ ∀ schedule_df,
      Strict.generate_optimal_schedule sort_values ORTOOLS_AVAILABLE Solve
        tomorrow cases judges start_date num_days use_optimization
      = Ok schedule_df →
      ∀ h, h ∈ rows schedule_df →
        ∃ c j, c ∈ cases ∧ j ∈ judges
               ∧ h_case_id h = pc_case_id c
               ∧ h_case_number h = pc_case_number c
               ∧ h_judge_id h = aj_judge_id j
               ∧ h_judge_name h = aj_judge_name j
               ∧ h_priority_score h
                 = match pc_priority_score c with
                   | Some p => if Qeq_bool p 0 then 50%Q else p
                   | None => 50%Q
                   end
               ∧ ¬ (h_priority_score h == 0)%Q
               ∧ estimated_duration_hours h = (1 # 2)%Q
               ∧ default tomorrow start_date ≤ hearing_date h
                 < default tomorrow start_date + num_days.
Proof.
  intros Hperm. unfold Strict.generate_optimal_schedule.
  destruct cases as [|c0 cases].
  { split; [done|]. split; [by eexists|].
    intros df [= <-] h Hh. by apply elem_of_nil in Hh. }
  destruct judges as [|j0 judges].
  { split; [done|]. split; [by eexists|].
    intros df [= <-] h Hh. by apply elem_of_nil in Hh. }
  cbn [HearingScheduler_default HearingScheduler_init bind].
  set (self := {| max_hearings_per_day := 20; max_hearings_per_judge := 15;
                  working_hours_per_day := 6;
                  avg_hearing_duration := 1 # 2 |}).
  set (start := default tomorrow start_date).
  set (judges_df := Strict.judges_DataFrame (judges_frame (j0 :: judges))).
  assert (Hid : Strict.has_judge_column judges_df "judge_id" = true) by done.
  assert (Hname : Strict.has_judge_column judges_df "judge_name" = true)
    by done.
  split; [by intros [?|?]|]. split.
  - intros Hcal ->.
    rewrite strict_heuristic_eq by (done || by left).
    eexists. apply schedule_hearings_heuristic_eq.
  - intros df Hrun h Hh.
    assert (Hrow : row_of_inputs self (cases_frame (c0 :: cases))
                     (Strict.judge_rows judges_df) start num_days h).
    { destruct (use_optimization && ORTOOLS_AVAILABLE).
      - by apply (strict_optimized_rows sort_values self _ judges_df start
                    num_days Hperm Hid Hname ORTOOLS_AVAILABLE Solve df).
      - by apply (strict_heuristic_rows sort_values self _ judges_df start
                    num_days Hperm Hid Hname df). }
    destruct Hrow as (c & j & Hc & Hj & -> & Hdate).
    apply list_elem_of_fmap in Hc as (pc & -> & Hpc).
    apply list_elem_of_fmap in Hj as (aj & -> & Haj).
    exists pc, aj. simpl in *. repeat split; try done; try lia.
    apply priority_or_50_nonzero.
Qed.

Lemma generate_optimal_schedule_rows_witness :
  ((∀ l, stable_sort_values l ≡ₚ l)
   ∧ Strict.in_calendar (default monday None) 5
   ∧ true && false = false)
  ∧ ∃ schedule_df,
      Strict.generate_optimal_schedule stable_sort_values false
        (candidate_solver nothing_booked) monday pending_cases active_judges
        None 5 true = Ok schedule_df
      ∧ h_priority_score <$> rows schedule_df = [80; 50; 50]%Q
      ∧ ∀ h, h ∈ rows schedule_df → ¬ (h_priority_score h == 0)%Q.
Proof.
  assert (Hcal : Strict.in_calendar (default monday None) 5).
  { right. unfold Strict.MAXORDINAL, monday. simpl. lia. }
  split; [split; [exact stable_sort_values_perm | by split]|].
  destruct (generate_optimal_schedule_rows stable_sort_values false
              (candidate_solver nothing_booked) monday pending_cases
              active_judges None 5 true stable_sort_values_perm)
    as (_ & Hreturns & Hrows).
  destruct (Hreturns Hcal eq_refl) as (df & Hdf).
  exists df. split; [done|]. split.
  - vm_compute in Hdf. by injection Hdf as <-.
  - intros h Hh.
    by destruct (Hrows df Hdf h Hh)
      as (c & j & _ & _ & _ & _ & _ & _ & _ & Hnz & _).
Defined.

(** ** Validation with the deadline's date arithmetic *)

Lemma strict_priority_deadline_eq today schedule_df threshold max_days :
  (has_column schedule_df "priority_score" = true →
   Strict.date_add today max_days = Ok (today + max_days)) →
  Strict._validate_priority_deadline today schedule_df threshold max_days
  = _validate_priority_deadline today schedule_df threshold max_days.
Proof.
  intros Hdate.
  unfold Strict._validate_priority_deadline, _validate_priority_deadline.
  destruct (has_column schedule_df "priority_score"); [|done].
  cbn [negb]. by rewrite Hdate.
Qed.

Lemma strict_validate_schedule_eq today self schedule_df judges_df :
  (has_column schedule_df "priority_score" = true →
   ∀ threshold max_days,
     PriorityDeadline threshold max_days ∈ constraints self →
     Strict.date_add today max_days = Ok (today + max_days)) →
  Strict.validate_schedule today self schedule_df judges_df
  = validate_schedule today self schedule_df judges_df.
Proof.
  intros Hdates. unfold Strict.validate_schedule, validate_schedule.
  rewrite (for_each_ext (Strict.validate_constraint today schedule_df)
             (validate_constraint today schedule_df)); [done|].
  intros violations c Hc. destruct c; try done.
  cbn [Strict.validate_constraint validate_constraint].
  rewrite strict_priority_deadline_eq; [done|].
  intros Hpri. by eapply Hdates.
Qed.

(** X14.  On a frame that has the columns [hearing_date], [judge_id] and
    [case_number], [validate_schedule] returns for every rule list in which
    the deadline [today + max_days] of each [priority_deadline] rule is a
    date of the calendar ([priority_score] is not needed, and without it
    the deadline is not computed); a [priority_deadline] rule at the head of
    the list whose deadline is not a date raises [OverflowError] when the
    frame has [priority_score]. *)
Theorem validate_schedule_total_on_complete_frames (today : Z)
    (self : ConstraintBuilder.t) (schedule_df : ScheduleDF)
    (judges_df : list Judge) :
  (has_column schedule_df "hearing_date" = true →
   has_column schedule_df "judge_id" = true →
   has_column schedule_df "case_number" = true →
   (has_column schedule_df "priority_score" = true →
    ∀ threshold max_days,
      PriorityDeadline threshold max_days ∈ constraints self →
      -999999999 ≤ max_days ≤ 999999999
      ∧ 1 ≤ today + max_days ≤ Strict.MAXORDINAL) →
   ∃ is_valid violations,
     Strict.validate_schedule today self schedule_df judges_df
     = Ok (is_valid, violations)
     ∧ (is_valid = true ↔ violations = []))
  ∧ (has_column schedule_df "priority_score" = true →
     ∀ threshold max_days rest,
       constraints self = PriorityDeadline threshold max_days :: rest →
       ¬ (-999999999 ≤ max_days ≤ 999999999
          ∧ 1 ≤ today + max_days ≤ Strict.MAXORDINAL) →
       Strict.validate_schedule today self schedule_df judges_df
       = Raise OverflowError).
Proof.
  split.
  - intros Hdate Hjudge Hnum Hdeadlines.
    rewrite strict_validate_schedule_eq.
    + by apply validate_schedule_returns_on_complete_frames.
    + intros Hpri threshold max_days Hin.
      destruct (Hdeadlines Hpri threshold max_days Hin) as [Hdelta Hsum].
      unfold Strict.date_add, Strict.timedelta.
      rewrite bool_decide_eq_true_2 by done. cbn [bind].
      by rewrite bool_decide_eq_true_2.
  - intros Hpri threshold max_days rest Hrules Hout.
    unfold Strict.validate_schedule. rewrite Hrules.
    cbn [for_each Strict.validate_constraint].
    unfold Strict._validate_priority_deadline. rewrite Hpri. cbn [negb].
    destruct (date_add_cases today max_days) as [Hok | ->]; [|done].
    exfalso. apply Hout.
    unfold Strict.date_add, Strict.timedelta in Hok.
    case_bool_decide; [|done]. cbn [bind] in Hok.
    by case_bool_decide.
Qed.

Lemma validate_schedule_total_on_complete_frames_witness :
  ∃ schedule_df is_valid violations,
    schedule_hearings_heuristic stable_sort_values two_per_judge three_cases
      [judge_A] monday 5 = Ok schedule_df
    ∧ (has_column schedule_df "hearing_date" = true
       ∧ has_column schedule_df "judge_id" = true
       ∧ has_column schedule_df "case_number" = true)
    ∧ Strict.validate_schedule monday
        (add_holiday_exclusion
           (add_priority_deadline (add_max_hearings_per_day init 1) 40 0)
           [monday + 1])
        schedule_df [judge_A]
      = Ok (is_valid, violations)
    ∧ Strict.validate_schedule monday
        (add_priority_deadline init 75 3000000) schedule_df [judge_A]
      = Raise OverflowError.
Proof.
  eexists.
  assert (Hdf : schedule_hearings_heuristic stable_sort_values two_per_judge
                  three_cases [judge_A] monday 5
                = Ok (DataFrame
                        [booking two_per_judge three_cases
                           (case_of 2 "C-2" 90) monday judge_A;
                         booking two_per_judge three_cases
                           (case_of 3 "C-3" 50) monday judge_A;
                         booking two_per_judge three_cases
                           (case_of 1 "C-1" 10) (monday + 1) judge_A]))
    by (by vm_compute).
  match type of Hdf with _ = Ok ?df =>
    assert (H1 : has_column df "hearing_date" = true) by done;
    assert (H2 : has_column df "judge_id" = true) by done;
    assert (H3 : has_column df "case_number" = true) by done;
    assert (H4 : has_column df "priority_score" = true) by done;
    assert (Hdeadlines :
      has_column df "priority_score" = true →
      ∀ threshold max_days,
        PriorityDeadline threshold max_days
          ∈ constraints
              (add_holiday_exclusion
                 (add_priority_deadline (add_max_hearings_per_day init 1)
                    40 0) [monday + 1]) →
        -999999999 ≤ max_days ≤ 999999999
        ∧ 1 ≤ monday + max_days ≤ Strict.MAXORDINAL);
    [|destruct (proj1 (validate_schedule_total_on_complete_frames monday
                (add_holiday_exclusion
                   (add_priority_deadline (add_max_hearings_per_day init 1)
                      40 0) [monday + 1])
                df [judge_A]) H1 H2 H3 Hdeadlines) as (b & vs & Hv & _);
      exists b, vs; split; [exact Hdf|]; split; [done|]; split; [exact Hv|];
      apply (proj2 (validate_schedule_total_on_complete_frames monday
                      (add_priority_deadline init 75 3000000) df [judge_A])
               H4 75%Q 3000000 [] eq_refl);
      unfold Strict.MAXORDINAL, monday; lia]
  end.
  intros _ threshold max_days Hin.
  cbn in Hin.
  repeat (apply elem_of_cons in Hin as [Hin | Hin];
          [try discriminate Hin|]).
  - injection Hin as _ ->. unfold Strict.MAXORDINAL, monday. lia.
  - by apply elem_of_nil in Hin.
Defined.

(** ** C9: a non-positive average hearing duration *)

Lemma int_of_float_nonpos (q : Q) : (q <= 0)%Q → int_of_float q ≤ 0.
Proof.
  unfold Qle, int_of_float. simpl. intros Hq.
  apply Z.quot_le_upper_bound; lia.
Qed.

Lemma round_half_even_nonneg (q : Q) : (0 <= q)%Q → 0 ≤ round_half_even q.
Proof.
  intros Hq. unfold round_half_even.
  pose proof (Qfloor_resp_le _ _ Hq) as Hf. change (Qfloor 0) with 0 in Hf.
  destruct (Qcompare _ _); [destruct (Z.even _)| |]; lia.
Qed.

(** The quotient of a non-positive rational rounds to a non-positive float
    or to minus infinity. *)
Lemma round_to_double_nonpos (q : Q) :
  (q <= 0)%Q →
  match round_to_double q with
  | Finite r => (r <= 0)%Q
  | Infinite negative => negative = true
  end.
Proof.
  intros Hq. unfold round_to_double.
  destruct (Qeq_bool q 0) eqn:Hz; [done|].
  assert (Hneg : Qle_bool 0 q = false).
  { destruct (Qle_bool 0 q) eqn:Hle; [|done].
    apply Qle_bool_iff in Hle.
    assert (Heq : (q == 0)%Q) by by apply Qle_antisym.
    apply Qeq_bool_iff in Heq. congruence. }
  rewrite Hneg. cbv zeta.
  destruct (Qle_bool (2 ^ 1024) _); [done|].
  cbv beta iota. rewrite Qred_correct.
  apply (Qopp_le_compat 0). apply Qmult_le_0_compat.
  - change 0%Q with (inject_Z 0). rewrite <- Zle_Qle.
    apply round_half_even_nonneg.
    apply Qle_shift_div_l; [by apply Qpower_0_lt|].
    rewrite Qmult_0_l. apply Qabs_nonneg.
  - by apply Qpower_0_le.
Qed.

Lemma Qdiv_nonneg_neg (x y : Q) : (0 <= x)%Q → (y < 0)%Q → (x / y <= 0)%Q.
Proof.
  intros Hx Hy.
  assert (Hy' : ¬ (y == 0)%Q).
  { intros Heq. rewrite Heq in Hy. by apply Qlt_irrefl in Hy. }
  assert (Heq : (x / y == - (x / - y))%Q) by (field; done).
  rewrite Heq. apply (Qopp_le_compat 0).
  apply Qle_shift_div_l.
  - by apply (Qopp_lt_compat y 0).
  - by rewrite Qmult_0_l.
Qed.

(** C9, counterexample: with [avg_hearing_duration = -0.5] the scheduler is
    constructed, schedules, and the working-hours rule is added with a
    negative derived capacity; nothing fails. *)
Lemma negative_duration_is_accepted :
  (- (1 # 2) <= 0)%Q
  ∧ (∃ scheduler schedule_df,
       HearingScheduler_init 20 2 6 (- (1 # 2)) = Ok scheduler
       ∧ schedule_hearings_heuristic stable_sort_values scheduler three_cases
           [judge_A] monday 5 = Ok schedule_df
       ∧ estimated_duration_hours <$> rows schedule_df
         = [- (1 # 2); - (1 # 2); - (1 # 2)]%Q)
  ∧ add_working_hours_limit init 6 (- (1 # 2))
    = Ok {| constraints := [WorkingHoursLimit 6 (- (1 # 2)) (-12)] |}.
Proof.
  split; [done|]. split; [|by vm_compute].
  eexists _, _. split; [done|]. split; by vm_compute.
Qed.

(** The float quotient is the rounded one: [6.0 / 0.1] is [60.0] although
    the double nearest to 0.1 is above 1/10, and the quotient by the
    subnormal [1e-320] is infinite, which [int] refuses. *)
Example working_hours_of_a_tenth :
  add_working_hours_limit init 6 (3602879701896397 # 36028797018963968)
  = Ok {| constraints :=
            [WorkingHoursLimit 6 (3602879701896397 # 36028797018963968)
               60] |}.
Proof. by vm_compute. Qed.

Example tiny_duration_overflows :
  add_working_hours_limit init 6 (2024 * 2 ^ (-1074))%Q
  = Raise OverflowError.
Proof. by vm_compute. Qed.

(** C9 (as amended).  Nothing validates [avg_hearing_duration].
    [HearingScheduler.__init__] succeeds for every value and stores it, and
    the heuristic schedules with it: every hearing carries it as
    [estimated_duration_hours].  [add_working_hours_limit] only computes
    [int(max_hours / avg_hearing_duration)]: a zero duration raises the
    [ZeroDivisionError] of the division, and a negative duration (with
    [max_hours >= 0]) is accepted whenever the float quotient is finite,
    the rule being stored with a derived capacity that is not positive; an
    infinite quotient raises the [OverflowError] of [int]. *)
Theorem duration_is_not_validated (max_day max_judge hours : Z) (avg : Q)
    (builder : ConstraintBuilder.t) (max_hours : Q) :
  (∃ scheduler,
     HearingScheduler_init max_day max_judge hours avg = Ok scheduler
     ∧ avg_hearing_duration scheduler = avg
     ∧ ∀ (sort_values : list Case → list Case) cases_df judges_df
         start_date num_days,
         Strict.in_calendar start_date num_days →
         Strict.has_judge_column judges_df "judge_id" = true →
         Strict.has_judge_column judges_df "judge_name" = true →
         ∃ schedule_df,
           Strict.schedule_hearings_heuristic sort_values scheduler cases_df
             judges_df start_date num_days = Ok schedule_df
           ∧ ∀ h, h ∈ rows schedule_df → estimated_duration_hours h = avg)
  ∧ ((avg == 0)%Q →
     add_working_hours_limit builder max_hours avg = Raise ZeroDivisionError)
  ∧ ((avg < 0)%Q → (0 <= max_hours)%Q →
     match round_to_double (max_hours / avg) with
     | Finite quotient =>
         int_of_float quotient ≤ 0
         ∧ add_working_hours_limit builder max_hours avg
           = Ok (append builder
                   (WorkingHoursLimit max_hours avg (int_of_float quotient)))
     | Infinite _ =>
         add_working_hours_limit builder max_hours avg = Raise OverflowError
     end).
Proof.
  split.
  { eexists. split; [done|]. split; [done|].
    intros sort_values cases_df judges_df start_date num_days Hcal Hid Hname.
    rewrite strict_heuristic_eq by (done || by left).
    eexists. split; [apply schedule_hearings_heuristic_eq|].
    rewrite rows_DataFrame. apply Forall_forall.
    apply place_all_Forall; [|done]. by intros c d j _ _ _ _. }
  unfold add_working_hours_limit, float_truediv. split.
  - intros Hz. apply Qeq_bool_iff in Hz. by rewrite Hz.
  - intros Hneg Hmax.
    assert (Hnz : Qeq_bool avg 0 = false).
    { destruct (Qeq_bool avg 0) eqn:Hz; [|done].
      apply Qeq_bool_iff in Hz. rewrite Hz in Hneg.
      by apply Qlt_irrefl in Hneg. }
    rewrite Hnz. cbn [bind].
    pose proof (round_to_double_nonpos _ (Qdiv_nonneg_neg _ _ Hmax Hneg))
      as Hsign.
    destruct (round_to_double (max_hours / avg)) as [quotient|negative];
      [|done].
    split; [by apply int_of_float_nonpos|done].
Qed.

Lemma duration_is_not_validated_witness :
  ((0 # 5 == 0)%Q ∧ (- (1 # 2) < 0)%Q ∧ (0 <= 6)%Q)
  ∧ add_working_hours_limit init 6 (0 # 5) = Raise ZeroDivisionError
  ∧ add_working_hours_limit init 6 (- (1 # 2))
    = Ok (append init (WorkingHoursLimit 6 (- (1 # 2)) (-12))).
Proof.
  assert (Hz : (0 # 5 == 0)%Q) by done.
  assert (Hn : (- (1 # 2) < 0)%Q) by done.
  assert (Hm : (0 <= 6)%Q) by done.
  split; [by repeat split|]. split.
  - exact (proj1 (proj2 (duration_is_not_validated 20 15 6 (0 # 5) init 6))
             Hz).
  - pose proof (proj2 (proj2 (duration_is_not_validated 20 15 6 (- (1 # 2))
                                init 6)) Hn Hm) as Hrule.
    vm_compute in Hrule. destruct Hrule as [_ Hrule]. exact Hrule.
Defined.
